(** * ZooKeeperWithFaultInjection: a fault-injecting proxy in front of the
      coordination-service client

    Shallow embedding of [src/Common/ZooKeeper/ZooKeeperWithFaultInjection.h].

    The C++ member functions mutate the proxy object, write through reference
    parameters of their caller, call the real client, log and throw.  They are
    embedded as computations of a small state-and-exception monad [M L A]:
    [L] is the frame of caller variables a lambda captures by reference
    (e.g. [responses], [path_created]), the threaded [State] holds the proxy's
    fields together with what the outside world observes (the service behind
    the real clients, the calls they received, the lines logged).

    A second, independent part embeds the index of marks of
    [src/Storages/MergeTree/MergeTreeIndexGranularityConstant.cpp]. *)

From Stdlib Require Import String List ZArith QArith Bool Lia.
Import ListNotations.
Open Scope string_scope.
Open Scope list_scope.
Open Scope Z_scope.

(** ** Coordination: error codes, requests and responses *)

Module Coordination.

(** [Coordination::Error].  The enumeration is declared in
    [Common/ZooKeeper/Types.h], outside the files at hand; the codes this
    header names are listed together with the other codes of the protocol the
    classification below speaks about. *)
Inductive Error : Type :=
| ZOK
| ZSYSTEMERROR
| ZRUNTIMEINCONSISTENCY
| ZDATAINCONSISTENCY
| ZCONNECTIONLOSS
| ZMARSHALLINGERROR
| ZUNIMPLEMENTED
| ZOPERATIONTIMEOUT
| ZBADARGUMENTS
| ZINVALIDSTATE
| ZAPIERROR
| ZNONODE
| ZNOAUTH
| ZBADVERSION
| ZNOCHILDRENFOREPHEMERALS
| ZNODEEXISTS
| ZNOTEMPTY
| ZSESSIONEXPIRED
| ZINVALIDCALLBACK
| ZINVALIDACL
| ZAUTHFAILED
| ZCLOSING
| ZNOTHING
| ZSESSIONMOVED.

Definition Error_eqb (a b : Error) : bool :=
  match a, b with
  | ZOK, ZOK | ZSYSTEMERROR, ZSYSTEMERROR
  | ZRUNTIMEINCONSISTENCY, ZRUNTIMEINCONSISTENCY
  | ZDATAINCONSISTENCY, ZDATAINCONSISTENCY
  | ZCONNECTIONLOSS, ZCONNECTIONLOSS | ZMARSHALLINGERROR, ZMARSHALLINGERROR
  | ZUNIMPLEMENTED, ZUNIMPLEMENTED | ZOPERATIONTIMEOUT, ZOPERATIONTIMEOUT
  | ZBADARGUMENTS, ZBADARGUMENTS | ZINVALIDSTATE, ZINVALIDSTATE
  | ZAPIERROR, ZAPIERROR | ZNONODE, ZNONODE | ZNOAUTH, ZNOAUTH
  | ZBADVERSION, ZBADVERSION
  | ZNOCHILDRENFOREPHEMERALS, ZNOCHILDRENFOREPHEMERALS
  | ZNODEEXISTS, ZNODEEXISTS | ZNOTEMPTY, ZNOTEMPTY
  | ZSESSIONEXPIRED, ZSESSIONEXPIRED | ZINVALIDCALLBACK, ZINVALIDCALLBACK
  | ZINVALIDACL, ZINVALIDACL | ZAUTHFAILED, ZAUTHFAILED
  | ZCLOSING, ZCLOSING | ZNOTHING, ZNOTHING
  | ZSESSIONMOVED, ZSESSIONMOVED => true
  | _, _ => false
  end.

(** Modelled from the spec: [Coordination::isHardwareError] is declared in
    [Common/ZooKeeper/IKeeper.h], outside the files at hand.  The
    hardware/connection class is the class of errors under which "the
    transport/session itself is unusable"; both injected errors
    (SessionExpired, OperationTimeout) belong to it. *)
Definition isHardwareError (code : Error) : bool :=
  match code with
  | ZINVALIDSTATE | ZSESSIONEXPIRED | ZSESSIONMOVED
  | ZCONNECTIONLOSS | ZMARSHALLINGERROR | ZOPERATIONTIMEOUT => true
  | _ => false
  end.

(** Modelled from the spec: [Coordination::isUserError], declared beside
    [isHardwareError]: node-not-found, version-mismatch, not-empty and the
    like. *)
Definition isUserError (code : Error) : bool :=
  match code with
  | ZNONODE | ZBADVERSION | ZNOCHILDRENFOREPHEMERALS
  | ZNODEEXISTS | ZNOTEMPTY => true
  | _ => false
  end.

(** The sub-requests of a transaction.  [dynamic_cast<const CreateRequest *>]
    in the source is a match on the constructor. *)
Inductive Request : Type :=
| CreateRequest (path data : string) (is_ephemeral is_sequential : bool)
| RemoveRequest (path : string) (version : Z)
| SetRequest (path data : string) (version : Z)
| CheckRequest (path : string) (version : Z).

Definition getPath (r : Request) : string :=
  match r with
  | CreateRequest p _ _ _ | RemoveRequest p _
  | SetRequest p _ _ | CheckRequest p _ => p
  end.

(** The responses; every one carries the [error] field of
    [Coordination::Response]. *)
Inductive Response : Type :=
| CreateResponse (error : Error) (path_created : string)
| RemoveResponse (error : Error)
| ExistsResponse (error : Error)
| GetResponse (error : Error) (data : string)
| SetResponse (error : Error)
| CheckResponse (error : Error)
| ZooKeeperErrorResponse (error : Error).

Definition error (r : Response) : Error :=
  match r with
  | CreateResponse e _ | RemoveResponse e | ExistsResponse e
  | GetResponse e _ | SetResponse e | CheckResponse e
  | ZooKeeperErrorResponse e => e
  end.

Definition Requests := list Request.
Definition Responses := list Response.

(** [Coordination::MultiResponse]: [responses] beside the inherited [error]. *)
Record MultiResponse : Type := mkMultiResponse {
  multi_error : Error;
  responses : Responses }.

End Coordination.
Import Coordination.

(** [zkutil::CreateMode].  The constants are declared outside the files at
    hand; [asyncTryCreateNoThrow] reads bit 0 of a mode as "ephemeral" and
    bit 1 as "sequential", which fixes them. *)
Module CreateMode.
Definition Persistent : Z := 0.
Definition Ephemeral : Z := 1.
Definition PersistentSequential : Z := 2.
Definition EphemeralSequential : Z := 3.
End CreateMode.

(** ** Exceptions and outcomes *)

(** What a C++ function of this header may throw. *)
Inductive exception : Type :=
| KeeperException (code : Error) (message : string)
    (* zkutil::KeeperException *)
| LOGICAL_ERROR (message : string)
    (* DB::Exception with ErrorCodes::LOGICAL_ERROR *)
| std_exception (what : string).
    (* anything else, e.g. thrown by the real client or by vector::at *)

Definition fromMessage (code : Error) (message : string) : exception :=
  KeeperException code message.

(** [KeeperException::fromPath]: the text it builds from code and path is
    represented by the path. *)
Definition fromPath (code : Error) (path : string) : exception :=
  KeeperException code path.

Inductive outcome (A : Type) : Type :=
| Return (a : A)
| Throw (e : exception).
Arguments Return {A} a.
Arguments Throw {A} e.

(** ** RandomFaultInjection *)

(** [rndgen] and [distribution] together are a seeded Bernoulli source.  The
    generator's algorithm is a collaborator: [distribution k] is the outcome
    of the k-th draw for the probability and seed given at construction, and
    [rndgen], the generator's state, is the number of draws made so far. *)
Record RandomFaultInjection : Type := mkRandomFaultInjection {
  must_fail_after_op : bool;
  must_fail_before_op : bool;
  rndgen : nat;
  distribution : nat -> bool }.

(** [distribution(rndgen)]: one draw; the generator advances. *)
Definition draw (fp : RandomFaultInjection) : bool * RandomFaultInjection :=
  (distribution fp (rndgen fp),
   mkRandomFaultInjection (must_fail_after_op fp) (must_fail_before_op fp)
     (S (rndgen fp)) (distribution fp)).

Definition clear_before (fp : RandomFaultInjection) : RandomFaultInjection :=
  mkRandomFaultInjection (must_fail_after_op fp) false (rndgen fp) (distribution fp).

Definition clear_after (fp : RandomFaultInjection) : RandomFaultInjection :=
  mkRandomFaultInjection false (must_fail_before_op fp) (rndgen fp) (distribution fp).

(** [if (distribution(rndgen) || must_fail_before_op)]: the left operand of
    [||] is evaluated first, the flag is read only when the draw is false. *)
Definition beforeOperationNoThrow (fp : RandomFaultInjection)
  : bool * RandomFaultInjection :=
  let (d, fp1) := draw fp in
  if d || must_fail_before_op fp1 then (true, clear_before fp1) else (false, fp1).

Definition afterOperationNoThrow (fp : RandomFaultInjection)
  : bool * RandomFaultInjection :=
  let (d, fp1) := draw fp in
  if d || must_fail_after_op fp1 then (true, clear_after fp1) else (false, fp1).

Definition beforeOperation (fp : RandomFaultInjection)
  : outcome unit * RandomFaultInjection :=
  let (d, fp1) := draw fp in
  if d || must_fail_before_op fp1
  then (Throw (fromMessage ZSESSIONEXPIRED "Fault injection before operation"),
        clear_before fp1)
  else (Return tt, fp1).

Definition afterOperation (fp : RandomFaultInjection)
  : outcome unit * RandomFaultInjection :=
  let (d, fp1) := draw fp in
  if d || must_fail_after_op fp1
  then (Throw (fromMessage ZOPERATIONTIMEOUT "Fault injection after operation"),
        clear_after fp1)
  else (Return tt, fp1).

(** ** The real client, as the proxy sees it *)

(** A [zk::Ptr] names a client object; [None] is the null pointer. *)
Definition KeeperId := nat.

(** The member functions of [zkutil::ZooKeeper] (and of its [impl]) this
    header calls, with the arguments that matter to the proxy.  Watches and
    [Stat] pointers are handed through untouched and are left out. *)
Inductive Call : Type :=
| zk_getChildren (path : string)
| zk_tryGetChildren (path : string)
| zk_tryGetChildrenWatch (path : string)
| zk_getChildrenWatch (path : string)
| zk_tryGet (path : string)
| zk_tryGetWatch (path : string)
| zk_tryMulti (requests : Requests)
| zk_tryMultiNoThrow (requests : Requests)
| zk_get (path : string)
| zk_set (path data : string) (version : Z)
| zk_remove (path : string) (version : Z)
| zk_exists (path : string)
| zk_tryCreate (path data : string) (mode : Z)
| zk_multi (requests : Requests)
| zk_createOrUpdate (path data : string) (mode : Z)
| zk_createAncestors (path : string)
| zk_tryRemove (path : string) (version : Z)
| zk_removeRecursive (path : string)
| zk_tryRemoveRecursive (path : string)
| zk_removeChildren (path : string)
| zk_tryRemoveChildrenRecursive (path : string) (probably_flat : bool)
| zk_waitForDisappear (path : string)
| zk_sync (path : string)
| zk_trySet (path data : string) (version : Z)
| zk_checkExistsAndGetCreateAncestorsOps (path : string)
| zk_deleteEphemeralNodeIfContentMatches (path value : string)
| zk_isFeatureEnabled (feature_flag : nat)
| zk_expired
| impl_exists (path : string) (has_watch : bool)
| impl_get (path : string)
| impl_remove (path : string) (version : Z)
| impl_multi (ops : Requests)
| impl_create (path data : string) (is_ephemeral is_sequential : bool).

(** What a call hands back: its return value, paired with the final content
    of the reference parameter the client fills ([res], [responses],
    [path_created], [requests]) where there is one.  The [impl] calls are
    asynchronous: they return nothing, the answer reaches the callback. *)
Definition Reply (c : Call) : Type :=
  match c with
  | zk_getChildren _ | zk_getChildrenWatch _ => list string
  | zk_tryGetChildren _ | zk_tryGetChildrenWatch _ => (Error * list string)%type
  | zk_tryGet _ | zk_tryGetWatch _ => (bool * string)%type
  | zk_tryMulti _ | zk_tryMultiNoThrow _ => (Error * Responses)%type
  | zk_get _ | zk_sync _ => string
  | zk_tryCreate _ _ _ => (Error * string)%type
  | zk_multi _ => Responses
  | zk_tryRemove _ _ | zk_trySet _ _ _ => Error
  | zk_exists _ | zk_tryRemoveChildrenRecursive _ _ | zk_waitForDisappear _
  | zk_isFeatureEnabled _ | zk_expired => bool
  | zk_checkExistsAndGetCreateAncestorsOps _ => Requests
  | zk_set _ _ _ | zk_remove _ _ | zk_createOrUpdate _ _ _
  | zk_createAncestors _ | zk_removeRecursive _ | zk_tryRemoveRecursive _
  | zk_removeChildren _ | zk_deleteEphemeralNodeIfContentMatches _ _
  | impl_exists _ _ | impl_get _ | impl_remove _ _ | impl_multi _
  | impl_create _ _ _ _ => unit
  end.

(** The lines the proxy writes through [LOG_TRACE] / [tryLogCurrentException]
    (each with the proxy's seed, as in the format strings). *)
Inductive LogLine : Type :=
| call_FAILED (seed : Z) (func path : string) (code : Error) (message : string)
| cleanup_done (seed : Z) (func path path_created : string) (code : Error)
| cleanup_FAILED (seed : Z) (func path path_created : string) (code : Error)
    (message : string)
| injected_fault_before (seed : Z) (func path : string)
| injected_fault_after (seed : Z) (func path : string)
| exception_during_clean_up (e : exception).

(** [std::promise]: not yet set, set to a value, or set to an exception
    (reading the future then throws it). *)
Inductive promise (A : Type) : Type :=
| pending
| set_value (a : A)
| set_exception (e : exception).
Arguments pending {A}.
Arguments set_value {A} a.
Arguments set_exception {A} e.

(** The lambda an asynchronous operation hands to the client captures by
    reference ([[&, promise]]), so it holds references to the locals and the
    by-value parameters of the member function that made it.  The client
    runs the lambda when the answer is there: while that member function is
    still in progress, or after it returned.  In the second case those
    objects are gone. *)
Inductive lifetime : Type :=
| during_the_call
| after_the_return.

(** [std::is_same_v<Coordination::Error, Result>]: either [Result] is
    [Coordination::Error], or it is some other type ([void] is [unit]). *)
Inductive ResultType (R : Type) : Type :=
| is_Error (code_of : R -> Error) (of_code : Error -> R)
| is_other.
Arguments is_Error {R} code_of of_code.
Arguments is_other {R}.

Definition Error_result : ResultType Error := is_Error (fun e => e) (fun e => e).

Definition hardware_result {R} (rt : ResultType R) (res : R) : bool :=
  match rt with
  | is_Error code_of _ => isHardwareError (code_of res)
  | is_other => false
  end.

Section Proxy.

(** The coordination service behind the real clients, and how a client
    answers a call: both are inputs of the proxy. *)
Context {K : Type}.
Variable exec : forall c : Call, KeeperId -> K -> outcome (Reply c) * K.

(** The fields of [ZooKeeperWithFaultInjection].  [logger] tells whether the
    pointer is non-null; [seed] is the UInt64 seed. *)
Record ZooKeeperWithFaultInjection : Type := mkProxy {
  keeper : option KeeperId;
  keeper_prev : option KeeperId;
  fault_policy : option RandomFaultInjection;
  name : string;
  logger : bool;
  seed : Z;
  ephemeral_nodes : list string }.

(** The object together with the world it acts on: the service, the calls
    the real clients received (in order), the lines logged. *)
Record State : Type := mkState {
  this :> ZooKeeperWithFaultInjection;
  service : K;
  calls : list (KeeperId * Call);
  log : list LogLine }.

Definition set_this (o : ZooKeeperWithFaultInjection) (s : State) : State :=
  mkState o (service s) (calls s) (log s).

Definition set_keeper (v : option KeeperId) (s : State) : State :=
  set_this (mkProxy v (keeper_prev s) (fault_policy s) (name s) (logger s)
              (seed s) (ephemeral_nodes s)) s.

Definition set_keeper_prev (v : option KeeperId) (s : State) : State :=
  set_this (mkProxy (keeper s) v (fault_policy s) (name s) (logger s)
              (seed s) (ephemeral_nodes s)) s.

Definition set_fault_policy (v : option RandomFaultInjection) (s : State) : State :=
  set_this (mkProxy (keeper s) (keeper_prev s) v (name s) (logger s)
              (seed s) (ephemeral_nodes s)) s.

Definition set_ephemeral_nodes (v : list string) (s : State) : State :=
  set_this (mkProxy (keeper s) (keeper_prev s) (fault_policy s) (name s) (logger s)
              (seed s) v) s.

Definition received (k : KeeperId) (c : Call) (srv : K) (s : State) : State :=
  mkState s srv (calls s ++ [(k, c)]) (log s).

Definition logged (line : LogLine) (s : State) : State :=
  mkState s (service s) (calls s) (log s ++ [line]).

(** *** The monad *)

Definition M (L A : Type) : Type := L -> State -> outcome A * L * State.

Definition ret {L A} (a : A) : M L A := fun l s => (Return a, l, s).

Definition throw {L A} (e : exception) : M L A := fun l s => (Throw e, l, s).

Definition bind {L A B} (m : M L A) (k : A -> M L B) : M L B :=
  fun l s =>
    match m l s with
    | (Return a, l', s') => k a l' s'
    | (Throw e, l', s') => (Throw e, l', s')
    end.

(** [try { body } catch (...) { handler }]: [handler e] is [None] when no
    catch clause matches [e]. *)
Definition try_catch {L A} (body : M L A) (handler : exception -> option (M L A))
  : M L A :=
  fun l s =>
    match body l s with
    | (Return a, l', s') => (Return a, l', s')
    | (Throw e, l', s') =>
        match handler e with
        | Some h => h l' s'
        | None => (Throw e, l', s')
        end
    end.

Definition gets {L A} (f : State -> A) : M L A := fun l s => (Return (f s), l, s).

Definition modify {L} (f : State -> State) : M L unit := fun l s => (Return tt, l, f s).

Definition frame {L} : M L L := fun l s => (Return l, l, s).

Definition assign {L} (v : L) : M L unit := fun _ s => (Return tt, v, s).

(** A callee with reference parameters of its own: run [m] on a fresh frame
    [init]; its final frame comes back with the result. *)
Definition scope {L L' A} (init : L') (m : M L' A) : M L (A * L') :=
  fun l s =>
    match m init s with
    | (Return a, l', s') => (Return (a, l'), l, s')
    | (Throw e, _, s') => (Throw e, l, s')
    end.

Definition when {L} (b : bool) (m : M L unit) : M L unit := if b then m else ret tt.

(** [if (logger) LOG_TRACE(logger, ...)]. *)
Definition LOG_TRACE {L} (line : Z -> LogLine) : M L unit :=
  fun l s => (Return tt, l, if logger s then logged (line (seed s)) s else s).

(** [k->f(args)] on the client [k]: the client receives the call. *)
Definition invoke {L} (k : KeeperId) (c : Call) : M L (Reply c) :=
  fun l s =>
    let (r, srv) := exec c k (service s) in
    (r, l, received k c srv s).

(** [keeper->f(args)].  Through a null [keeper] the C++ behaviour is
    undefined; it is represented by an exception no handler of this header
    names. *)
Definition keeper_call {L} (c : Call) : M L (Reply c) :=
  fun l s =>
    match keeper s with
    | Some k => invoke k c l s
    | None => (Throw (std_exception "null keeper dereferenced"), l, s)
    end.

Notation "x <- m ;; k" := (bind m (fun x => k))
  (at level 61, m at next level, right associativity).
Notation "m ;;; k" := (bind m (fun _ => k))
  (at level 61, right associativity).

Fixpoint for_each {L A} (xs : list A) (body : A -> M L unit) : M L unit :=
  match xs with
  | [] => ret tt
  | x :: rest => body x ;;; for_each rest body
  end.

(** [unlikely(fault_policy) && fault_policy->f()], and the same guard around
    the throwing forms: without a policy nothing is drawn. *)
Definition with_policy {L A} (none : A)
  (f : RandomFaultInjection -> A * RandomFaultInjection) : M L A :=
  fun l s =>
    match fault_policy s with
    | Some fp => let (a, fp') := f fp in (Return a, l, set_fault_policy (Some fp') s)
    | None => (Return none, l, s)
    end.

Definition raise {L A} (r : outcome A) : M L A :=
  match r with
  | Return a => ret a
  | Throw e => throw e
  end.

(** [catch (const zkutil::KeeperException &)]. *)
Definition catch_KeeperException {L A} (h : Error -> string -> M L A)
  (e : exception) : option (M L A) :=
  match e with
  | KeeperException code message => Some (h code message)
  | _ => None
  end.

Definition faultInjectionBefore {L} (fault_cleanup : M L unit) : M L unit :=
  try_catch
    (r <- with_policy (Return tt) beforeOperation ;; raise r)
    (catch_KeeperException (fun code message =>
       fault_cleanup ;;; throw (KeeperException code message))).

Definition faultInjectionAfter {L} (fault_cleanup : M L unit) : M L unit :=
  try_catch
    (r <- with_policy (Return tt) afterOperation ;; raise r)
    (catch_KeeperException (fun code message =>
       fault_cleanup ;;; throw (KeeperException code message))).

Definition run_cleanup {L} (c : option (M L unit)) : M L unit :=
  match c with
  | Some f => f
  | None => ret tt
  end.

(** [access<no_throw_access, inject_failure_before_op, inject_failure_after_op>].
    An empty [std::function] is [None].  With [no_throw_access] the source
    returns [e.code], which only typechecks when [Result] is the error code;
    the one such instance is [tryMultiNoThrow]. *)
Definition access {L R} (rt : ResultType R)
  (no_throw_access inject_failure_before_op inject_failure_after_op : bool)
  (func_name path : string) (operation : M L R)
  (fault_after_op_cleanup : option (R -> M L unit))
  (fault_before_op_cleanup : option (M L unit)) : M L R :=
  try_catch
    (k <- gets (fun s => keeper s) ;;
     match k with
     | None => throw (fromMessage ZSESSIONEXPIRED
                        "Session is considered to be expired due to fault injection")
     | Some _ => ret tt
     end ;;;
     when inject_failure_before_op
       (faultInjectionBefore (run_cleanup fault_before_op_cleanup)) ;;;
     res <- operation ;;
     if hardware_result rt res then ret res
     else
       when inject_failure_after_op
         (faultInjectionAfter
            (run_cleanup (option_map (fun f => f res) fault_after_op_cleanup))) ;;;
       ret res)
    (catch_KeeperException (fun code message =>
       LOG_TRACE (fun seed => call_FAILED seed func_name path code message) ;;;
       modify (fun s => match keeper s with
                        | Some k => set_keeper_prev (Some k) s
                        | None => s
                        end) ;;;
       match rt with
       | is_Error _ of_code =>
           if no_throw_access then ret (of_code code)
           else if isHardwareError code then throw (KeeperException code message)
           else ret (of_code code)
       | is_other => throw (KeeperException code message)
       end)).

(** The requests with the ephemeral flag, with their positions. *)
Fixpoint create_requests (i : nat) (requests : Requests) : list (nat * Request) :=
  match requests with
  | [] => []
  | CreateRequest p d true q :: rest =>
      (i, CreateRequest p d true q) :: create_requests (S i) rest
  | _ :: rest => create_requests (S i) rest
  end.

Definition doForEachCreatedEphemeralNode {L} (method : string)
  (requests : Requests) (responses : Responses) (action : string -> M L unit)
  : M L unit :=
  match responses with
  | [] => ret tt
  | _ :: _ =>
      if negb (length responses =? length requests)%nat
      then throw (LOGICAL_ERROR
                    "Number of responses doesn't match number of requests")
      else
        for_each (create_requests 0 requests) (fun ir =>
          match nth_error responses (fst ir) with
          | Some (CreateResponse _ path_created) => action path_created
          | Some _ => throw (LOGICAL_ERROR "Response should be CreateResponse")
          | None => throw (std_exception "vector::at")
          end)
  end.

Definition faultInjectionPostAction {L} (method : string)
  (requests : Requests) (responses : Responses) : M L unit :=
  doForEachCreatedEphemeralNode method requests responses
    (fun path_created => keeper_call (zk_remove path_created (-1))).

Definition push_ephemeral {L} (path_created : string) : M L unit :=
  modify (fun s => set_ephemeral_nodes (ephemeral_nodes s ++ [path_created]) s).

Definition has_policy {L} : M L bool :=
  gets (fun s => match fault_policy s with Some _ => true | None => false end).

(** [!requests.empty() ? requests.front()->getPath() : ""]. *)
Definition front_path (requests : Requests) : string :=
  match requests with
  | r :: _ => getPath r
  | [] => ""
  end.

Definition timeout_responses (requests : Requests) : Responses :=
  map (fun _ => ZooKeeperErrorResponse ZOPERATIONTIMEOUT) requests.

(** A call whose reference parameter is the caller's frame. *)
Definition call_into_frame {L A} (c : M L (A * L)) : M L A :=
  r <- c ;; assign (snd r) ;;; ret (fst r).

(** *** The mirrored interface

    The overloads on vectors of paths wrap the real call exactly as the
    single-path forms do and are not repeated. *)

Definition plain {L R} (rt : ResultType R) (func_name path : string)
  (operation : M L R) : M L R :=
  access rt false true true func_name path operation None None.

Definition getChildren {L} (path : string) : M L (list string) :=
  plain is_other "getChildren" path (keeper_call (zk_getChildren path)).

Definition tryGetChildren (path : string) : M (list string) Error :=
  plain Error_result "tryGetChildren" path
    (call_into_frame (keeper_call (zk_tryGetChildren path))).


Definition getChildrenWatch {L} (path : string) : M L (list string) :=
  plain is_other "getChildrenWatch" path (keeper_call (zk_getChildrenWatch path)).

Definition tryGet (path : string) : M string bool :=
  plain is_other "tryGet" path (call_into_frame (keeper_call (zk_tryGet path))).

Definition tryGetWatch (path : string) : M string bool :=
  plain is_other "tryGetWatch" path
    (call_into_frame (keeper_call (zk_tryGetWatch path))).

Definition get {L} (path : string) : M L string :=
  plain is_other "get" path (keeper_call (zk_get path)).

Definition set {L} (path data : string) (version : Z) : M L unit :=
  plain is_other "set" path (keeper_call (zk_set path data version)).

Definition remove {L} (path : string) (version : Z) : M L unit :=
  plain is_other "remove" path (keeper_call (zk_remove path version)).

Definition exists_ {L} (path : string) : M L bool :=
  plain is_other "exists" path (keeper_call (zk_exists path)).

Definition createOrUpdate {L} (path data : string) (mode : Z) : M L unit :=
  plain is_other "createOrUpdate" path (keeper_call (zk_createOrUpdate path data mode)).

Definition createAncestors {L} (path : string) : M L unit :=
  plain is_other "createAncestors" path (keeper_call (zk_createAncestors path)).

Definition tryRemove {L} (path : string) (version : Z) : M L Error :=
  plain Error_result "tryRemove" path (keeper_call (zk_tryRemove path version)).

Definition removeRecursive {L} (path : string) : M L unit :=
  plain is_other "removeRecursive" path (keeper_call (zk_removeRecursive path)).

Definition tryRemoveRecursive {L} (path : string) : M L unit :=
  plain is_other "tryRemoveRecursive" path (keeper_call (zk_tryRemoveRecursive path)).

Definition removeChildren {L} (path : string) : M L unit :=
  plain is_other "removeChildren" path (keeper_call (zk_removeChildren path)).

Definition tryRemoveChildrenRecursive {L} (path : string) (probably_flat : bool)
  : M L bool :=
  plain is_other "tryRemoveChildrenRecursive" path
    (keeper_call (zk_tryRemoveChildrenRecursive path probably_flat)).

Definition waitForDisappear {L} (path : string) : M L bool :=
  plain is_other "waitForDisappear" path (keeper_call (zk_waitForDisappear path)).

Definition sync {L} (path : string) : M L string :=
  plain is_other "sync" path (keeper_call (zk_sync path)).


Definition checkExistsAndGetCreateAncestorsOps (path : string) : M Requests unit :=
  plain is_other "checkExistsAndGetCreateAncestorsOps" path
    (r <- keeper_call (zk_checkExistsAndGetCreateAncestorsOps path) ;; assign r).

Definition deleteEphemeralNodeIfContentMatches {L}
  (path fast_delete_if_equal_value : string) : M L unit :=
  plain is_other "deleteEphemeralNodeIfContentMatches" path
    (keeper_call (zk_deleteEphemeralNodeIfContentMatches path fast_delete_if_equal_value)).

Definition isFeatureEnabled {L} (feature_flag : nat) : M L bool :=
  keeper_call (zk_isFeatureEnabled feature_flag).

Definition isNull {L} : M L bool :=
  gets (fun s => match keeper s with Some _ => false | None => true end).

Definition expired {L} : M L bool :=
  k <- gets (fun s => keeper s) ;;
  match k with
  | None => ret true
  | Some k => invoke k zk_expired
  end.

Definition setKeeper {L} (keeper_ : option KeeperId) : M L unit :=
  modify (set_keeper keeper_).

(** *** Transactions *)

Definition multi {L} (requests : Requests) : M L Responses :=
  result <- access is_other false true true "multi" (front_path requests)
              (keeper_call (zk_multi requests))
              (Some (fun responses =>
                       faultInjectionPostAction "multi" requests responses))
              None ;;
  (* collect ephemeral nodes to clean up *)
  p <- has_policy ;;
  when p (doForEachCreatedEphemeralNode "multi" requests result push_ephemeral) ;;;
  ret result.

(** The frame is the caller's [responses]. *)
Definition tryMulti (requests : Requests) : M Responses Error :=
  error <- access Error_result false true true "tryMulti" (front_path requests)
             (call_into_frame (keeper_call (zk_tryMulti requests)))
             (Some (fun original_error =>
                      if Error_eqb original_error ZOK
                      then (responses <- frame ;;
                            faultInjectionPostAction "tryMulti" requests responses)
                      else ret tt))
             (Some (assign (timeout_responses requests))) ;;
  (* collect ephemeral nodes when no fault was injected *)
  p <- has_policy ;;
  responses <- frame ;;
  when (p && Error_eqb ZOK error)
    (doForEachCreatedEphemeralNode "tryMulti" requests responses push_ephemeral) ;;;
  ret error.

(** [no_throw = true], [inject_failure_before_op = false]. *)
Definition tryMultiNoThrow (requests : Requests) : M Responses Error :=
  error <- access Error_result true false true "tryMultiNoThrow"
             (front_path requests)
             (call_into_frame (keeper_call (zk_tryMultiNoThrow requests)))
             (Some (fun original_error =>
                      if Error_eqb original_error ZOK
                      then (responses <- frame ;;
                            faultInjectionPostAction "tryMultiNoThrow" requests
                              responses)
                      else ret tt))
             (Some (assign (timeout_responses requests))) ;;
  (* collect ephemeral nodes when no fault was injected *)
  p <- has_policy ;;
  responses <- frame ;;
  when (p && Error_eqb ZOK error)
    (doForEachCreatedEphemeralNode "tryMultiNoThrow" requests responses
       push_ephemeral) ;;;
  ret error.

(** *** Creation *)

Definition is_ephemeral_mode (mode : Z) : bool :=
  (mode =? CreateMode.EphemeralSequential) || (mode =? CreateMode.Ephemeral).

Definition nonempty (s : string) : bool :=
  match s with
  | EmptyString => false
  | String _ _ => true
  end.

(** The cleanup callback [tryCreate] registers for an injected
    after-failure (the lambda taking [code]); the frame is [path_created]. *)
Definition tryCreate_fault_cleanup (path : string) (mode : Z) (code : Error)
  : M string unit :=
  try_catch
    (path_created <- frame ;;
     when (nonempty path_created && is_ephemeral_mode mode)
       (keeper_call (zk_remove path_created (-1)) ;;;
        LOG_TRACE (fun seed =>
          cleanup_done seed "tryCreate" path path_created code)))
    (catch_KeeperException (fun e_code e_message =>
       path_created <- frame ;;
       LOG_TRACE (fun seed =>
         cleanup_FAILED seed "tryCreate" path path_created e_code e_message))).

(** The frame is the caller's [path_created]. *)
Definition tryCreate (path data : string) (mode : Z) : M string Error :=
  assign "" ;;;
  error <- access Error_result false true true "tryCreate" path
             (call_into_frame (keeper_call (zk_tryCreate path data mode)))
             (Some (tryCreate_fault_cleanup path mode))
             None ;;
  (* collect ephemeral nodes when no fault was injected *)
  p <- has_policy ;;
  path_created <- frame ;;
  when (p && (nonempty path_created && is_ephemeral_mode mode))
    (push_ephemeral path_created) ;;;
  ret error.

Definition create {L} (path data : string) (mode : Z) : M L string :=
  r <- scope "" (tryCreate path data mode) ;;
  if negb (Error_eqb (fst r) ZOK) then throw (fromPath (fst r) path)
  else ret (snd r).

(** [tryCreate(path, data, mode)], the overload with a local [path_created]. *)
Definition tryCreate_ {L} (path data : string) (mode : Z) : M L Error :=
  r <- scope "" (tryCreate path data mode) ;; ret (fst r).

Definition createIfNotExists {L} (path data : string) : M L unit :=
  r <- scope "" (tryCreate path data CreateMode.Persistent) ;;
  if Error_eqb (fst r) ZOK || Error_eqb (fst r) ZNODEEXISTS then ret tt
  else throw (fromPath (fst r) path).

(** *** Ephemeral cleanup *)

Definition cleanupEphemeralNodes {L} : M L unit :=
  nodes <- gets (fun s => ephemeral_nodes s) ;;
  for_each nodes (fun path =>
    try_catch
      (prev <- gets (fun s => keeper_prev s) ;;
       match prev with
       | Some k => invoke k (zk_tryRemove path (-1)) ;;; ret tt
       | None => ret tt
       end)
      (fun e => Some (LOG_TRACE (fun _ => exception_during_clean_up e)))) ;;;
  modify (set_ephemeral_nodes []).

(** *** Asynchronous operations

    An asynchronous operation makes a promise, returns its future at once
    and, unless it failed before the request, hands the client a callback
    that sets the promise when the answer arrives.  The frame of these
    computations is the promise.  The callback is told when it runs, as what
    it captured by reference is there only [during_the_call]. *)

Record async (A : Type) : Type := mkAsync {
  future : promise A;
  (* the state of the promise when the call returns *)
  callback : option (lifetime -> A -> M (promise A) unit)
  (* the continuation handed to the client, when a request was issued *) }.
Arguments mkAsync {A}.
Arguments future {A}.
Arguments callback {A}.

(** A local or a by-value parameter of the member function, read in the
    lambda through the reference it captured.  After the return of the member
    function the object is gone and the read is undefined behaviour; like
    the call through a null [keeper] it is represented by an exception no
    handler of this header names, and nothing is stated about what follows
    it. *)
Definition local {L A} (now : lifetime) (v : A) : M L A :=
  match now with
  | during_the_call => ret v
  | after_the_return => throw (std_exception "use of a local after the return")
  end.

(** [if (logger) LOG_TRACE(logger, ..., seed, v)] in a lambda, [v] a captured
    local: it is read only when there is a logger. *)
Definition LOG_TRACE_local {L A} (now : lifetime) (v : A)
  (line : Z -> A -> LogLine) : M L unit :=
  lg <- gets (fun s => logger s) ;;
  if lg
  then (x <- local now v ;; LOG_TRACE (fun seed => line seed x))
  else ret tt.

Definition injectFailureBeforeOp {A} : M (promise A) bool :=
  k <- gets (fun s => keeper s) ;;
  match k with
  | None =>
      assign (set_exception (fromMessage ZSESSIONEXPIRED
                "Session is considered to be expired due to fault injection")) ;;;
      ret true
  | Some _ =>
      fired <- with_policy false beforeOperationNoThrow ;;
      if fired
      then assign (set_exception (fromMessage ZSESSIONEXPIRED
                     "Fault injection before operation")) ;;; ret true
      else ret false
  end.

Definition injectFailureAfterOp {A} : M (promise A) bool :=
  fired <- with_policy false afterOperationNoThrow ;;
  if fired
  then assign (set_exception (fromMessage ZOPERATIONTIMEOUT
                 "Fault injection after operation")) ;;; ret true
  else ret false.

(** [!keeper || (unlikely(fault_policy) && fault_policy->beforeOperationNoThrow())]. *)
Definition null_or_before_fires {L} : M L bool :=
  k <- gets (fun s => keeper s) ;;
  match k with
  | None => ret true
  | Some _ => with_policy false beforeOperationNoThrow
  end.

(** Run the synchronous part on a fresh promise and return the future. *)
Definition returning_future {L A}
  (body : M (promise A) (option (lifetime -> A -> M (promise A) unit)))
  : M L (async A) :=
  r <- scope pending body ;; ret (mkAsync (snd r) (fst r)).

(** [path] is a by-value parameter; the lambda reads it through [[&]]. *)
Definition asyncExists {L} (path : string) (has_watch : bool) : M L (async Response) :=
  returning_future
    (failed <- injectFailureBeforeOp ;;
     if failed
     then LOG_TRACE (fun seed => injected_fault_before seed "asyncExists" path) ;;;
          ret None
     else
       keeper_call (impl_exists path has_watch) ;;;
       ret (Some (fun now response =>
         failed <- injectFailureAfterOp ;;
         if failed
         then LOG_TRACE_local now path
                (fun seed path => injected_fault_after seed "asyncExists" path)
         else if negb (Error_eqb (error response) ZOK)
                 && negb (Error_eqb (error response) ZNONODE)
         then (path <- local now path ;;
               assign (set_exception (fromPath (error response) path)))
         else assign (set_value response)))).

(** [path] is a by-value parameter; the lambda reads it through [[&]]. *)
Definition asyncTryGet {L} (path : string) : M L (async Response) :=
  returning_future
    (failed <- injectFailureBeforeOp ;;
     if failed
     then LOG_TRACE (fun seed => injected_fault_before seed "asyncTryGet" path) ;;;
          ret None
     else
       keeper_call (impl_get path) ;;;
       ret (Some (fun now response =>
         failed <- injectFailureAfterOp ;;
         if failed
         then LOG_TRACE_local now path
                (fun seed path => injected_fault_after seed "asyncTryGet" path)
         else if negb (Error_eqb (error response) ZOK)
                 && negb (Error_eqb (error response) ZNONODE)
         then (path <- local now path ;;
               assign (set_exception (fromPath (error response) path)))
         else assign (set_value response)))).

(** The line logged by the callback says "before operation" in the source.
    [path] is a by-value parameter; the lambda reads it through [[&]]. *)
Definition asyncTryRemove {L} (path : string) (version : Z) : M L (async Response) :=
  returning_future
    (failed <- injectFailureBeforeOp ;;
     if failed
     then LOG_TRACE (fun seed => injected_fault_before seed "asyncTryRemove" path) ;;;
          ret None
     else
       keeper_call (impl_remove path version) ;;;
       ret (Some (fun now response =>
         failed <- injectFailureAfterOp ;;
         if failed
         then LOG_TRACE_local now path
                (fun seed path => injected_fault_before seed "asyncTryRemove" path)
         else if negb (Error_eqb (error response) ZOK)
                 && negb (Error_eqb (error response) ZNONODE)
                 && negb (Error_eqb (error response) ZBADVERSION)
                 && negb (Error_eqb (error response) ZNOTEMPTY)
         then (path <- local now path ;;
               assign (set_exception (fromPath (error response) path)))
         else assign (set_value response)))).

(** [path] is a reference parameter: the lambda reads the caller's string,
    which is the caller's to keep. *)
Definition asyncTryRemoveNoThrow {L} (path : string) (version : Z)
  : M L (async Response) :=
  returning_future
    (failed <- null_or_before_fires ;;
     if failed
     then LOG_TRACE (fun seed =>
            injected_fault_before seed "asyncTryRemoveNoThrow" path) ;;;
          assign (set_value (RemoveResponse ZSESSIONEXPIRED)) ;;;
          ret None
     else
       keeper_call (impl_remove path version) ;;;
       ret (Some (fun _ response =>
         fired <- with_policy false afterOperationNoThrow ;;
         if fired
         then LOG_TRACE (fun seed =>
                injected_fault_after seed "asyncTryRemoveNoThrow" path) ;;;
              assign (set_value (RemoveResponse ZOPERATIONTIMEOUT))
         else assign (set_value response)))).

(** [Coordination::MultiResponse errors;] starts with the default [error] of
    a response, [ZOK] (set in [Response], outside the files at hand); only
    the sub-responses are given an error. *)
Definition error_batch (code : Error) (request_size : nat) : MultiResponse :=
  mkMultiResponse ZOK (repeat (ZooKeeperErrorResponse code) request_size).

(** [request_size] and [path] are locals; the lambda reads them through
    [[&]]. *)
Definition asyncTryMultiNoThrow {L} (ops : Requests) : M L (async MultiResponse) :=
  let request_size := length ops in
  let path := front_path ops in
  returning_future
    (failed <- null_or_before_fires ;;
     if failed
     then LOG_TRACE (fun seed =>
            injected_fault_before seed "asyncTryMultiNoThrow" path) ;;;
          assign (set_value (error_batch ZSESSIONEXPIRED request_size)) ;;;
          ret None
     else
       keeper_call (impl_multi ops) ;;;
       ret (Some (fun now response =>
         fired <- with_policy false afterOperationNoThrow ;;
         if fired
         then LOG_TRACE_local now path
                (fun seed path =>
                   injected_fault_after seed "asyncTryMultiNoThrow" path) ;;;
              request_size <- local now request_size ;;
              assign (set_value (error_batch ZOPERATIONTIMEOUT request_size))
         else assign (set_value response)))).

(** Nothing is logged on this path. *)
Definition asyncTryCreateNoThrow {L} (path data : string) (mode : Z)
  : M L (async Response) :=
  returning_future
    (failed <- null_or_before_fires ;;
     if failed
     then assign (set_value (CreateResponse ZSESSIONEXPIRED "")) ;;;
          ret None
     else
       keeper_call (impl_create path data
                      (negb (Z.land mode 1 =? 0)) (negb (Z.land mode 2 =? 0))) ;;;
       ret (Some (fun _ response =>
         fired <- with_policy false afterOperationNoThrow ;;
         if fired
         then assign (set_value (CreateResponse ZOPERATIONTIMEOUT ""))
         else assign (set_value response)))).

End Proxy.

Arguments State K : clear implicits.
Arguments M K L A : clear implicits.
Arguments async K A : clear implicits.
Arguments mkAsync {K A} future callback.
Arguments future {K A} a.
Arguments callback {K A} a.

(** ** Construction *)

(** [createInstance].  The probability is a [double] in the source; only its
    comparisons with [0.0] and [1.0] matter here and are taken on the
    rationals.  [randomSeed ()] and the Bernoulli source the generator and the
    distribution make for a probability and a seed are inputs. *)
Definition Qlt_bool (a b : Q) : bool := negb (Qle_bool b a).

Definition createInstance (randomSeed : Z) (bernoulli : Q -> Z -> nat -> bool)
  (fault_injection_probability : Q) (fault_injection_seed : Z)
  (zookeeper : option KeeperId) (name : string) (logger : bool)
  : ZooKeeperWithFaultInjection :=
  let fault_injection_probability :=
    if Qlt_bool fault_injection_probability 0 then 0%Q
    else if Qlt_bool 1 fault_injection_probability then 1%Q
    else fault_injection_probability in
  let fault_injection_seed :=
    if fault_injection_seed =? 0 then randomSeed else fault_injection_seed in
  if Qlt_bool 0 fault_injection_probability
  then mkProxy zookeeper None
         (Some (mkRandomFaultInjection false false 0%nat
                  (bernoulli fault_injection_probability fault_injection_seed)))
         name logger fault_injection_seed []
  else
    (* if no fault injection provided, create instance which will not log anything *)
    mkProxy zookeeper None None "" false 0 [].

Notation "x <- m ;; k" := (bind m (fun x => k))
  (at level 61, m at next level, right associativity).
Notation "m ;;; k" := (bind m (fun _ => k))
  (at level 61, right associativity).

(** ** A small coordination service

    The proxy is verified against every client ([exec] above is arbitrary).
    To run it on concrete inputs, here is one: a flat store of node paths,
    some paths protected by an ACL, behind a connection that may be lost.
    Its [try] calls return the recoverable codes of their operation and throw
    the others, as the calls of [zkutil::ZooKeeper] do. *)
Module InMemory.

Record Service : Type := mkService {
  nodes : list string;
  denied : list string;
  online : bool }.

Definition has (p : string) (ps : list string) : bool :=
  existsb (String.eqb p) ps.

Definition without (p : string) (ps : list string) : list string :=
  filter (fun q => negb (String.eqb p q)) ps.

Definition with_nodes (ns : list string) (srv : Service) : Service :=
  mkService ns (denied srv) (online srv).

(** One sub-request of a transaction on the node list. *)
Definition apply_request (srv : Service) (ns : list string) (r : Request)
  : Error + (list string * Response) :=
  match r with
  | CreateRequest p _ _ _ =>
      if has p (denied srv) then inl ZNOAUTH
      else if has p ns then inl ZNODEEXISTS
      else inr ((ns ++ [p])%list, CreateResponse ZOK p)
  | RemoveRequest p _ =>
      if has p (denied srv) then inl ZNOAUTH
      else if has p ns then inr (without p ns, RemoveResponse ZOK)
      else inl ZNONODE
  | SetRequest p _ _ =>
      if has p ns then inr (ns, SetResponse ZOK) else inl ZNONODE
  | CheckRequest p _ =>
      if has p ns then inr (ns, CheckResponse ZOK) else inl ZNONODE
  end.

(** All or nothing: the first failing sub-request fails the batch. *)
Fixpoint apply_batch (srv : Service) (ns : list string) (rs : Requests)
  : Error + (list string * Responses) :=
  match rs with
  | [] => inr (ns, [])
  | r :: rest =>
      match apply_request srv ns r with
      | inl e => inl e
      | inr (ns', resp) =>
          match apply_batch srv ns' rest with
          | inl e => inl e
          | inr (ns'', resps) => inr (ns'', resp :: resps)
          end
      end
  end.

Definition lost {A} : outcome A := Throw (KeeperException ZCONNECTIONLOSS "").

Definition offline_reply (c : Call) : outcome (Reply c) :=
  match c with
  | zk_tryMultiNoThrow _ => Return (ZCONNECTIONLOSS, [])
  | zk_expired => Return true
  | _ => lost
  end.

Definition online_reply (c : Call) (srv : Service) : outcome (Reply c) * Service :=
  match c return outcome (Reply c) * Service with
  | zk_getChildren _ | zk_getChildrenWatch _ => (Return [], srv)
  | zk_tryGetChildren p | zk_tryGetChildrenWatch p =>
      (Return (if has p (nodes srv) then ZOK else ZNONODE, []), srv)
  | zk_tryGet p | zk_tryGetWatch p => (Return (has p (nodes srv), ""), srv)
  | zk_get p | zk_sync p =>
      (if has p (nodes srv) then Return "" else Throw (KeeperException ZNONODE p), srv)
  | zk_set p _ _ =>
      (if has p (nodes srv) then Return tt else Throw (KeeperException ZNONODE p), srv)
  | zk_exists p => (Return (has p (nodes srv)), srv)
  | zk_tryCreate p _ _ =>
      if has p (denied srv) then (Throw (KeeperException ZNOAUTH p), srv)
      else if has p (nodes srv) then (Return (ZNODEEXISTS, ""), srv)
      else (Return (ZOK, p), with_nodes (nodes srv ++ [p])%list srv)
  | zk_remove p _ =>
      if has p (denied srv) then (Throw (KeeperException ZNOAUTH p), srv)
      else if has p (nodes srv) then (Return tt, with_nodes (without p (nodes srv)) srv)
      else (Throw (KeeperException ZNONODE p), srv)
  | zk_tryRemove p _ =>
      if has p (denied srv) then (Throw (KeeperException ZNOAUTH p), srv)
      else if has p (nodes srv) then (Return ZOK, with_nodes (without p (nodes srv)) srv)
      else (Return ZNONODE, srv)
  | zk_trySet p _ _ =>
      if has p (denied srv) then (Throw (KeeperException ZNOAUTH p), srv)
      else (Return (if has p (nodes srv) then ZOK else ZNONODE), srv)
  | zk_multi rs =>
      match apply_batch srv (nodes srv) rs with
      | inl e => (Throw (KeeperException e (front_path rs)), srv)
      | inr (ns, resps) => (Return resps, with_nodes ns srv)
      end
  | zk_tryMulti rs =>
      match apply_batch srv (nodes srv) rs with
      | inl e => if isUserError e then (Return (e, []), srv)
                 else (Throw (KeeperException e (front_path rs)), srv)
      | inr (ns, resps) => (Return (ZOK, resps), with_nodes ns srv)
      end
  | zk_tryMultiNoThrow rs =>
      match apply_batch srv (nodes srv) rs with
      | inl e => (Return (e, []), srv)
      | inr (ns, resps) => (Return (ZOK, resps), with_nodes ns srv)
      end
  | zk_tryRemoveChildrenRecursive _ _ | zk_waitForDisappear _
  | zk_isFeatureEnabled _ => (Return true, srv)
  | zk_expired => (Return false, srv)
  | zk_checkExistsAndGetCreateAncestorsOps _ => (Return [], srv)
  | zk_createOrUpdate _ _ _ | zk_createAncestors _ | zk_removeRecursive _
  | zk_tryRemoveRecursive _ | zk_removeChildren _
  | zk_deleteEphemeralNodeIfContentMatches _ _
  | impl_exists _ _ | impl_get _ | impl_remove _ _ | impl_multi _
  | impl_create _ _ _ _ => (Return tt, srv)
  end.

Definition exec (c : Call) (k : KeeperId) (srv : Service)
  : outcome (Reply c) * Service :=
  if online srv then online_reply c srv else (offline_reply c, srv).

(** A crafted client: it answers every call with an empty reply (no
    responses for a transaction) and leaves the service alone. *)
Definition crafted (c : Call) (k : KeeperId) (srv : Service)
  : outcome (Reply c) * Service :=
  (match c return outcome (Reply c) with
   | zk_getChildren _ | zk_getChildrenWatch _ => Return []
   | zk_tryGetChildren _ | zk_tryGetChildrenWatch _ => Return (ZOK, [])
   | zk_tryGet _ | zk_tryGetWatch _ => Return (true, "")
   | zk_tryMulti _ | zk_tryMultiNoThrow _ => Return (ZOK, [])
   | zk_get _ | zk_sync _ => Return ""
   | zk_tryCreate _ _ _ => Return (ZOK, "")
   | zk_multi _ => Return []
   | zk_tryRemove _ _ | zk_trySet _ _ _ => Return ZOK
   | zk_exists _ | zk_tryRemoveChildrenRecursive _ _ | zk_waitForDisappear _
   | zk_isFeatureEnabled _ | zk_expired => Return false
   | zk_checkExistsAndGetCreateAncestorsOps _ => Return []
   | zk_set _ _ _ | zk_remove _ _ | zk_createOrUpdate _ _ _
   | zk_createAncestors _ | zk_removeRecursive _ | zk_tryRemoveRecursive _
   | zk_removeChildren _ | zk_deleteEphemeralNodeIfContentMatches _ _
   | impl_exists _ _ | impl_get _ | impl_remove _ _ | impl_multi _
   | impl_create _ _ _ _ => Return tt
   end, srv).

Definition empty : Service := mkService [] [] true.

(** A proxy with a fault policy that never draws a failure. *)
Definition quiet : RandomFaultInjection :=
  mkRandomFaultInjection false false 0%nat (fun _ => false).

Definition proxy (k : option KeeperId) (fp : option RandomFaultInjection)
  : ZooKeeperWithFaultInjection :=
  mkProxy k None fp "test" true 42 [].

Definition start (o : ZooKeeperWithFaultInjection) (srv : Service) : State Service :=
  mkState o srv [] [].

End InMemory.

(** ** Vocabulary of the statements *)

(** Concrete policies: a forced failure before, a forced
    failure after, on a source that never draws a failure by itself. *)
Definition forced_before : RandomFaultInjection :=
  mkRandomFaultInjection false true 0%nat (fun _ => false).

Definition forced_after : RandomFaultInjection :=
  mkRandomFaultInjection true false 0%nat (fun _ => false).

(** The decision of a checkpoint: the draw, or else the override. *)
Definition fires_before (fp : RandomFaultInjection) : bool :=
  distribution fp (rndgen fp) || must_fail_before_op fp.

Definition fires_after (fp : RandomFaultInjection) : bool :=
  distribution fp (rndgen fp) || must_fail_after_op fp.

(** The policy after a before-decision, whatever it decided: one more draw
    made, the before-override off. *)
Definition decided_before (fp : RandomFaultInjection) : RandomFaultInjection :=
  mkRandomFaultInjection (must_fail_after_op fp) false (S (rndgen fp)) (distribution fp).

Definition decided_after (fp : RandomFaultInjection) : RandomFaultInjection :=
  mkRandomFaultInjection false (must_fail_before_op fp) (S (rndgen fp)) (distribution fp).

(** What the checkpoints of a proxy decide in a state, and the state they
    leave: without a policy nothing is drawn and nothing fires. *)
Definition before_fires {K} (s : State K) : bool :=
  match fault_policy s with
  | Some fp => fires_before fp
  | None => false
  end.

Definition after_fires {K} (s : State K) : bool :=
  match fault_policy s with
  | Some fp => fires_after fp
  | None => false
  end.

Definition drew_before {K} (s : State K) : State K :=
  match fault_policy s with
  | Some fp => set_fault_policy (Some (decided_before fp)) s
  | None => s
  end.

Definition drew_after {K} (s : State K) : State K :=
  match fault_policy s with
  | Some fp => set_fault_policy (Some (decided_after fp)) s
  | None => s
  end.

(** The state the catch block of [access] leaves for a caught
    [KeeperException]: the line logged when there is a logger, the current
    client remembered as the previous one when there is a client. *)
Definition noted {K} (func_name path : string) (code : Error) (message : string)
  (s : State K) : State K :=
  let s1 := if logger s then logged (call_FAILED (seed s) func_name path code message) s
            else s in
  match keeper s1 with
  | Some k => set_keeper_prev (Some k) s1
  | None => s1
  end.

(** How the catch block of [access] surfaces a caught [KeeperException]. *)
Definition surfaced {R} (rt : ResultType R) (no_throw_access : bool)
  (code : Error) (message : string) : outcome R :=
  match rt with
  | is_Error _ of_code =>
      if no_throw_access then Return (of_code code)
      else if isHardwareError code then Throw (KeeperException code message)
      else Return (of_code code)
  | is_other => Throw (KeeperException code message)
  end.

(** The state in which the operation starts when the before-checkpoint is
    off or does not fire, and the state an after-checkpoint that is off or
    does not fire leaves. *)
Definition entered {K} (inject_failure_before_op : bool) (s : State K) : State K :=
  if inject_failure_before_op then drew_before s else s.

Definition left {K} (inject_failure_after_op : bool) (s : State K) : State K :=
  if inject_failure_after_op then drew_after s else s.

(** SessionExpired "thrown or returned per contract": returned by the
    no-throw form of an operation whose result is the error code, thrown by
    every other form (SessionExpired is a hardware error). *)
Definition SessionExpired_per_contract {R} (rt : ResultType R)
  (no_throw_access : bool) (message : string) : outcome R :=
  match rt with
  | is_Error _ of_code =>
      if no_throw_access then Return (of_code ZSESSIONEXPIRED)
      else Throw (KeeperException ZSESSIONEXPIRED message)
  | is_other => Throw (KeeperException ZSESSIONEXPIRED message)
  end.

(** Concrete inputs: the client [0], a service that lost its connection, a
    service holding the ACL-protected node "/acl", and small batches. *)
Definition client0 : option KeeperId := Some 0%nat.


Definition guarded : InMemory.Service := InMemory.mkService ["/acl"] ["/acl"] true.

Definition one_ephemeral : Requests := [CreateRequest "/a" "" true false].

(** The proxy [createInstance] builds for probability 0 (a source that would
    fail every draw is never consulted), and a running state of it. *)
Definition zero_probability_proxy : ZooKeeperWithFaultInjection :=
  createInstance 7 (fun _ _ _ => true) 0%Q 5 client0 "zk" true.

(** What the callback of an asynchronous call makes of a response that
    arrives in state [s] (the promise still pending) while the call is in
    progress, so that what the callback captured is there; and what it makes
    of it after the call returned, when it comes to an end at all. *)
Definition completed {K A} (r : outcome (async K A) * unit * State K)
  (response : A) : promise A :=
  match r with
  | (Return a, _, s) =>
      match callback a with
      | Some cb => snd (fst (cb during_the_call response pending s))
      | None => future a
      end
  | (Throw _, _, _) => pending
  end.

Definition completed_later {K A} (r : outcome (async K A) * unit * State K)
  (response : A) : option (promise A) :=
  match r with
  | (Return a, _, s) =>
      match callback a with
      | Some cb =>
          match cb after_the_return response pending s with
          | (Return _, p, _) => Some p
          | (Throw _, _, _) => None
          end
      | None => Some (future a)
      end
  | (Throw _, _, _) => None
  end.

(** The paths a committed batch created for its ephemeral create requests,
    in request order. *)
Fixpoint created_paths (requests : Requests) (responses : Responses) : list string :=
  match requests, responses with
  | CreateRequest _ _ true _ :: requests', CreateResponse _ path_created :: responses' =>
      path_created :: created_paths requests' responses'
  | _ :: requests', _ :: responses' => created_paths requests' responses'
  | _, _ => []
  end.

(** The responses answer the requests one for one, a create response for
    every ephemeral create request. *)
Fixpoint answers (requests : Requests) (responses : Responses) : bool :=
  match requests, responses with
  | [], [] => true
  | CreateRequest _ _ true _ :: requests', CreateResponse _ _ :: responses' =>
      answers requests' responses'
  | CreateRequest _ _ true _ :: _, _ :: _ => false
  | _ :: requests', _ :: responses' => answers requests' responses'
  | _, _ => false
  end.

(** Every one of the removes, issued in order, returns normally; the service
    they leave. *)
Fixpoint removed_all {K} (exec : forall c : Call, KeeperId -> K -> outcome (Reply c) * K)
  (k : KeeperId) (paths : list string) (srv : K) : option K :=
  match paths with
  | [] => Some srv
  | p :: rest =>
      match exec (zk_remove p (-1)) k srv with
      | (Return _, srv') => removed_all exec k rest srv'
      | (Throw _, _) => None
      end
  end.

(** The state after the client [k] received the calls [cs], leaving the
    service [srv]. *)
Definition received_all {K} (k : KeeperId) (cs : list Call) (srv : K) (s : State K)
  : State K :=
  mkState s srv (calls s ++ map (pair k) cs) (log s).

(** A committed batch that creates "/a", removes it again and creates
    "/b"; and one that keeps both. *)
Definition create_remove_create : Requests :=
  [CreateRequest "/a" "" true false; RemoveRequest "/a" (-1);
   CreateRequest "/b" "" true false].

Definition create_set_create : Requests :=
  [CreateRequest "/a" "" true false; SetRequest "/a" "x" (-1);
   CreateRequest "/b" "" true false].

(** The proxy on the empty service, with a failure forced after (before)
    the next operation. *)
Definition failing_after : State InMemory.Service :=
  InMemory.start (InMemory.proxy client0 (Some forced_after)) InMemory.empty.

Definition failing_before : State InMemory.Service :=
  InMemory.start (InMemory.proxy client0 (Some forced_before)) InMemory.empty.

(** An asynchronous operation is blocked before its request when the client
    is null or the before-checkpoint fires; the message of the synthetic
    error, and the state the blocked call leaves (one draw unless the client
    is null, one line when there is a logger and the operation logs). *)
Definition blocked {K} (s : State K) : bool :=
  match keeper s with
  | None => true
  | Some _ => before_fires s
  end.

Definition blocked_message {K} (s : State K) : string :=
  match keeper s with
  | None => "Session is considered to be expired due to fault injection"
  | Some _ => "Fault injection before operation"
  end.

Definition blocked_silently {K} (s : State K) : State K :=
  match keeper s with
  | None => s
  | Some _ => drew_before s
  end.

Definition blocked_state {K} (func path : string) (s : State K) : State K :=
  if logger s
  then logged (injected_fault_before (seed s) func path) (blocked_silently s)
  else blocked_silently s.

(** The flush of the tracked paths against the previous client [prev]: the
    service the removes leave, and the lines written for those that threw
    (when there is a logger).  Without a previous client nothing is issued. *)
Fixpoint flushed {K} (exec : forall c : Call, KeeperId -> K -> outcome (Reply c) * K)
  (prev : option KeeperId) (logs : bool) (paths : list string) (srv : K)
  : K * list LogLine :=
  match paths, prev with
  | [], _ | _, None => (srv, [])
  | p :: rest, Some k =>
      let (r, srv1) := exec (zk_tryRemove p (-1)) k srv in
      let (srv2, lines) := flushed exec prev logs rest srv1 in
      (srv2,
       match r with
       | Throw e => if logs then exception_during_clean_up e :: lines else lines
       | Return _ => lines
       end)
  end.

(** The removes a flush issues. *)
Definition flush_calls (prev : option KeeperId) (paths : list string)
  : list (KeeperId * Call) :=
  match prev with
  | Some k => map (fun p => (k, zk_tryRemove p (-1))) paths
  | None => []
  end.

(** A proxy that tracks "/a" and has never seen an operation fail: there is
    no previous client. *)
Definition tracking_without_previous : State InMemory.Service :=
  mkState (mkProxy client0 None (Some InMemory.quiet) "test" true 42 ["/a"])
    (InMemory.mkService ["/a"] [] true) [] [].

(** The synthetic error of the after-checkpoint. *)
Definition OperationTimeout : exception :=
  KeeperException ZOPERATIONTIMEOUT "Fault injection after operation".

(** The state in which [access] leaves a real call of the client [k] that
    returned, between the two checkpoints of a proxy whose policy was [fp]:
    the before-decision made, the call received. *)
Definition called {K} (k : KeeperId) (c : Call) (srv : K)
  (fp : RandomFaultInjection) (s : State K) : State K :=
  received k c srv (set_fault_policy (Some (decided_before fp)) s).

(** ... and after the after-decision. *)
Definition decided {K} (fp : RandomFaultInjection) (s : State K) : State K :=
  set_fault_policy (Some (decided_after (decided_before fp))) s.


(** The state after the paths were added to the tracker, which happens only
    on a proxy with a policy. *)
Definition tracked {K} (paths : list string) (s : State K) : State K :=
  match fault_policy s with
  | Some _ => set_ephemeral_nodes (ephemeral_nodes s ++ paths) s
  | None => s
  end.

(** The proxy on the empty service, with a policy that never fires. *)
Definition running : State InMemory.Service :=
  InMemory.start (InMemory.proxy client0 (Some InMemory.quiet)) InMemory.empty.

(** A computation that leaves the two client references of the proxy as
    they are (the real calls do: they act on the service). *)
Definition keeps_clients {K L A} (m : M K L A) : Prop :=
  forall (l : L) (s : State K),
    keeper (snd (m l s)) = keeper s /\ keeper_prev (snd (m l s)) = keeper_prev s.

(** * MergeTreeIndexGranularityConstant: marks of constant granularity

    Shallow embedding of
    [src/Storages/MergeTree/MergeTreeIndexGranularityConstant.cpp].

    A [size_t] is an unsigned 64-bit integer: a [Z] in [0, 2^64), every
    arithmetic operation reduced modulo 2^64.  The member functions that only
    read are functions of the object; [appendMark] and [adjustLastMark]
    return the object they leave.  The numbers formatted into the text of an
    exception are left as the placeholders of its format string.  Unsigned division by zero is
    undefined in C++; it is represented by an exception of its own. *)

Module MergeTreeIndexGranularityConstant.

Definition modulus : Z := 18446744073709551616.

Definition wrap (z : Z) : Z := z mod modulus.

Definition is_size_t (z : Z) : Prop := 0 <= z < modulus.

Record t : Type := mk {
  constant_granularity : Z;
  last_mark_granularity : Z;
  num_marks_without_final : Z;
  has_final_mark : bool }.

Definition divide (a b : Z) : outcome Z :=
  if b =? 0 then Throw (std_exception "division by zero") else Return (a / b).

Definition getMarksCount (g : t) : Z :=
  wrap (num_marks_without_final g + (if has_final_mark g then 1 else 0)).

(** Rows after mark to next mark. *)
Definition getMarkRows (g : t) (mark_index : Z) : outcome Z :=
  if getMarksCount g <=? mark_index
  then Throw (LOGICAL_ERROR "Trying to get non existing mark {}, while size is {}")
  else if wrap (mark_index + 1) <? num_marks_without_final g
  then Return (constant_granularity g)
  else if wrap (mark_index + 1) =? num_marks_without_final g
  then Return (last_mark_granularity g)
  else Return 0.

Definition getMarkStartingRow (g : t) (mark_index : Z) : outcome Z :=
  if getMarksCount g <? mark_index
  then Throw (LOGICAL_ERROR "Trying to get non existing mark {}, while size is {}")
  else
    let total_rows := 0 in
    let '(total_rows, mark_index) :=
      if (num_marks_without_final g <=? mark_index) && negb (mark_index =? 0)
      then (wrap (total_rows + last_mark_granularity g),
            wrap (num_marks_without_final g - 1))
      else (total_rows, mark_index) in
    Return (wrap (total_rows + wrap (constant_granularity g * mark_index))).

Definition getTotalRows (g : t) : Z :=
  if num_marks_without_final g =? 0 then 0
  else wrap (wrap (constant_granularity g * wrap (num_marks_without_final g - 1))
             + last_mark_granularity g).

Definition appendMark (rows_count : Z) (g : t) : outcome unit * t :=
  if has_final_mark g
  then (Throw (LOGICAL_ERROR "Cannot append mark after final"), g)
  else if rows_count =? 0
  then (Return tt,
        mk (constant_granularity g) (last_mark_granularity g)
          (num_marks_without_final g) true)
  else if negb (rows_count =? constant_granularity g)
  then (Throw (LOGICAL_ERROR
                 "Cannot append mark with {} rows. Granularity is constant ({})"), g)
  else (Return tt,
        mk (constant_granularity g) (last_mark_granularity g)
          (wrap (num_marks_without_final g + 1)) (has_final_mark g)).

Definition adjustLastMark (rows_count : Z) (g : t) : outcome unit * t :=
  if has_final_mark g
  then (Throw (LOGICAL_ERROR "Cannot adjust final mark"), g)
  else
    let num_marks_without_final' :=
      if num_marks_without_final g =? 0
      then wrap (num_marks_without_final g + 1)
      else num_marks_without_final g in
    (Return tt,
     mk (constant_granularity g) rows_count num_marks_without_final'
       (has_final_mark g)).

Definition getRowsCountInRange (g : t) (begin_ end_ : Z) : Z :=
  let total_rows := 0 in
  let '(total_rows, end_) :=
    if (num_marks_without_final g <=? end_) && negb (end_ =? 0)
    then (wrap (total_rows + last_mark_granularity g),
          wrap (num_marks_without_final g - 1))
    else (total_rows, end_) in
  wrap (total_rows + wrap (constant_granularity g * wrap (end_ - begin_))).

Definition countMarksForRows (g : t) (from_mark number_of_rows : Z) : outcome Z :=
  match getMarkStartingRow g from_mark with
  | Throw e => Throw e
  | Return rows_before_mark =>
      let last_row_pos := wrap (rows_before_mark + number_of_rows) in
      if wrap (wrap (num_marks_without_final g - 1) * constant_granularity g)
         <=? last_row_pos
      then Return (wrap (num_marks_without_final g - from_mark))
      else
        match divide (wrap (wrap (last_row_pos + constant_granularity g) - 1))
                (constant_granularity g) with
        | Throw e => Throw e
        | Return q => Return (wrap (q - from_mark))
        end
  end.

Definition countRowsForRows (g : t) (from_mark number_of_rows offset_in_rows : Z)
  : Z := 0.

(** The object is made of [size_t] fields. *)
Definition well_typed (g : t) : Prop :=
  is_size_t (constant_granularity g)
  /\ is_size_t (last_mark_granularity g)
  /\ is_size_t (num_marks_without_final g).

(** The arithmetic on the rows of the object does not wrap around: as many
    marks of the constant granularity as there are marks, and the last mark,
    fit a [size_t], and so does the count of marks with the final one. *)
Definition fits (g : t) : Prop :=
  constant_granularity g * num_marks_without_final g + last_mark_granularity g
  < modulus
  /\ num_marks_without_final g + 1 < modulus.

(** Before the first mark the granularity of the last mark is the constant
    one (as [adjustLastMark] alone changes it, and adds a first mark when it
    does). *)
Definition last_mark_is_a_mark (g : t) : Prop :=
  num_marks_without_final g = 0 ->
  last_mark_granularity g = constant_granularity g.

End MergeTreeIndexGranularityConstant.

(** * Properties *)

(** ** The fault policy *)

Lemma beforeOperationNoThrow_eq (fp : RandomFaultInjection) :
  beforeOperationNoThrow fp = (fires_before fp, decided_before fp).
Proof.
  unfold beforeOperationNoThrow, fires_before, decided_before, draw, clear_before.
  cbn. destruct (distribution fp (rndgen fp)); cbn; [reflexivity|].
  destruct (must_fail_before_op fp); reflexivity.
Qed.

Lemma afterOperationNoThrow_eq (fp : RandomFaultInjection) :
  afterOperationNoThrow fp = (fires_after fp, decided_after fp).
Proof.
  unfold afterOperationNoThrow, fires_after, decided_after, draw, clear_after.
  cbn. destruct (distribution fp (rndgen fp)); cbn; [reflexivity|].
  destruct (must_fail_after_op fp); reflexivity.
Qed.

Lemma beforeOperation_eq (fp : RandomFaultInjection) :
  beforeOperation fp =
  (if fires_before fp
   then Throw (fromMessage ZSESSIONEXPIRED "Fault injection before operation")
   else Return tt,
   decided_before fp).
Proof.
  unfold beforeOperation, fires_before, decided_before, draw, clear_before.
  cbn. destruct (distribution fp (rndgen fp)); cbn; [reflexivity|].
  destruct (must_fail_before_op fp); reflexivity.
Qed.

Lemma afterOperation_eq (fp : RandomFaultInjection) :
  afterOperation fp =
  (if fires_after fp
   then Throw (fromMessage ZOPERATIONTIMEOUT "Fault injection after operation")
   else Return tt,
   decided_after fp).
Proof.
  unfold afterOperation, fires_after, decided_after, draw, clear_after.
  cbn. destruct (distribution fp (rndgen fp)); cbn; [reflexivity|].
  destruct (must_fail_after_op fp); reflexivity.
Qed.

(** C7, as the code has it.  Each of the four decisions makes exactly one
    draw whether or not its override is set ([rndgen] goes up by one in
    every case); it fails when the draw or the override says so, and only
    then: the NoThrow forms return whether they fail, [beforeOperation]
    throws SessionExpired and [afterOperation] throws OperationTimeout when
    they fail and return otherwise; afterwards its own override is off and
    the other one is as it was. *)
Theorem decision_always_draws (fp : RandomFaultInjection) :
  beforeOperationNoThrow fp
  = (distribution fp (rndgen fp) || must_fail_before_op fp, decided_before fp)
  /\ afterOperationNoThrow fp
     = (distribution fp (rndgen fp) || must_fail_after_op fp, decided_after fp)
  /\ beforeOperation fp
     = (if distribution fp (rndgen fp) || must_fail_before_op fp
        then Throw (KeeperException ZSESSIONEXPIRED "Fault injection before operation")
        else Return tt,
        decided_before fp)
  /\ afterOperation fp
     = (if distribution fp (rndgen fp) || must_fail_after_op fp
        then Throw (KeeperException ZOPERATIONTIMEOUT "Fault injection after operation")
        else Return tt,
        decided_after fp)
  /\ rndgen (decided_before fp) = S (rndgen fp)
  /\ rndgen (decided_after fp) = S (rndgen fp)
  /\ must_fail_before_op (decided_before fp) = false
  /\ must_fail_after_op (decided_after fp) = false
  /\ must_fail_after_op (decided_before fp) = must_fail_after_op fp
  /\ must_fail_before_op (decided_after fp) = must_fail_before_op fp.
Proof.
  rewrite beforeOperationNoThrow_eq, afterOperationNoThrow_eq,
    beforeOperation_eq, afterOperation_eq.
  repeat split.
Qed.

(** C7 as stated fails: with the before-override set, the decision still
    advances the generator (and likewise with the after-override). *)
Lemma override_does_not_save_the_draw :
  must_fail_before_op forced_before = true
  /\ rndgen forced_before = 0%nat
  /\ rndgen (snd (beforeOperationNoThrow forced_before)) = 1%nat
  /\ must_fail_after_op forced_after = true
  /\ rndgen (snd (afterOperation forced_after)) = 1%nat.
Proof. repeat split. Qed.

(** ** The execution core *)

Section AccessCore.

Context {K L : Type}.

Lemma try_catch_caught {A} (body : M K L A) (h : Error -> string -> M K L A)
  (code : Error) (message : string) (l l' : L) (s s' : State K) :
  body l s = (Throw (KeeperException code message), l', s') ->
  try_catch body (catch_KeeperException h) l s = h code message l' s'.
Proof. intros H. unfold try_catch. rewrite H. reflexivity. Qed.

Lemma try_catch_returned {A} (body : M K L A) (h : exception -> option (M K L A))
  (a : A) (l l' : L) (s s' : State K) :
  body l s = (Return a, l', s') ->
  try_catch body h l s = (Return a, l', s').
Proof. intros H. unfold try_catch. rewrite H. reflexivity. Qed.

Lemma try_catch_escaped {A} (body : M K L A) (h : Error -> string -> M K L A)
  (e : exception) (l l' : L) (s s' : State K) :
  body l s = (Throw e, l', s') ->
  (forall code message, e <> KeeperException code message) ->
  try_catch body (catch_KeeperException h) l s = (Throw e, l', s').
Proof.
  intros H Hne. unfold try_catch. rewrite H.
  destruct e; try reflexivity. exfalso. apply (Hne code message). reflexivity.
Qed.

Lemma bind_returned {A B} (m : M K L A) (f : A -> M K L B)
  (a : A) (l l' : L) (s s' : State K) :
  m l s = (Return a, l', s') -> bind m f l s = f a l' s'.
Proof. intros H. unfold bind. rewrite H. reflexivity. Qed.

Lemma bind_thrown {A B} (m : M K L A) (f : A -> M K L B)
  (e : exception) (l l' : L) (s s' : State K) :
  m l s = (Throw e, l', s') -> bind m f l s = (Throw e, l', s').
Proof. intros H. unfold bind. rewrite H. reflexivity. Qed.

Lemma faultInjectionBefore_passes (c : M K L unit) (l : L) (s : State K) :
  before_fires s = false ->
  faultInjectionBefore c l s = (Return tt, l, drew_before s).
Proof.
  unfold before_fires, drew_before, faultInjectionBefore, try_catch, bind, with_policy.
  destruct (fault_policy s) as [fp|]; [|reflexivity].
  rewrite beforeOperation_eq. intros ->. reflexivity.
Qed.

Lemma faultInjectionBefore_fires (c : M K L unit) (l : L) (s : State K) :
  before_fires s = true ->
  faultInjectionBefore c l s =
  match c l (drew_before s) with
  | (Return _, l', s') =>
      (Throw (KeeperException ZSESSIONEXPIRED "Fault injection before operation"),
       l', s')
  | (Throw e, l', s') => (Throw e, l', s')
  end.
Proof.
  unfold before_fires, drew_before, faultInjectionBefore, try_catch, bind, with_policy.
  destruct (fault_policy s) as [fp|]; [|discriminate].
  rewrite beforeOperation_eq. intros ->. cbn.
  destruct (c l _) as [[[a|e] l'] s']; reflexivity.
Qed.

Lemma faultInjectionAfter_passes (c : M K L unit) (l : L) (s : State K) :
  after_fires s = false ->
  faultInjectionAfter c l s = (Return tt, l, drew_after s).
Proof.
  unfold after_fires, drew_after, faultInjectionAfter, try_catch, bind, with_policy.
  destruct (fault_policy s) as [fp|]; [|reflexivity].
  rewrite afterOperation_eq. intros ->. reflexivity.
Qed.

Lemma faultInjectionAfter_fires (c : M K L unit) (l : L) (s : State K) :
  after_fires s = true ->
  faultInjectionAfter c l s =
  match c l (drew_after s) with
  | (Return _, l', s') =>
      (Throw (KeeperException ZOPERATIONTIMEOUT "Fault injection after operation"),
       l', s')
  | (Throw e, l', s') => (Throw e, l', s')
  end.
Proof.
  unfold after_fires, drew_after, faultInjectionAfter, try_catch, bind, with_policy.
  destruct (fault_policy s) as [fp|]; [|discriminate].
  rewrite afterOperation_eq. intros ->. cbn.
  destruct (c l _) as [[[a|e] l'] s']; reflexivity.
Qed.

Context {R : Type}.
Variable rt : ResultType R.
Variables no_throw_access inject_failure_before_op inject_failure_after_op : bool.
Variables func_name path : string.
Variable operation : M K L R.
Variable fault_after_op_cleanup : option (R -> M K L unit).
Variable fault_before_op_cleanup : option (M K L unit).

Let run := access rt no_throw_access inject_failure_before_op
             inject_failure_after_op func_name path operation
             fault_after_op_cleanup fault_before_op_cleanup.

(** What the catch block does with a caught [KeeperException]. *)
Lemma access_handler (code : Error) (message : string) (l : L) (s : State K) :
  (LOG_TRACE (fun seed => call_FAILED seed func_name path code message) ;;;
   modify (fun s => match keeper s with
                    | Some k => set_keeper_prev (Some k) s
                    | None => s
                    end) ;;;
   match rt with
   | is_Error _ of_code =>
       if no_throw_access then ret (of_code code)
       else if isHardwareError code then throw (KeeperException code message)
       else ret (of_code code)
   | is_other => throw (KeeperException code message)
   end) l s
  = (surfaced rt no_throw_access code message, l, noted func_name path code message s).
Proof.
  unfold bind, LOG_TRACE, modify, surfaced, noted, ret, throw.
  destruct rt as [code_of of_code|]; [|reflexivity].
  destruct no_throw_access; [reflexivity|].
  destruct (isHardwareError code); reflexivity.
Qed.

(** Null client: SessionExpired, nothing else happens. *)
Lemma access_null (l : L) (s : State K) :
  keeper s = None ->
  run l s =
  (surfaced rt no_throw_access ZSESSIONEXPIRED
     "Session is considered to be expired due to fault injection",
   l,
   noted func_name path ZSESSIONEXPIRED
     "Session is considered to be expired due to fault injection" s).
Proof.
  intros Hk. unfold run, access.
  rewrite (try_catch_caught _ _ ZSESSIONEXPIRED
             "Session is considered to be expired due to fault injection" l l s s).
  - apply access_handler.
  - unfold bind, gets. rewrite Hk. reflexivity.
Qed.

(** The before-checkpoint fires: the cleanup callback, then SessionExpired. *)
Lemma access_before_fires (k : KeeperId) (l l1 : L) (s s1 : State K) :
  keeper s = Some k ->
  inject_failure_before_op = true ->
  before_fires s = true ->
  run_cleanup fault_before_op_cleanup l (drew_before s) = (Return tt, l1, s1) ->
  run l s =
  (surfaced rt no_throw_access ZSESSIONEXPIRED "Fault injection before operation",
   l1,
   noted func_name path ZSESSIONEXPIRED "Fault injection before operation" s1).
Proof.
  intros Hk Hib Hf Hc. unfold run, access.
  rewrite (try_catch_caught _ _ ZSESSIONEXPIRED
             "Fault injection before operation" l l1 s s1).
  - apply access_handler.
  - rewrite (bind_returned _ _ (Some k) l l s s)
      by (unfold gets; rewrite Hk; reflexivity).
    rewrite (bind_returned _ _ tt l l s s) by reflexivity.
    apply bind_thrown. rewrite Hib. cbn [when].
    rewrite (faultInjectionBefore_fires _ _ _ Hf), Hc. reflexivity.
Qed.

(** The operation throws a [KeeperException]. *)
Lemma access_operation_throws (k : KeeperId) (code : Error) (message : string)
  (l l2 : L) (s s2 : State K) :
  keeper s = Some k ->
  inject_failure_before_op && before_fires s = false ->
  operation l (entered inject_failure_before_op s)
  = (Throw (KeeperException code message), l2, s2) ->
  run l s =
  (surfaced rt no_throw_access code message, l2,
   noted func_name path code message s2).
Proof.
  intros Hk Hb Ho. unfold run, access.
  rewrite (try_catch_caught _ _ code message l l2 s s2).
  - apply access_handler.
  - rewrite (bind_returned _ _ (Some k) l l s s)
      by (unfold gets; rewrite Hk; reflexivity).
    rewrite (bind_returned _ _ tt l l s s) by reflexivity.
    rewrite (bind_returned _ _ tt l l s (entered inject_failure_before_op s)).
    + apply bind_thrown. exact Ho.
    + unfold entered. destruct inject_failure_before_op; cbn in Hb; cbn [when].
      * apply faultInjectionBefore_passes. exact Hb.
      * reflexivity.
Qed.

(** The steps of [access] up to the call of the operation. *)
Lemma access_enters {B} (k : KeeperId) (rest : M K L B) (l : L) (s : State K) :
  keeper s = Some k ->
  inject_failure_before_op && before_fires s = false ->
  (k' <- gets (fun s => keeper s) ;;
   match k' with
   | None => throw (fromMessage ZSESSIONEXPIRED
                      "Session is considered to be expired due to fault injection")
   | Some _ => ret tt
   end ;;;
   when inject_failure_before_op
     (faultInjectionBefore (run_cleanup fault_before_op_cleanup)) ;;;
   rest) l s
  = rest l (entered inject_failure_before_op s).
Proof.
  intros Hk Hb.
  rewrite (bind_returned _ _ (Some k) l l s s)
    by (unfold gets; rewrite Hk; reflexivity).
  rewrite (bind_returned _ _ tt l l s s) by reflexivity.
  apply (bind_returned _ (fun _ => rest) tt l l s (entered inject_failure_before_op s)).
  unfold entered. destruct inject_failure_before_op; cbn in Hb; cbn [when].
  - apply faultInjectionBefore_passes. exact Hb.
  - reflexivity.
Qed.

(** The operation returns a hardware error code: it is the result, and
    nothing happens after the operation. *)
Lemma access_hardware_result (k : KeeperId) (res : R) (l l2 : L) (s s2 : State K) :
  keeper s = Some k ->
  inject_failure_before_op && before_fires s = false ->
  operation l (entered inject_failure_before_op s) = (Return res, l2, s2) ->
  hardware_result rt res = true ->
  run l s = (Return res, l2, s2).
Proof.
  intros Hk Hb Ho Hh. unfold run, access.
  apply try_catch_returned. rewrite (access_enters k) by assumption.
  rewrite (bind_returned _ _ res l l2 (entered inject_failure_before_op s) s2)
    by exact Ho.
  rewrite Hh. reflexivity.
Qed.

(** The operation returns, no checkpoint fires: the real result. *)
Lemma access_passes (k : KeeperId) (res : R) (l l2 : L) (s s2 : State K) :
  keeper s = Some k ->
  inject_failure_before_op && before_fires s = false ->
  operation l (entered inject_failure_before_op s) = (Return res, l2, s2) ->
  hardware_result rt res = false ->
  inject_failure_after_op && after_fires s2 = false ->
  run l s = (Return res, l2, left inject_failure_after_op s2).
Proof.
  intros Hk Hb Ho Hh Ha. unfold run, access.
  apply try_catch_returned. rewrite (access_enters k) by assumption.
  rewrite (bind_returned _ _ res l l2 (entered inject_failure_before_op s) s2)
    by exact Ho.
  rewrite Hh.
  apply (bind_returned _ (fun _ => ret res) tt l2 l2 s2
           (left inject_failure_after_op s2)).
  unfold left. destruct inject_failure_after_op; cbn in Ha; cbn [when].
  - apply faultInjectionAfter_passes. exact Ha.
  - reflexivity.
Qed.

(** The after-checkpoint fires and the cleanup callback returns:
    OperationTimeout. *)
Lemma access_after_fires (k : KeeperId) (res : R) (l l2 l3 : L) (s s2 s3 : State K) :
  keeper s = Some k ->
  inject_failure_before_op && before_fires s = false ->
  operation l (entered inject_failure_before_op s) = (Return res, l2, s2) ->
  hardware_result rt res = false ->
  inject_failure_after_op = true ->
  after_fires s2 = true ->
  run_cleanup (option_map (fun f => f res) fault_after_op_cleanup) l2 (drew_after s2)
  = (Return tt, l3, s3) ->
  run l s =
  (surfaced rt no_throw_access ZOPERATIONTIMEOUT "Fault injection after operation",
   l3,
   noted func_name path ZOPERATIONTIMEOUT "Fault injection after operation" s3).
Proof.
  intros Hk Hb Ho Hh Hia Ha Hc. unfold run, access.
  rewrite (try_catch_caught _ _ ZOPERATIONTIMEOUT
             "Fault injection after operation" l l3 s s3).
  - apply access_handler.
  - rewrite (access_enters k) by assumption.
    rewrite (bind_returned _ _ res l l2 (entered inject_failure_before_op s) s2)
      by exact Ho.
    rewrite Hh. apply bind_thrown. rewrite Hia. cbn [when].
    rewrite (faultInjectionAfter_fires _ _ _ Ha), Hc. reflexivity.
Qed.

(** The after-checkpoint fires and the cleanup callback throws a
    [KeeperException]: that exception takes the place of OperationTimeout. *)
Lemma access_after_cleanup_throws (k : KeeperId) (res : R) (code : Error)
  (message : string) (l l2 l3 : L) (s s2 s3 : State K) :
  keeper s = Some k ->
  inject_failure_before_op && before_fires s = false ->
  operation l (entered inject_failure_before_op s) = (Return res, l2, s2) ->
  hardware_result rt res = false ->
  inject_failure_after_op = true ->
  after_fires s2 = true ->
  run_cleanup (option_map (fun f => f res) fault_after_op_cleanup) l2 (drew_after s2)
  = (Throw (KeeperException code message), l3, s3) ->
  run l s =
  (surfaced rt no_throw_access code message, l3,
   noted func_name path code message s3).
Proof.
  intros Hk Hb Ho Hh Hia Ha Hc. unfold run, access.
  rewrite (try_catch_caught _ _ code message l l3 s s3).
  - apply access_handler.
  - rewrite (access_enters k) by assumption.
    rewrite (bind_returned _ _ res l l2 (entered inject_failure_before_op s) s2)
      by exact Ho.
    rewrite Hh. apply bind_thrown. rewrite Hia. cbn [when].
    rewrite (faultInjectionAfter_fires _ _ _ Ha), Hc. reflexivity.
Qed.

(** The after-checkpoint fires and the cleanup callback throws something
    that is no [KeeperException]: it escapes [access]. *)
Lemma access_after_cleanup_escapes (k : KeeperId) (res : R) (e : exception)
  (l l2 l3 : L) (s s2 s3 : State K) :
  keeper s = Some k ->
  inject_failure_before_op && before_fires s = false ->
  operation l (entered inject_failure_before_op s) = (Return res, l2, s2) ->
  hardware_result rt res = false ->
  inject_failure_after_op = true ->
  after_fires s2 = true ->
  run_cleanup (option_map (fun f => f res) fault_after_op_cleanup) l2 (drew_after s2)
  = (Throw e, l3, s3) ->
  (forall code message, e <> KeeperException code message) ->
  run l s = (Throw e, l3, s3).
Proof.
  intros Hk Hb Ho Hh Hia Ha Hc Hne. unfold run, access.
  apply try_catch_escaped; [|exact Hne].
  rewrite (access_enters k) by assumption.
  rewrite (bind_returned _ _ res l l2 (entered inject_failure_before_op s) s2)
    by exact Ho.
  rewrite Hh. apply bind_thrown. rewrite Hia. cbn [when].
  rewrite (faultInjectionAfter_fires _ _ _ Ha), Hc. reflexivity.
Qed.

End AccessCore.

(** C3, as the code has it.  Whatever the instance of [access]:
    - with a null client the call yields SessionExpired per contract, the
      operation is not invoked, and neither is the before-failure cleanup
      callback: the frame and the state are untouched but for the failure
      noted by the catch block;
    - when the before-checkpoint is on and fires, the before-failure cleanup
      callback runs first, then the call yields SessionExpired per contract
      from the frame and state the callback left; the operation is not
      invoked.
    Noting a failure changes neither the calls received nor the service. *)
Theorem before_failure_is_SessionExpired {K L R : Type} (rt : ResultType R)
  (no_throw_access inject_failure_before_op inject_failure_after_op : bool)
  (func_name path : string) (operation : M K L R)
  (fault_after_op_cleanup : option (R -> M K L unit))
  (fault_before_op_cleanup : option (M K L unit))
  (l : L) (s : State K) :
  (keeper s = None ->
   access rt no_throw_access inject_failure_before_op inject_failure_after_op
     func_name path operation fault_after_op_cleanup fault_before_op_cleanup l s
   = (SessionExpired_per_contract rt no_throw_access
        "Session is considered to be expired due to fault injection",
      l,
      noted func_name path ZSESSIONEXPIRED
        "Session is considered to be expired due to fault injection" s))
  /\ (forall (k : KeeperId) (l1 : L) (s1 : State K),
      keeper s = Some k ->
      inject_failure_before_op = true ->
      before_fires s = true ->
      run_cleanup fault_before_op_cleanup l (drew_before s) = (Return tt, l1, s1) ->
      access rt no_throw_access inject_failure_before_op inject_failure_after_op
        func_name path operation fault_after_op_cleanup fault_before_op_cleanup l s
      = (SessionExpired_per_contract rt no_throw_access
           "Fault injection before operation",
         l1,
         noted func_name path ZSESSIONEXPIRED "Fault injection before operation" s1))
  /\ (forall (message : string) (s1 : State K),
      calls (noted func_name path ZSESSIONEXPIRED message s1) = calls s1
      /\ service (noted func_name path ZSESSIONEXPIRED message s1) = service s1
      /\ fault_policy (noted func_name path ZSESSIONEXPIRED message s1)
         = fault_policy s1).
Proof.
  assert (Hs : forall message,
            surfaced rt no_throw_access ZSESSIONEXPIRED message
            = SessionExpired_per_contract rt no_throw_access message).
  { intros message. unfold surfaced, SessionExpired_per_contract.
    destruct rt; [destruct no_throw_access|]; reflexivity. }
  split; [|split].
  - intros Hk. rewrite <- Hs. apply access_null. exact Hk.
  - intros k l1 s1 Hk Hib Hf Hc. rewrite <- Hs.
    apply (access_before_fires rt _ _ _ _ _ _ _ _ k); assumption.
  - intros message s1. unfold noted.
    destruct (logger s1); cbn; destruct (keeper s1); repeat split.
Qed.

(** C3 at work: a forced before-failure on [tryMulti]; the callback has put
    its error responses into [responses] before SessionExpired is thrown,
    and the client received nothing. *)
Lemma before_failure_is_SessionExpired_witness :
  tryMulti InMemory.exec one_ephemeral [CheckResponse ZOK]
    (InMemory.start (InMemory.proxy client0 (Some forced_before)) InMemory.empty)
  = (Throw (KeeperException ZSESSIONEXPIRED "Fault injection before operation"),
     [ZooKeeperErrorResponse ZOPERATIONTIMEOUT],
     noted "tryMulti" "/a" ZSESSIONEXPIRED "Fault injection before operation"
       (drew_before
          (InMemory.start (InMemory.proxy client0 (Some forced_before))
             InMemory.empty))).
Proof.
  unfold tryMulti. apply bind_thrown.
  apply (proj1 (proj2 (before_failure_is_SessionExpired Error_result
                         false true true "tryMulti" (front_path one_ephemeral)
                         _ _ _ _ _)) 0%nat); reflexivity.
Defined.

(** C3 as stated fails for a null client: [tryMulti] passes a before-failure
    cleanup callback (it overwrites [responses]), and with a null client
    SessionExpired is thrown without the callback having run: [responses] is
    as the caller left it.  (And [tryMultiNoThrow] has no before-checkpoint:
    with the before-override set it calls the client, returns its result and
    leaves the override set.) *)
Lemma null_client_skips_before_cleanup :
  tryMulti InMemory.exec one_ephemeral [CheckResponse ZOK]
    (InMemory.start (InMemory.proxy None (Some InMemory.quiet)) InMemory.empty)
  = (Throw (KeeperException ZSESSIONEXPIRED
              "Session is considered to be expired due to fault injection"),
     [CheckResponse ZOK],
     logged (call_FAILED 42 "tryMulti" "/a" ZSESSIONEXPIRED
               "Session is considered to be expired due to fault injection")
       (InMemory.start (InMemory.proxy None (Some InMemory.quiet)) InMemory.empty))
  /\ timeout_responses one_ephemeral = [ZooKeeperErrorResponse ZOPERATIONTIMEOUT]
  /\ fst (fst (tryMultiNoThrow InMemory.exec one_ephemeral [] failing_before))
     = Return ZOK
  /\ calls (snd (tryMultiNoThrow InMemory.exec one_ephemeral [] failing_before))
     = [(0%nat, zk_tryMultiNoThrow one_ephemeral)]
  /\ option_map must_fail_before_op
       (fault_policy (snd (tryMultiNoThrow InMemory.exec one_ephemeral []
                             failing_before)))
     = Some true.
Proof. repeat split. Qed.

(** C5, the code at a failing input.  The real [tryRemove] throws NoAuth for
    the protected node: a code that is neither a hardware error, nor a user
    error, nor one of the codes a remove returns (the callback of
    [asyncTryRemove], in this header, rejects the promise for it).  The
    proxy's [tryRemove] turns the exception into a return value: the catch
    block of [access] returns every code that is not a hardware error,
    whatever the operation. *)
Theorem tryRemove_returns_a_code_the_client_throws :
  fst (InMemory.exec (zk_tryRemove "/acl" (-1)) 0%nat guarded)
  = Throw (KeeperException ZNOAUTH "/acl")
  /\ isHardwareError ZNOAUTH = false
  /\ isUserError ZNOAUTH = false
  /\ fst (fst (tryRemove (L:=unit) InMemory.exec "/acl" (-1) tt
                 (InMemory.start (InMemory.proxy client0 (Some InMemory.quiet))
                    guarded)))
     = Return ZNOAUTH
  /\ completed (asyncTryRemove (L:=unit) InMemory.exec "/acl" (-1) tt
                  (InMemory.start (InMemory.proxy client0 (Some InMemory.quiet))
                     guarded))
       (RemoveResponse ZNOAUTH)
     = set_exception (KeeperException ZNOAUTH "/acl").
Proof. repeat split. Qed.

(** C2, the code at a failing input.  For probability 0 [createInstance]
    builds a proxy without policy and without logger; its operations make
    one call to the client and track nothing, but [tryRemove] still returns
    the NoAuth the client throws. *)
Theorem zero_probability_tryRemove_is_not_the_client_call :
  fault_policy zero_probability_proxy = None
  /\ logger zero_probability_proxy = false
  /\ fst (InMemory.exec (zk_tryRemove "/acl" (-1)) 0%nat guarded)
     = Throw (KeeperException ZNOAUTH "/acl")
  /\ tryRemove (L:=unit) InMemory.exec "/acl" (-1) tt
       (InMemory.start zero_probability_proxy guarded)
     = (Return ZNOAUTH, tt,
        set_keeper_prev client0
          (received 0%nat (zk_tryRemove "/acl" (-1)) guarded
             (InMemory.start zero_probability_proxy guarded))).
Proof. repeat split. Qed.

(** ** Scanning a batch for created ephemeral nodes *)

Section Scan.

Context {K L : Type}.

Lemma bind_ext {A B} (m : M K L A) (f g : A -> M K L B) (l : L) (s : State K) :
  (forall a l' s', f a l' s' = g a l' s') -> bind m f l s = bind m g l s.
Proof.
  intros H. unfold bind. destruct (m l s) as [[[a|e] l'] s']; [apply H|reflexivity].
Qed.

(** C4, as the code has it.  The scan starts with [if (responses.empty())
    return;]: an empty response sequence is skipped, whatever the requests:
    no error, no action.  A non-empty response sequence whose length is not
    that of the requests raises the logical error, before any action. *)
Theorem count_mismatch_is_a_logical_error_unless_empty
  (method : string) (requests : Requests) (responses : Responses)
  (action : string -> M K L unit) (l : L) (s : State K) :
  (responses <> [] ->
   length responses <> length requests ->
   doForEachCreatedEphemeralNode method requests responses action l s
   = (Throw (LOGICAL_ERROR "Number of responses doesn't match number of requests"),
      l, s))
  /\ (responses = [] ->
      doForEachCreatedEphemeralNode method requests responses action l s
      = (Return tt, l, s)).
Proof.
  split.
  - intros Hne Hlen. unfold doForEachCreatedEphemeralNode.
    destruct responses as [|r rs]; [contradiction|].
    apply Nat.eqb_neq in Hlen. rewrite Hlen. reflexivity.
  - intros ->. reflexivity.
Qed.

(** On a well-answered batch the scan runs the action on the created paths,
    in request order. *)
Lemma scan_create_requests (requests : Requests) :
  forall (responses pre : Responses) (action : string -> M K L unit)
         (l : L) (s : State K),
  answers requests responses = true ->
  for_each (create_requests (length pre) requests)
    (fun ir =>
       match nth_error (pre ++ responses) (fst ir) with
       | Some (CreateResponse _ path_created) => action path_created
       | Some _ => throw (LOGICAL_ERROR "Response should be CreateResponse")
       | None => throw (std_exception "vector::at")
       end) l s
  = for_each (created_paths requests responses) action l s.
Proof.
  induction requests as [|rq requests IH]; intros responses pre action l s Ha.
  - destruct responses; reflexivity.
  - destruct responses as [|rs responses].
    + destruct rq as [? ? [] ?| | |]; discriminate.
    + assert (Hnext : forall l' s',
        for_each (create_requests (S (length pre)) requests)
          (fun ir =>
             match nth_error (pre ++ rs :: responses) (fst ir) with
             | Some (CreateResponse _ path_created) => action path_created
             | Some _ => throw (LOGICAL_ERROR "Response should be CreateResponse")
             | None => throw (std_exception "vector::at")
             end) l' s'
        = for_each (created_paths requests responses) action l' s').
      { intros l' s'.
        assert (Ha' : answers requests responses = true).
        { destruct rq as [? ? [] ?| | |]; cbn in Ha;
            try exact Ha; destruct rs; try discriminate; exact Ha. }
        specialize (IH responses (pre ++ [rs]) action l' s' Ha').
        rewrite <- app_assoc in IH. cbn in IH.
        rewrite length_app in IH. cbn in IH. rewrite Nat.add_1_r in IH.
        exact IH. }
      destruct rq as [p d [] q| | |]; cbn [create_requests created_paths];
        try apply Hnext.
      destruct rs as [e pc| | | | | |]; cbn in Ha; try discriminate.
      cbn [for_each fst]. rewrite nth_error_app2 by apply Nat.le_refl.
      rewrite Nat.sub_diag. cbn [nth_error].
      apply bind_ext. intros _ l' s'. apply Hnext.
Qed.

Lemma doForEachCreatedEphemeralNode_answers (method : string)
  (requests : Requests) (responses : Responses) (action : string -> M K L unit)
  (l : L) (s : State K) :
  answers requests responses = true ->
  doForEachCreatedEphemeralNode method requests responses action l s
  = for_each (created_paths requests responses) action l s.
Proof.
  intros Ha. unfold doForEachCreatedEphemeralNode.
  destruct responses as [|rs responses].
  - destruct requests as [|[? ? [] ?| | |] ?]; reflexivity.
  - assert (Hlen : length (rs :: responses) = length requests).
    { clear - Ha. revert Ha. generalize (rs :: responses) as resps.
      induction requests as [|rq requests IH]; intros [|r resps] Ha;
        try reflexivity; try discriminate.
      - destruct rq as [? ? [] ?| | |]; discriminate.
      - cbn [length]. f_equal. apply IH.
        destruct rq as [? ? [] ?| | |]; cbn in Ha;
          try exact Ha; destruct r; try discriminate; exact Ha. }
    apply Nat.eqb_eq in Hlen. rewrite Hlen. cbn [negb].
    apply (scan_create_requests requests (rs :: responses) [] action l s Ha).
Qed.

End Scan.

(** C4 at work: three requests, one response. *)
Lemma count_mismatch_is_a_logical_error_unless_empty_witness :
  doForEachCreatedEphemeralNode (L:=unit) "multi" create_remove_create
    [CheckResponse ZOK] push_ephemeral tt
    (InMemory.start (InMemory.proxy client0 (Some InMemory.quiet)) InMemory.empty)
  = (Throw (LOGICAL_ERROR "Number of responses doesn't match number of requests"),
     tt,
     InMemory.start (InMemory.proxy client0 (Some InMemory.quiet)) InMemory.empty).
Proof.
  apply (proj1 (count_mismatch_is_a_logical_error_unless_empty _ _ _ _ _ _));
    [discriminate | cbn; lia].
Defined.

(** C4 as stated fails: one request, no response; the lengths differ and the
    scan returns normally, having done nothing.  So [multi], handed an empty
    response batch for its one request by a crafted client, returns it
    without error. *)
Lemma empty_responses_raise_nothing :
  length one_ephemeral = 1%nat
  /\ length (@nil Response) = 0%nat
  /\ doForEachCreatedEphemeralNode (L:=unit) "multi" one_ephemeral [] push_ephemeral tt
       (InMemory.start (InMemory.proxy client0 (Some InMemory.quiet)) InMemory.empty)
     = (Return tt, tt,
        InMemory.start (InMemory.proxy client0 (Some InMemory.quiet)) InMemory.empty)
  /\ fst (multi (L:=unit) InMemory.crafted one_ephemeral tt
            (InMemory.start (InMemory.proxy client0 (Some InMemory.quiet))
               InMemory.empty))
     = (Return [], tt).
Proof. repeat split. Qed.

(** ** A committed transaction failed by the after-checkpoint *)

Section MultiCompensation.

Context {K L : Type}.
Variable exec : forall c : Call, KeeperId -> K -> outcome (Reply c) * K.

Lemma keeper_call_eq (c : Call) (k : KeeperId) (l : L) (s : State K) :
  keeper s = Some k ->
  keeper_call exec c l s
  = (fst (exec c k (service s)), l, received k c (snd (exec c k (service s))) s).
Proof.
  intros Hk. unfold keeper_call, invoke. rewrite Hk.
  destruct (exec c k (service s)); reflexivity.
Qed.

Lemma noted_frame (func_name path : string) (code : Error) (message : string)
  (s : State K) :
  calls (noted func_name path code message s) = calls s
  /\ service (noted func_name path code message s) = service s
  /\ ephemeral_nodes (noted func_name path code message s) = ephemeral_nodes s
  /\ fault_policy (noted func_name path code message s) = fault_policy s
  /\ keeper (noted func_name path code message s) = keeper s.
Proof.
  unfold noted.
  destruct (logger s); cbn; destruct (keeper s) eqn:Hk; repeat split; exact Hk.
Qed.

(** The compensating removes, all returning normally. *)
Lemma removes_run (k : KeeperId) (paths : list string) :
  forall (srv' : K) (l : L) (s : State K),
  keeper s = Some k ->
  removed_all exec k paths (service s) = Some srv' ->
  for_each paths (fun path_created => keeper_call exec (zk_remove path_created (-1))) l s
  = (Return tt, l,
     received_all k (map (fun p => zk_remove p (-1)) paths) srv' s).
Proof.
  induction paths as [|p paths IH]; intros srv' l s Hk Hr.
  - cbn in Hr. injection Hr as <-. unfold received_all. cbn.
    rewrite app_nil_r. destruct s; reflexivity.
  - cbn [removed_all] in Hr. cbn [for_each].
    destruct (exec (zk_remove p (-1)) k (service s)) as [[[]|e] srv1] eqn:He;
      [|discriminate].
    rewrite (bind_returned _ _ tt l l s (received k (zk_remove p (-1)) srv1 s)).
    + rewrite (IH srv' l (received k (zk_remove p (-1)) srv1 s) Hk Hr).
      unfold received_all, received. cbn. rewrite <- app_assoc. reflexivity.
    + rewrite (keeper_call_eq _ k) by exact Hk. rewrite He. reflexivity.
Qed.

(** After removes that all succeeded, on a client whose successful remove
    deletes its node and brings back no other, none of the paths exists. *)
Lemma removed_all_gone (k : KeeperId) :
  (forall p srv srv',
     exec (zk_remove p (-1)) k srv = (Return tt, srv') ->
     fst (exec (zk_exists p) k srv') = Return false) ->
  (forall p q srv srv',
     exec (zk_remove p (-1)) k srv = (Return tt, srv') ->
     fst (exec (zk_exists q) k srv) = Return false ->
     fst (exec (zk_exists q) k srv') = Return false) ->
  forall (paths : list string) (srv srv' : K),
  removed_all exec k paths srv = Some srv' ->
  (forall q, fst (exec (zk_exists q) k srv) = Return false ->
             fst (exec (zk_exists q) k srv') = Return false)
  /\ Forall (fun p => fst (exec (zk_exists p) k srv') = Return false) paths.
Proof.
  intros Hgone Hstay. induction paths as [|p paths IH]; intros srv srv' Hr.
  - cbn in Hr. injection Hr as <-. split; [auto|constructor].
  - cbn [removed_all] in Hr.
    destruct (exec (zk_remove p (-1)) k srv) as [[[]|e] srv1] eqn:He; [|discriminate].
    destruct (IH srv1 srv' Hr) as [Hkeep Hall]. split.
    + intros q Hq. apply Hkeep. apply (Hstay p q srv srv1 He Hq).
    + constructor; [|exact Hall]. apply Hkeep. apply (Hgone p srv srv1 He).
Qed.

(** X16.  What the cleanup of [multi] does when no remove fails.  A batch
    that committed (the real [multi] returned, one response per request, a
    create response for every ephemeral create), the before-checkpoint not
    firing, the after-checkpoint firing, and every compensating remove
    returning normally: [multi] throws OperationTimeout; before that the client
    received, after the [multi] itself, one [remove] for each ephemeral path
    the batch created, in request order, and nothing else; none of the paths
    is tracked; and on a client whose successful remove deletes its node and
    brings back no other, none of the paths exists afterwards. *)
Theorem failed_committed_multi_is_compensated
  (k : KeeperId) (fp : RandomFaultInjection)
  (requests : Requests) (responses : Responses) (srv1 srv2 : K)
  (l : L) (s : State K) :
  keeper s = Some k ->
  fault_policy s = Some fp ->
  fires_before fp = false ->
  fires_after (decided_before fp) = true ->
  exec (zk_multi requests) k (service s) = (Return responses, srv1) ->
  answers requests responses = true ->
  removed_all exec k (created_paths requests responses) srv1 = Some srv2 ->
  (forall p srv srv',
     exec (zk_remove p (-1)) k srv = (Return tt, srv') ->
     fst (exec (zk_exists p) k srv') = Return false) ->
  (forall p q srv srv',
     exec (zk_remove p (-1)) k srv = (Return tt, srv') ->
     fst (exec (zk_exists q) k srv) = Return false ->
     fst (exec (zk_exists q) k srv') = Return false) ->
  exists s',
    multi exec requests l s
    = (Throw (KeeperException ZOPERATIONTIMEOUT "Fault injection after operation"),
       l, s')
    /\ calls s'
       = calls s ++ (k, zk_multi requests)
           :: map (fun p => (k, zk_remove p (-1))) (created_paths requests responses)
    /\ service s' = srv2
    /\ ephemeral_nodes s' = ephemeral_nodes s
    /\ Forall (fun p => fst (exec (zk_exists p) k srv2) = Return false)
         (created_paths requests responses).
Proof.
  intros Hk Hfp Hb Ha Hm Hans Hrm Hgone Hstay.
  set (paths := created_paths requests responses) in *.
  set (s1 := drew_before s).
  set (s2 := received k (zk_multi requests) srv1 s1).
  set (s3 := received_all k (map (fun p => zk_remove p (-1)) paths) srv2
               (drew_after s2)).
  assert (Hs1 : s1 = set_fault_policy (Some (decided_before fp)) s).
  { unfold s1, drew_before. rewrite Hfp. reflexivity. }
  assert (Hp2 : fault_policy s2 = Some (decided_before fp)).
  { unfold s2. rewrite Hs1. reflexivity. }
  assert (Hd2 : drew_after s2
                = set_fault_policy (Some (decided_after (decided_before fp))) s2).
  { unfold drew_after. rewrite Hp2. reflexivity. }
  exists (noted "multi" (front_path requests) ZOPERATIONTIMEOUT
            "Fault injection after operation" s3).
  split; [|split; [|split; [|split]]].
  - unfold multi. apply bind_thrown.
    apply (access_after_fires is_other false true true "multi"
             (front_path requests) _ _ None k responses l l l s s2 s3).
    + exact Hk.
    + unfold before_fires. rewrite Hfp. exact Hb.
    + cbn [entered]. fold s1.
      rewrite (keeper_call_eq _ k) by (rewrite Hs1; exact Hk).
      replace (service s1) with (service s) by (rewrite Hs1; reflexivity).
      rewrite Hm. reflexivity.
    + reflexivity.
    + reflexivity.
    + unfold after_fires. rewrite Hp2. exact Ha.
    + cbn [option_map run_cleanup]. unfold faultInjectionPostAction.
      rewrite doForEachCreatedEphemeralNode_answers by exact Hans.
      apply removes_run.
      * rewrite Hd2. unfold s2. rewrite Hs1. exact Hk.
      * rewrite Hd2. unfold s2. exact Hrm.
  - destruct (noted_frame "multi" (front_path requests) ZOPERATIONTIMEOUT
                "Fault injection after operation" s3) as [-> _].
    unfold s3, received_all. cbn [calls]. rewrite Hd2. unfold s2. rewrite Hs1.
    cbn. rewrite <- app_assoc. cbn. rewrite map_map. reflexivity.
  - destruct (noted_frame "multi" (front_path requests) ZOPERATIONTIMEOUT
                "Fault injection after operation" s3) as (_ & -> & _).
    reflexivity.
  - destruct (noted_frame "multi" (front_path requests) ZOPERATIONTIMEOUT
                "Fault injection after operation" s3) as (_ & _ & -> & _).
    unfold s3, received_all. cbn. rewrite Hd2. unfold s2. rewrite Hs1. reflexivity.
  - apply (removed_all_gone k Hgone Hstay paths srv1 srv2 Hrm).
Qed.

End MultiCompensation.

(** The small service obeys the contract of [remove] the theorem asks of a
    client. *)
Lemma has_without_same (p : string) (ns : list string) :
  InMemory.has p (InMemory.without p ns) = false.
Proof.
  unfold InMemory.has, InMemory.without.
  induction ns as [|n ns IH]; [reflexivity|]. cbn.
  destruct (String.eqb p n) eqn:E; cbn; [exact IH|]. rewrite E. exact IH.
Qed.

Lemma has_without_other (p q : string) (ns : list string) :
  InMemory.has q ns = false -> InMemory.has q (InMemory.without p ns) = false.
Proof.
  unfold InMemory.has, InMemory.without.
  induction ns as [|n ns IH]; [reflexivity|]. cbn.
  destruct (String.eqb q n) eqn:E; cbn; [discriminate|]. intros H.
  destruct (String.eqb p n); cbn; [|rewrite E]; apply IH; exact H.
Qed.

Lemma InMemory_remove_deletes (k : KeeperId) (p : string)
  (srv srv' : InMemory.Service) :
  InMemory.exec (zk_remove p (-1)) k srv = (Return tt, srv') ->
  fst (InMemory.exec (zk_exists p) k srv') = Return false.
Proof.
  unfold InMemory.exec. destruct (InMemory.online srv) eqn:Ho; cbn; [|discriminate].
  destruct (InMemory.has p (InMemory.denied srv)); [discriminate|].
  destruct (InMemory.has p (InMemory.nodes srv)); [|discriminate].
  intros H. injection H as <-. cbn. rewrite Ho. cbn.
  fold (InMemory.has p (InMemory.without p (InMemory.nodes srv))).
  rewrite has_without_same. reflexivity.
Qed.

Lemma InMemory_remove_keeps_absent (k : KeeperId) (p q : string)
  (srv srv' : InMemory.Service) :
  InMemory.exec (zk_remove p (-1)) k srv = (Return tt, srv') ->
  fst (InMemory.exec (zk_exists q) k srv) = Return false ->
  fst (InMemory.exec (zk_exists q) k srv') = Return false.
Proof.
  unfold InMemory.exec. destruct (InMemory.online srv) eqn:Ho; cbn; [|discriminate].
  destruct (InMemory.has p (InMemory.denied srv)); [discriminate|].
  destruct (InMemory.has p (InMemory.nodes srv)); [|discriminate].
  intros H. injection H as <-. cbn. rewrite Ho. cbn. intros Hq.
  injection Hq as Hq.
  fold (InMemory.has q (InMemory.without p (InMemory.nodes srv))).
  rewrite (has_without_other p q _ Hq). reflexivity.
Qed.

(** X16 at work: a batch creating "/a" and "/b"; both are removed again,
    the caller is told OperationTimeout, the service is empty. *)
Lemma failed_committed_multi_is_compensated_witness :
  exists s',
    multi InMemory.exec create_set_create tt failing_after
    = (Throw (KeeperException ZOPERATIONTIMEOUT "Fault injection after operation"),
       tt, s')
    /\ calls s'
       = [(0%nat, zk_multi create_set_create);
          (0%nat, zk_remove "/a" (-1)); (0%nat, zk_remove "/b" (-1))]
    /\ service s' = InMemory.empty
    /\ ephemeral_nodes s' = []
    /\ Forall (fun p => fst (InMemory.exec (zk_exists p) 0%nat InMemory.empty)
                        = Return false)
         ["/a"; "/b"].
Proof.
  apply (failed_committed_multi_is_compensated InMemory.exec 0%nat forced_after
           create_set_create
           [CreateResponse ZOK "/a"; SetResponse ZOK; CreateResponse ZOK "/b"]
           (InMemory.mkService ["/a"; "/b"] [] true) InMemory.empty
           tt failing_after);
    try reflexivity.
  - apply InMemory_remove_deletes.
  - apply InMemory_remove_keeps_absent.
Defined.

(** C1, the code at a failing input.  The batch creates "/a", removes it
    and creates "/b"; it commits, and the after-checkpoint fires.
    [faultInjectionPostAction] calls [keeper->remove] with no guard around
    it (the cleanup of [tryCreate] and the flush wrap the same call in a
    try block): the compensating remove of "/a" throws NoNode, the caller is
    told NoNode, not OperationTimeout, no remove is issued for "/b", and
    "/b" exists afterwards. *)
Lemma failed_delete_takes_the_place_of_the_timeout :
  fst (InMemory.exec (zk_multi create_remove_create) 0%nat InMemory.empty)
  = Return [CreateResponse ZOK "/a"; RemoveResponse ZOK; CreateResponse ZOK "/b"]
  /\ fst (fst (multi InMemory.exec create_remove_create tt failing_after))
     = Throw (KeeperException ZNONODE "/a")
  /\ calls (snd (multi InMemory.exec create_remove_create tt failing_after))
     = [(0%nat, zk_multi create_remove_create); (0%nat, zk_remove "/a" (-1))]
  /\ fst (InMemory.exec (zk_exists "/b") 0%nat
            (service (snd (multi InMemory.exec create_remove_create tt
                             failing_after))))
     = Return true.
Proof. repeat split. Qed.

(** ** Asynchronous operations blocked before the request *)

Section AsyncBefore.

Context {K L : Type}.
Variable exec : forall c : Call, KeeperId -> K -> outcome (Reply c) * K.

Lemma with_policy_before {F : Type} (l : F) (s : State K) :
  with_policy false beforeOperationNoThrow l s
  = (Return (before_fires s), l, drew_before s).
Proof.
  unfold with_policy, before_fires, drew_before.
  destruct (fault_policy s) as [fp|]; [|reflexivity].
  rewrite beforeOperationNoThrow_eq. reflexivity.
Qed.

Lemma injectFailureBeforeOp_blocked {A} (s : State K) :
  blocked s = true ->
  injectFailureBeforeOp (A:=A) pending s
  = (Return true,
     set_exception (KeeperException ZSESSIONEXPIRED (blocked_message s)),
     blocked_silently s).
Proof.
  unfold blocked, blocked_message, blocked_silently, injectFailureBeforeOp.
  unfold bind at 1. unfold gets at 1. destruct (keeper s); [|reflexivity].
  intros Hf. unfold bind at 1. rewrite with_policy_before, Hf. reflexivity.
Qed.

Lemma null_or_before_fires_blocked {F : Type} (l : F) (s : State K) :
  blocked s = true ->
  null_or_before_fires l s = (Return true, l, blocked_silently s).
Proof.
  unfold blocked, blocked_silently, null_or_before_fires.
  unfold bind at 1. unfold gets at 1. destruct (keeper s); [|reflexivity].
  intros Hf. rewrite with_policy_before, Hf. reflexivity.
Qed.

Lemma LOG_TRACE_eq {F : Type} (line : Z -> LogLine) (l : F) (s : State K) :
  LOG_TRACE line l s = (Return tt, l, if logger s then logged (line (seed s)) s else s).
Proof. reflexivity. Qed.

Lemma blocked_silently_this (s : State K) :
  logger (blocked_silently s) = logger s /\ seed (blocked_silently s) = seed s.
Proof.
  unfold blocked_silently, drew_before.
  destruct (keeper s); [destruct (fault_policy s)|]; split; reflexivity.
Qed.

(** A blocked call whose promise is set by [injectFailureBeforeOp]. *)
Lemma rejected_before {A} (func path : string)
  (request : M K (promise A) (option (lifetime -> A -> M K (promise A) unit)))
  (l : L) (s : State K) :
  blocked s = true ->
  returning_future
    (failed <- injectFailureBeforeOp ;;
     if failed
     then LOG_TRACE (fun seed => injected_fault_before seed func path) ;;; ret None
     else request) l s
  = (Return (mkAsync
               (set_exception (KeeperException ZSESSIONEXPIRED (blocked_message s)))
               None),
     l, blocked_state func path s).
Proof.
  intros Hb. unfold returning_future, scope. unfold bind at 1. unfold bind at 1.
  rewrite (injectFailureBeforeOp_blocked s Hb). unfold bind at 1.
  rewrite LOG_TRACE_eq. unfold blocked_state.
  destruct (blocked_silently_this s) as [-> ->]. reflexivity.
Qed.

(** A blocked call of a NoThrow form: the promise is given an error value. *)
Lemma resolved_before {A} (func path : string) (value : A)
  (request : M K (promise A) (option (lifetime -> A -> M K (promise A) unit)))
  (l : L) (s : State K) :
  blocked s = true ->
  returning_future
    (failed <- null_or_before_fires ;;
     if failed
     then LOG_TRACE (fun seed => injected_fault_before seed func path) ;;;
          assign (set_value value) ;;; ret None
     else request) l s
  = (Return (mkAsync (set_value value) None), l, blocked_state func path s).
Proof.
  intros Hb. unfold returning_future, scope. unfold bind at 1. unfold bind at 1.
  rewrite (null_or_before_fires_blocked pending s Hb). unfold bind at 1.
  rewrite LOG_TRACE_eq. unfold blocked_state.
  destruct (blocked_silently_this s) as [-> ->]. reflexivity.
Qed.

(** C8, as the code has it.  An asynchronous operation called with a null
    client, or whose before-checkpoint fires, returns normally; no request
    is handed to the client (the calls received and the service are as
    before, there is no callback); the future it returns is already set:
    - [asyncExists], [asyncTryGet] and [asyncTryRemove] have stored a
      SessionExpired exception in it (reading the future throws);
    - [asyncTryRemoveNoThrow] and [asyncTryCreateNoThrow] have given it a
      response whose error is SessionExpired;
    - [asyncTryMultiNoThrow] has given it one SessionExpired error response
      per request. *)
Theorem async_blocked_before_the_request
  (path data : string) (has_watch : bool) (version mode : Z) (ops : Requests)
  (l : L) (s : State K) :
  blocked s = true ->
  asyncExists exec path has_watch l s
  = (Return (mkAsync
               (set_exception (KeeperException ZSESSIONEXPIRED (blocked_message s)))
               None),
     l, blocked_state "asyncExists" path s)
  /\ asyncTryGet exec path l s
     = (Return (mkAsync
                  (set_exception (KeeperException ZSESSIONEXPIRED (blocked_message s)))
                  None),
        l, blocked_state "asyncTryGet" path s)
  /\ asyncTryRemove exec path version l s
     = (Return (mkAsync
                  (set_exception (KeeperException ZSESSIONEXPIRED (blocked_message s)))
                  None),
        l, blocked_state "asyncTryRemove" path s)
  /\ asyncTryRemoveNoThrow exec path version l s
     = (Return (mkAsync (set_value (RemoveResponse ZSESSIONEXPIRED)) None),
        l, blocked_state "asyncTryRemoveNoThrow" path s)
  /\ asyncTryMultiNoThrow exec ops l s
     = (Return (mkAsync
                  (set_value
                     (mkMultiResponse ZOK
                        (repeat (ZooKeeperErrorResponse ZSESSIONEXPIRED) (length ops))))
                  None),
        l, blocked_state "asyncTryMultiNoThrow" (front_path ops) s)
  /\ asyncTryCreateNoThrow exec path data mode l s
     = (Return (mkAsync (set_value (CreateResponse ZSESSIONEXPIRED "")) None),
        l, blocked_silently s)
  /\ (forall func p,
        calls (blocked_state func p s) = calls s
        /\ service (blocked_state func p s) = service s)
  /\ calls (blocked_silently s) = calls s
  /\ service (blocked_silently s) = service s.
Proof.
  intros Hb.
  assert (Hsil : calls (blocked_silently s) = calls s
                 /\ service (blocked_silently s) = service s).
  { unfold blocked_silently, drew_before.
    destruct (keeper s); [destruct (fault_policy s)|]; split; reflexivity. }
  repeat match goal with |- _ /\ _ => split end.
  - apply rejected_before. exact Hb.
  - apply rejected_before. exact Hb.
  - apply rejected_before. exact Hb.
  - apply resolved_before. exact Hb.
  - apply (resolved_before "asyncTryMultiNoThrow" (front_path ops)). exact Hb.
  - unfold asyncTryCreateNoThrow, returning_future, scope.
    unfold bind at 1. unfold bind at 1.
    rewrite (null_or_before_fires_blocked pending s Hb). reflexivity.
  - intros func p. unfold blocked_state. destruct (logger s); exact Hsil.
  - apply Hsil.
  - apply Hsil.
Qed.

End AsyncBefore.

(** C8 at work: a forced before-failure. *)
Lemma async_blocked_before_the_request_witness :
  asyncTryRemoveNoThrow (L:=unit) InMemory.exec "/a" (-1) tt failing_before
  = (Return (mkAsync (set_value (RemoveResponse ZSESSIONEXPIRED)) None), tt,
     blocked_state "asyncTryRemoveNoThrow" "/a" failing_before)
  /\ calls (blocked_state "asyncTryRemoveNoThrow" "/a" failing_before) = [].
Proof.
  destruct (async_blocked_before_the_request InMemory.exec "/a" "" false (-1) 0 []
              tt failing_before eq_refl)
    as (_ & _ & _ & H & _ & _ & Hc & _).
  split; [exact H | exact (proj1 (Hc "asyncTryRemoveNoThrow" "/a"))].
Defined.

(** C8 as stated fails: the future [asyncExists] returns after a forced
    before-failure holds no value, it holds an exception. *)
Lemma asyncExists_rejects_its_promise :
  fst (fst (asyncExists (L:=unit) InMemory.exec "/a" false tt failing_before))
  = Return (mkAsync
              (set_exception
                 (KeeperException ZSESSIONEXPIRED "Fault injection before operation"))
              None)
  /\ calls (snd (asyncExists (L:=unit) InMemory.exec "/a" false tt failing_before))
     = [].
Proof. split; reflexivity. Qed.

(** ** The ephemeral flush *)

Section Flush.

Context {K L : Type}.
Variable exec : forall c : Call, KeeperId -> K -> outcome (Reply c) * K.

(** The loop of [cleanupEphemeralNodes]: it never throws and touches only
    the service, the calls and the log. *)
Lemma flush_loop (paths : list string) :
  forall (l : L) (s : State K),
  for_each paths (fun path =>
    try_catch
      (prev <- gets (fun s => keeper_prev s) ;;
       match prev with
       | Some k => invoke exec k (zk_tryRemove path (-1)) ;;; ret tt
       | None => ret tt
       end)
      (fun e => Some (LOG_TRACE (fun _ => exception_during_clean_up e)))) l s
  = (Return tt, l,
     mkState s
       (fst (flushed exec (keeper_prev s) (logger s) paths (service s)))
       (calls s ++ flush_calls (keeper_prev s) paths)
       (log s ++ snd (flushed exec (keeper_prev s) (logger s) paths (service s)))).
Proof.
  induction paths as [|p paths IH]; intros l s.
  - cbn. unfold flush_calls. destruct (keeper_prev s); cbn;
      rewrite !app_nil_r; destruct s; reflexivity.
  - cbn [for_each]. unfold bind at 1. unfold try_catch at 1.
    unfold bind at 1. unfold gets at 1.
    destruct (keeper_prev s) as [k|] eqn:Hp.
    + unfold bind at 1. unfold invoke at 1. cbn [flushed].
      destruct (exec (zk_tryRemove p (-1)) k (service s)) as [[r|e] srv1] eqn:He.
      * unfold ret at 1. rewrite IH. cbn. rewrite Hp.
        destruct (flushed exec (Some k) (logger s) paths srv1) as [srv2 lines].
        cbn. rewrite <- app_assoc. reflexivity.
      * rewrite LOG_TRACE_eq. rewrite IH. cbn.
        destruct (logger s) eqn:Hl; cbn; rewrite ?Hp, ?Hl;
          destruct (flushed exec (Some k) _ paths srv1) as [srv2 lines];
          cbn; rewrite <- ?app_assoc; reflexivity.
    + unfold ret at 1. rewrite IH. rewrite Hp. cbn.
      destruct paths; cbn; rewrite !app_nil_r; reflexivity.
Qed.

(** C9, as the code has it.  [cleanupEphemeralNodes] always returns
    normally and always leaves the tracker empty.  When there is a previous
    client it has received one [tryRemove] for each tracked path, in order,
    and every exception of a remove is swallowed (a line is logged for it
    when there is a logger); when the previous client is null, no remove is
    issued to any client.  The current client is never used. *)
Theorem flush_empties_the_tracker (l : L) (s : State K) :
  cleanupEphemeralNodes exec l s
  = (Return tt, l,
     set_ephemeral_nodes []
       (mkState s
          (fst (flushed exec (keeper_prev s) (logger s) (ephemeral_nodes s)
                  (service s)))
          (calls s ++ flush_calls (keeper_prev s) (ephemeral_nodes s))
          (log s ++ snd (flushed exec (keeper_prev s) (logger s)
                           (ephemeral_nodes s) (service s)))))
  /\ ephemeral_nodes (snd (cleanupEphemeralNodes exec l s)) = []
  /\ calls (snd (cleanupEphemeralNodes exec l s))
     = calls s ++ match keeper_prev s with
                  | Some k => map (fun p => (k, zk_tryRemove p (-1)))
                                (ephemeral_nodes s)
                  | None => []
                  end.
Proof.
  assert (H : cleanupEphemeralNodes exec l s
    = (Return tt, l,
       set_ephemeral_nodes []
         (mkState s
            (fst (flushed exec (keeper_prev s) (logger s) (ephemeral_nodes s)
                    (service s)))
            (calls s ++ flush_calls (keeper_prev s) (ephemeral_nodes s))
            (log s ++ snd (flushed exec (keeper_prev s) (logger s)
                             (ephemeral_nodes s) (service s)))))).
  { unfold cleanupEphemeralNodes. unfold bind at 1. unfold gets at 1.
    unfold bind at 1. rewrite flush_loop. reflexivity. }
  rewrite H. repeat split.
Qed.

End Flush.

(** C9 as stated fails: the proxy tracks "/a", no operation has failed
    yet, so there is no previous client; the flush issues no remove, "/a"
    is still there, and the tracker is empty. *)
Lemma flush_without_previous_client_removes_nothing :
  keeper tracking_without_previous = Some 0%nat
  /\ keeper_prev tracking_without_previous = None
  /\ ephemeral_nodes tracking_without_previous = ["/a"]
  /\ cleanupEphemeralNodes (L:=unit) InMemory.exec tt tracking_without_previous
     = (Return tt, tt, set_ephemeral_nodes [] tracking_without_previous)
  /\ calls (set_ephemeral_nodes [] tracking_without_previous) = []
  /\ fst (InMemory.exec (zk_exists "/a") 0%nat
            (service (set_ephemeral_nodes [] tracking_without_previous)))
     = Return true.
Proof. repeat split. Qed.

(** ** tryCreate *)

Section TryCreate.

Context {K : Type}.
Variable exec : forall c : Call, KeeperId -> K -> outcome (Reply c) * K.

Variables (k : KeeperId) (fp : RandomFaultInjection).
Variables (path data : string) (mode : Z).
Variables (code : Error) (pc : string) (srv1 : K).
Variables (l : string) (s : State K).

Hypothesis Hk : keeper s = Some k.
Hypothesis Hfp : fault_policy s = Some fp.
Hypothesis Hb : fires_before fp = false.
Hypothesis He :
  exec (zk_tryCreate path data mode) k (service s) = (Return (code, pc), srv1).
Hypothesis Hh : isHardwareError code = false.

Lemma tryCreate_real_call :
  call_into_frame (keeper_call exec (zk_tryCreate path data mode)) ""
    (entered true s)
  = (Return code, pc, called k (zk_tryCreate path data mode) srv1 fp s).
Proof.
  unfold call_into_frame, entered, drew_before, called. rewrite Hfp.
  rewrite (bind_returned _ _ (code, pc) "" ""
             (set_fault_policy (Some (decided_before fp)) s)
             (received k (zk_tryCreate path data mode) srv1
                (set_fault_policy (Some (decided_before fp)) s))).
  - reflexivity.
  - rewrite (keeper_call_eq exec _ k) by exact Hk. cbn [service set_fault_policy
      set_this]. rewrite He. reflexivity.
Qed.

Lemma tryCreate_after_decision :
  drew_after (called k (zk_tryCreate path data mode) srv1 fp s)
  = decided fp (called k (zk_tryCreate path data mode) srv1 fp s)
  /\ after_fires (called k (zk_tryCreate path data mode) srv1 fp s)
     = fires_after (decided_before fp).
Proof. split; reflexivity. Qed.

(** No injected failure: the real result, and the path tracked exactly when
    it is non-empty and the mode ephemeral. *)
Lemma tryCreate_passes :
  fires_after (decided_before fp) = false ->
  tryCreate exec path data mode l s
  = (Return code, pc,
     if nonempty pc && is_ephemeral_mode mode
     then set_ephemeral_nodes (ephemeral_nodes s ++ [pc])
            (decided fp (called k (zk_tryCreate path data mode) srv1 fp s))
     else decided fp (called k (zk_tryCreate path data mode) srv1 fp s)).
Proof.
  intros Ha. unfold tryCreate.
  rewrite (bind_returned _ _ tt l "" s s) by reflexivity.
  rewrite (bind_returned _ _ code "" pc s
             (decided fp (called k (zk_tryCreate path data mode) srv1 fp s))).
  - unfold bind, has_policy, gets, frame, when, push_ephemeral, modify, ret. cbn.
    destruct (nonempty pc && is_ephemeral_mode mode); reflexivity.
  - rewrite <- (proj1 tryCreate_after_decision).
    apply (access_passes Error_result false true true "tryCreate" path _ _ None
             k code "" pc s (called k (zk_tryCreate path data mode) srv1 fp s)).
    + exact Hk.
    + unfold before_fires. rewrite Hfp. exact Hb.
    + apply tryCreate_real_call.
    + exact Hh.
    + rewrite (proj2 tryCreate_after_decision). exact Ha.
Qed.

Lemma tryCreate_cleanup_skips (s3 : State K) :
  nonempty pc && is_ephemeral_mode mode = false ->
  tryCreate_fault_cleanup exec path mode code pc s3 = (Return tt, pc, s3).
Proof.
  intros Hc. unfold tryCreate_fault_cleanup, try_catch, bind, frame. rewrite Hc.
  reflexivity.
Qed.

Lemma tryCreate_cleanup_removes (s3 : State K) :
  nonempty pc && is_ephemeral_mode mode = true ->
  keeper s3 = Some k ->
  exists s4,
    tryCreate_fault_cleanup exec path mode code pc s3
    = (match fst (exec (zk_remove pc (-1)) k (service s3)) with
       | Return _ | Throw (KeeperException _ _) => Return tt
       | Throw e => Throw e
       end, pc, s4)
    /\ calls s4 = calls s3 ++ [(k, zk_remove pc (-1))]
    /\ service s4 = snd (exec (zk_remove pc (-1)) k (service s3))
    /\ ephemeral_nodes s4 = ephemeral_nodes s3
    /\ keeper s4 = keeper s3.
Proof.
  intros Hc Hk3. unfold tryCreate_fault_cleanup, try_catch.
  unfold bind at 1. unfold frame at 1. rewrite Hc. cbn [when].
  unfold bind at 1. rewrite (keeper_call_eq exec _ k) by exact Hk3.
  destruct (exec (zk_remove pc (-1)) k (service s3)) as [[[]|e] srv2]; cbn [fst snd].
  - rewrite LOG_TRACE_eq. eexists. split; [reflexivity|].
    cbn. destruct (logger s3); repeat split.
  - destruct e as [c m| |]; cbn [catch_KeeperException].
    + unfold bind, frame. rewrite LOG_TRACE_eq. eexists. split; [reflexivity|].
      cbn. destruct (logger s3); repeat split.
    + eexists. split; [reflexivity|]. repeat split.
    + eexists. split; [reflexivity|]. repeat split.
Qed.

(** An injected after-failure on a node that is not ephemeral (or on an
    empty path): OperationTimeout, and nothing but the create was issued. *)
Lemma tryCreate_fails_without_removal :
  fires_after (decided_before fp) = true ->
  nonempty pc && is_ephemeral_mode mode = false ->
  tryCreate exec path data mode l s
  = (Throw OperationTimeout, pc,
     noted "tryCreate" path ZOPERATIONTIMEOUT "Fault injection after operation"
       (decided fp (called k (zk_tryCreate path data mode) srv1 fp s))).
Proof.
  intros Ha Hc. unfold tryCreate.
  rewrite (bind_returned _ _ tt l "" s s) by reflexivity.
  apply bind_thrown.
  apply (access_after_fires Error_result false true true "tryCreate" path _ _ None
           k code "" pc pc s (called k (zk_tryCreate path data mode) srv1 fp s)).
  - exact Hk.
  - unfold before_fires. rewrite Hfp. exact Hb.
  - apply tryCreate_real_call.
  - exact Hh.
  - reflexivity.
  - rewrite (proj2 tryCreate_after_decision). exact Ha.
  - rewrite (proj1 tryCreate_after_decision). cbn [option_map run_cleanup].
    apply (tryCreate_cleanup_skips _ Hc).
Qed.

(** An injected after-failure on an ephemeral node: the compensating remove
    is issued; its [KeeperException], if any, is swallowed. *)
Lemma tryCreate_fails_with_removal :
  fires_after (decided_before fp) = true ->
  nonempty pc && is_ephemeral_mode mode = true ->
  exists s',
    tryCreate exec path data mode l s
    = (match fst (exec (zk_remove pc (-1)) k srv1) with
       | Return _ | Throw (KeeperException _ _) => Throw OperationTimeout
       | Throw e => Throw e
       end, pc, s')
    /\ calls s'
       = calls s ++ [(k, zk_tryCreate path data mode); (k, zk_remove pc (-1))]
    /\ service s' = snd (exec (zk_remove pc (-1)) k srv1)
    /\ ephemeral_nodes s' = ephemeral_nodes s.
Proof.
  intros Ha Hc.
  destruct (tryCreate_cleanup_removes
              (decided fp (called k (zk_tryCreate path data mode) srv1 fp s)) Hc Hk)
    as (s4 & Hrun & Hcalls & Hsrv & Heph & Hk4).
  cbn [service decided called received set_fault_policy set_this] in Hrun, Hsrv.
  assert (Hpre : forall e3,
    match fst (exec (zk_remove pc (-1)) k srv1) with
    | Return _ | Throw (KeeperException _ _) => Return tt
    | Throw e => Throw e
    end = e3 ->
    (e3 = Return tt \/ exists e, e3 = Throw e
                                 /\ forall c m, e <> KeeperException c m)).
  { intros e3 <-. destruct (fst (exec (zk_remove pc (-1)) k srv1)) as [[]|[c m|m|w]].
    - left. reflexivity.
    - left. reflexivity.
    - right. eexists. split; [reflexivity|]. discriminate.
    - right. eexists. split; [reflexivity|]. discriminate. }
  destruct (Hpre _ eq_refl) as [Hret | (e & Hthrow & Hne)].
  - rewrite Hret in Hrun.
    exists (noted "tryCreate" path ZOPERATIONTIMEOUT
              "Fault injection after operation" s4).
    destruct (noted_frame (K:=K) "tryCreate" path ZOPERATIONTIMEOUT
                "Fault injection after operation" s4) as (-> & -> & -> & _).
    split; [|split; [|split]].
    + assert (Hout : match fst (exec (zk_remove pc (-1)) k srv1) with
                     | Return _ | Throw (KeeperException _ _) => Throw OperationTimeout
                     | Throw e => Throw e
                     end = Throw (A:=Error) OperationTimeout).
      { destruct (fst (exec (zk_remove pc (-1)) k srv1)) as [[]|[c m|m|w]];
          try reflexivity; discriminate. }
      rewrite Hout. unfold tryCreate.
      rewrite (bind_returned _ _ tt l "" s s) by reflexivity.
      apply bind_thrown.
      apply (access_after_fires Error_result false true true "tryCreate" path _ _
               None k code "" pc pc s
               (called k (zk_tryCreate path data mode) srv1 fp s)).
      * exact Hk.
      * unfold before_fires. rewrite Hfp. exact Hb.
      * apply tryCreate_real_call.
      * exact Hh.
      * reflexivity.
      * rewrite (proj2 tryCreate_after_decision). exact Ha.
      * rewrite (proj1 tryCreate_after_decision). cbn [option_map run_cleanup].
        exact Hrun.
    + rewrite Hcalls. cbn. rewrite <- app_assoc. reflexivity.
    + exact Hsrv.
    + rewrite Heph. reflexivity.
  - rewrite Hthrow in Hrun. exists s4. split; [|split; [|split]].
    + assert (Hout : match fst (exec (zk_remove pc (-1)) k srv1) with
                     | Return _ | Throw (KeeperException _ _) => Throw OperationTimeout
                     | Throw e => Throw e
                     end = Throw (A:=Error) e).
      { destruct (fst (exec (zk_remove pc (-1)) k srv1)) as [[]|[c m|m|w]];
          try discriminate; injection Hthrow as <-; reflexivity. }
      rewrite Hout. unfold tryCreate.
      rewrite (bind_returned _ _ tt l "" s s) by reflexivity.
      apply bind_thrown.
      apply (access_after_cleanup_escapes Error_result false true true "tryCreate"
               path _ _ None k code e "" pc pc s
               (called k (zk_tryCreate path data mode) srv1 fp s)).
      * exact Hk.
      * unfold before_fires. rewrite Hfp. exact Hb.
      * apply tryCreate_real_call.
      * exact Hh.
      * reflexivity.
      * rewrite (proj2 tryCreate_after_decision). exact Ha.
      * rewrite (proj1 tryCreate_after_decision). cbn [option_map run_cleanup].
        exact Hrun.
      * exact Hne.
    + rewrite Hcalls. cbn. rewrite <- app_assoc. reflexivity.
    + exact Hsrv.
    + rewrite Heph. reflexivity.
Qed.

End TryCreate.

Lemma is_ephemeral_mode_iff (mode : Z) :
  is_ephemeral_mode mode = true
  <-> mode = CreateMode.Ephemeral \/ mode = CreateMode.EphemeralSequential.
Proof.
  unfold is_ephemeral_mode, CreateMode.Ephemeral, CreateMode.EphemeralSequential.
  rewrite orb_true_iff, !Z.eqb_eq. tauto.
Qed.

(** Every path through [tryCreate], by cases on the client pointer, the
    policy and its decisions, and the answers of the real client. *)
Ltac tryCreate_simp :=
  cbn -[beforeOperation afterOperation nonempty is_ephemeral_mode].

Ltac tryCreate_leaf :=
  tryCreate_simp;
  repeat match goal with
         | H : ?x = _ |- context [match ?x with _ => _ end] =>
             rewrite H; tryCreate_simp
         | |- context [if ?b then _ else _] => destruct b eqn:?; tryCreate_simp
         end;
  intros;
  repeat match goal with
         | H : ?x = false, H' : context [?x] |- _ => rewrite H in H'
         end;
  cbn in *; rewrite ?andb_false_r in *; try congruence;
  (split; [reflexivity | first [left; reflexivity | right; eexists; reflexivity]]).

(** Whatever happens in [tryCreate]: unless the path it leaves in
    [path_created] is non-empty and the mode is ephemeral, the tracker is
    unchanged and the clients received the create at most, no remove. *)
Lemma tryCreate_frame {K : Type}
  (exec : forall c : Call, KeeperId -> K -> outcome (Reply c) * K)
  (path data : string) (mode : Z) (l : string) (s : State K) :
  nonempty (snd (fst (tryCreate exec path data mode l s))) && is_ephemeral_mode mode
  = false ->
  ephemeral_nodes (snd (tryCreate exec path data mode l s)) = ephemeral_nodes s
  /\ (calls (snd (tryCreate exec path data mode l s)) = calls s
      \/ exists k, calls (snd (tryCreate exec path data mode l s))
                   = calls s ++ [(k, zk_tryCreate path data mode)]).
Proof.
  unfold tryCreate, tryCreate_fault_cleanup, access, faultInjectionBefore,
    faultInjectionAfter, call_into_frame, keeper_call, invoke, run_cleanup,
    has_policy, push_ephemeral, with_policy, raise, catch_KeeperException,
    LOG_TRACE, when, try_catch, bind, gets, modify, frame, assign, ret, throw,
    hardware_result, Error_result, option_map.
  tryCreate_simp.
  destruct (keeper s) as [k|] eqn:Hk; tryCreate_simp.
  2:{ destruct (fault_policy s); tryCreate_leaf. }
  destruct (fault_policy s) as [fp|] eqn:Hfp; tryCreate_simp.
  - rewrite beforeOperation_eq. destruct (fires_before fp); tryCreate_simp.
    + tryCreate_leaf.
    + rewrite Hk.
      destruct (exec (zk_tryCreate path data mode) k (service s))
        as [[[code pc]|e] srv1]; tryCreate_simp.
      * destruct (isHardwareError code) eqn:Hh; tryCreate_simp.
        -- tryCreate_leaf.
        -- rewrite afterOperation_eq.
           destruct (fires_after (decided_before fp)); tryCreate_simp.
           ++ destruct (nonempty pc && is_ephemeral_mode mode) eqn:Hc; tryCreate_simp.
              ** rewrite Hk.
                 destruct (exec (zk_remove pc (-1)) k srv1) as [[[]|[]] ?];
                   tryCreate_leaf.
              ** tryCreate_leaf.
           ++ tryCreate_leaf.
      * destruct e; tryCreate_leaf.
  - rewrite Hk.
    destruct (exec (zk_tryCreate path data mode) k (service s))
      as [[[code pc]|e] srv1]; tryCreate_simp.
    + destruct (isHardwareError code) eqn:Hh; tryCreate_leaf.
    + destruct e; tryCreate_leaf.
Qed.

(** C10.  In every run of [tryCreate], whatever the client and the policy
    do: if the mode is not Ephemeral or EphemeralSequential, or the created
    path is empty, then nothing is added to the tracker and the clients
    received the create at most, no remove.  Further, on a proxy with a
    policy, the client there, the before-checkpoint not firing, and the real
    create returning a code that is no hardware error together with the
    created path (call the node ephemeral when that path is non-empty and the
    mode is Ephemeral or EphemeralSequential):
    - without an injected failure the real code is returned, and the path is
      added to the tracker exactly when the node is ephemeral;
    - with an injected after-failure on a node that is not ephemeral (a
      persistent mode), the caller is told OperationTimeout, the client
      received the create and nothing else, the service is as the create left
      it (the node remains), and nothing is tracked;
    - with an injected after-failure on an ephemeral node, the client
      received the create and then a remove of the created path, nothing is
      tracked, and the caller is told OperationTimeout (or whatever the
      remove threw that is no [KeeperException]). *)
Theorem tryCreate_compensates_and_tracks_ephemeral_nodes_only {K : Type}
  (exec : forall c : Call, KeeperId -> K -> outcome (Reply c) * K)
  (k : KeeperId) (fp : RandomFaultInjection) (path data : string) (mode : Z)
  (code : Error) (pc : string) (srv1 : K) (l : string) (s : State K) :
  (nonempty (snd (fst (tryCreate exec path data mode l s))) && is_ephemeral_mode mode
   = false ->
   ephemeral_nodes (snd (tryCreate exec path data mode l s)) = ephemeral_nodes s
   /\ (calls (snd (tryCreate exec path data mode l s)) = calls s
       \/ exists k', calls (snd (tryCreate exec path data mode l s))
                     = calls s ++ [(k', zk_tryCreate path data mode)]))
  /\ (is_ephemeral_mode mode = true
      <-> mode = CreateMode.Ephemeral \/ mode = CreateMode.EphemeralSequential)
  /\ (keeper s = Some k ->
      fault_policy s = Some fp ->
      fires_before fp = false ->
      exec (zk_tryCreate path data mode) k (service s) = (Return (code, pc), srv1) ->
      isHardwareError code = false ->
      (fires_after (decided_before fp) = false ->
       fst (tryCreate exec path data mode l s) = (Return code, pc)
       /\ calls (snd (tryCreate exec path data mode l s))
          = calls s ++ [(k, zk_tryCreate path data mode)]
       /\ service (snd (tryCreate exec path data mode l s)) = srv1
       /\ ephemeral_nodes (snd (tryCreate exec path data mode l s))
          = if nonempty pc && is_ephemeral_mode mode
            then ephemeral_nodes s ++ [pc]
            else ephemeral_nodes s)
      /\ (fires_after (decided_before fp) = true ->
          nonempty pc && is_ephemeral_mode mode = false ->
          fst (tryCreate exec path data mode l s) = (Throw OperationTimeout, pc)
          /\ calls (snd (tryCreate exec path data mode l s))
             = calls s ++ [(k, zk_tryCreate path data mode)]
          /\ service (snd (tryCreate exec path data mode l s)) = srv1
          /\ ephemeral_nodes (snd (tryCreate exec path data mode l s))
             = ephemeral_nodes s)
      /\ (fires_after (decided_before fp) = true ->
          nonempty pc && is_ephemeral_mode mode = true ->
          fst (tryCreate exec path data mode l s)
          = (match fst (exec (zk_remove pc (-1)) k srv1) with
             | Return _ | Throw (KeeperException _ _) => Throw OperationTimeout
             | Throw e => Throw e
             end, pc)
          /\ calls (snd (tryCreate exec path data mode l s))
             = calls s ++ [(k, zk_tryCreate path data mode); (k, zk_remove pc (-1))]
          /\ service (snd (tryCreate exec path data mode l s))
             = snd (exec (zk_remove pc (-1)) k srv1)
          /\ ephemeral_nodes (snd (tryCreate exec path data mode l s))
             = ephemeral_nodes s)).
Proof.
  split; [apply tryCreate_frame|].
  split; [apply is_ephemeral_mode_iff|].
  intros Hk Hfp Hb He Hh.
  split; [|split].
  - intros Ha.
    rewrite (tryCreate_passes exec k fp path data mode code pc srv1 l s
               Hk Hfp Hb He Hh Ha).
    destruct (nonempty pc && is_ephemeral_mode mode); cbn;
      rewrite ?app_nil_r; repeat split.
  - intros Ha Hc.
    rewrite (tryCreate_fails_without_removal exec k fp path data mode code pc srv1
               l s Hk Hfp Hb He Hh Ha Hc).
    cbn [fst snd].
    destruct (noted_frame (K:=K) "tryCreate" path ZOPERATIONTIMEOUT
                "Fault injection after operation"
                (decided fp (called k (zk_tryCreate path data mode) srv1 fp s)))
      as (-> & -> & -> & _).
    repeat split.
  - intros Ha Hc.
    destruct (tryCreate_fails_with_removal exec k fp path data mode code pc srv1
                l s Hk Hfp Hb He Hh Ha Hc) as (s' & -> & Hcalls & Hsrv & Heph).
    cbn [fst snd]. repeat split; assumption.
Qed.

(** C10 at work: a persistent node, the after-failure forced: the caller is
    told OperationTimeout, "/p" is on the service, nothing was removed,
    nothing is tracked. *)
Lemma tryCreate_compensates_and_tracks_ephemeral_nodes_only_witness :
  fst (tryCreate InMemory.exec "/p" "d" CreateMode.Persistent "" failing_after)
  = (Throw OperationTimeout, "/p")
  /\ calls (snd (tryCreate InMemory.exec "/p" "d" CreateMode.Persistent ""
                   failing_after))
     = [(0%nat, zk_tryCreate "/p" "d" CreateMode.Persistent)]
  /\ service (snd (tryCreate InMemory.exec "/p" "d" CreateMode.Persistent ""
                     failing_after))
     = InMemory.mkService ["/p"] [] true
  /\ ephemeral_nodes (snd (tryCreate InMemory.exec "/p" "d" CreateMode.Persistent ""
                             failing_after))
     = [].
Proof.
  apply (proj1 (proj2 (proj2 (proj2
           (tryCreate_compensates_and_tracks_ephemeral_nodes_only
              InMemory.exec 0%nat forced_after "/p" "d"
              CreateMode.Persistent ZOK "/p"
              (InMemory.mkService ["/p"] [] true) "" failing_after))
           eq_refl eq_refl eq_refl eq_refl eq_refl)));
    reflexivity.
Defined.

(** ** Hardware error codes returned by the real client *)

Section HardwareResults.

Context {K : Type}.
Variable exec : forall c : Call, KeeperId -> K -> outcome (Reply c) * K.

Lemma entered_frame (inject_failure_before_op : bool) (s : State K) :
  keeper (entered inject_failure_before_op s) = keeper s
  /\ service (entered inject_failure_before_op s) = service s
  /\ calls (entered inject_failure_before_op s) = calls s
  /\ ephemeral_nodes (entered inject_failure_before_op s) = ephemeral_nodes s.
Proof.
  unfold entered, drew_before.
  destruct inject_failure_before_op; [destruct (fault_policy s)|]; repeat split.
Qed.

Lemma keeper_call_entered {L} (inject_failure_before_op : bool) (c : Call)
  (k : KeeperId) (r : Reply c) (srv1 : K) (l : L) (s : State K) :
  keeper s = Some k ->
  exec c k (service s) = (Return r, srv1) ->
  keeper_call exec c l (entered inject_failure_before_op s)
  = (Return r, l, received k c srv1 (entered inject_failure_before_op s)).
Proof.
  intros Hk He.
  destruct (entered_frame inject_failure_before_op s) as (Hk' & Hs' & _).
  rewrite (keeper_call_eq exec c k) by (rewrite Hk'; exact Hk).
  rewrite Hs', He. reflexivity.
Qed.



End HardwareResults.


(** ** A proxy without fault policy *)

Lemma createInstance_without_policy (randomSeed : Z)
  (bernoulli : Q -> Z -> nat -> bool) (probability : Q) (seed_ : Z)
  (zookeeper : option KeeperId) (name_ : string) (logger_ : bool) :
  (probability <= 0)%Q ->
  createInstance randomSeed bernoulli probability seed_ zookeeper name_ logger_
  = mkProxy zookeeper None None "" false 0 [].
Proof.
  intros Hp. unfold createInstance, Qlt_bool.
  assert (H0 : Qle_bool probability 0 = true) by (apply Qle_bool_iff; exact Hp).
  destruct (Qle_bool 0 probability) eqn:E0; cbn [negb].
  - destruct (Qle_bool probability 1) eqn:E1; cbn [negb].
    + rewrite H0. reflexivity.
    + exfalso. apply Qle_bool_iff in E0.
      assert (H1 : Qle_bool probability 1 = true).
      { apply Qle_bool_iff. apply (Qle_trans _ 0); [exact Hp | discriminate]. }
      rewrite H1 in E1. discriminate.
  - reflexivity.
Qed.

(** X1.  Pure forwarding, where it holds.  For a probability of zero or less
    [createInstance] builds a proxy with no policy and no logger.  On a proxy
    with no policy and a client, whatever the instance of [access]: when the
    real call returns, its result, its frame and its state are those of the
    call (nothing is drawn, logged or tracked by [access]); when it throws a
    [KeeperException], nothing else happens than the catch block: the
    exception is rethrown, except that an operation whose result is the
    error code returns every code that is no hardware error. *)
Theorem without_policy_access_forwards {K L R : Type} (rt : ResultType R)
  (no_throw_access inject_failure_before_op inject_failure_after_op : bool)
  (func_name path : string) (operation : M K L R)
  (fault_after_op_cleanup : option (R -> M K L unit))
  (fault_before_op_cleanup : option (M K L unit))
  (k : KeeperId) (l : L) (s : State K) :
  keeper s = Some k ->
  fault_policy s = None ->
  (forall res l2 s2,
     operation l s = (Return res, l2, s2) ->
     fault_policy s2 = None ->
     access rt no_throw_access inject_failure_before_op inject_failure_after_op
       func_name path operation fault_after_op_cleanup fault_before_op_cleanup l s
     = (Return res, l2, s2))
  /\ (forall code message l2 s2,
      operation l s = (Throw (KeeperException code message), l2, s2) ->
      access rt no_throw_access inject_failure_before_op inject_failure_after_op
        func_name path operation fault_after_op_cleanup fault_before_op_cleanup l s
      = (surfaced rt no_throw_access code message, l2,
         noted func_name path code message s2))
  /\ (forall code message,
      surfaced (@is_other R) no_throw_access code message
      = Throw (KeeperException code message))
  /\ (forall code message,
      isHardwareError code = false ->
      surfaced Error_result false code message = Return code)
  /\ (forall randomSeed bernoulli probability seed_ zookeeper name_ logger_,
      (probability <= 0)%Q ->
      createInstance randomSeed bernoulli probability seed_ zookeeper name_ logger_
      = mkProxy zookeeper None None "" false 0 []).
Proof.
  intros Hk Hp.
  assert (He : entered inject_failure_before_op s = s).
  { unfold entered, drew_before. rewrite Hp. destruct inject_failure_before_op;
      reflexivity. }
  assert (Hb : inject_failure_before_op && before_fires s = false).
  { unfold before_fires. rewrite Hp. apply andb_false_r. }
  split; [|split; [|split; [|split]]].
  - intros res l2 s2 Ho Hp2.
    destruct (hardware_result rt res) eqn:Hh.
    + apply (access_hardware_result rt _ _ _ _ _ _ _ _ k); try assumption.
      rewrite He. exact Ho.
    + assert (Hl : left inject_failure_after_op s2 = s2).
      { unfold left, drew_after. rewrite Hp2.
        destruct inject_failure_after_op; reflexivity. }
      rewrite <- Hl at 1.
      apply (access_passes rt _ _ _ _ _ _ _ _ k); try assumption.
      * rewrite He. exact Ho.
      * unfold after_fires. rewrite Hp2. apply andb_false_r.
  - intros code message l2 s2 Ho.
    apply (access_operation_throws rt _ _ _ _ _ _ _ _ k); try assumption.
    rewrite He. exact Ho.
  - reflexivity.
  - intros code message Hh. unfold surfaced, Error_result. rewrite Hh. reflexivity.
  - apply createInstance_without_policy.
Qed.

(** X1 at work: [exists] on the proxy built for probability 0. *)
Lemma without_policy_access_forwards_witness :
  exists_ (L:=unit) InMemory.exec "/acl" tt
    (InMemory.start zero_probability_proxy guarded)
  = (Return true, tt,
     received 0%nat (zk_exists "/acl") guarded
       (InMemory.start zero_probability_proxy guarded)).
Proof.
  apply (proj1 (without_policy_access_forwards is_other false true true
                  "exists" "/acl" (keeper_call InMemory.exec (zk_exists "/acl"))
                  None None 0%nat tt
                  (InMemory.start zero_probability_proxy guarded)
                  eq_refl eq_refl));
    reflexivity.
Defined.

(** ** Asynchronous operations failed after the request *)

Section AsyncAfter.

Context {K : Type}.
Variable exec : forall c : Call, KeeperId -> K -> outcome (Reply c) * K.

Lemma with_policy_after {F : Type} (l : F) (s : State K) :
  with_policy false afterOperationNoThrow l s
  = (Return (after_fires s), l, drew_after s).
Proof.
  unfold with_policy, after_fires, drew_after.
  destruct (fault_policy s) as [fp|]; [|reflexivity].
  rewrite afterOperationNoThrow_eq. reflexivity.
Qed.

Lemma drew_after_logger (s : State K) :
  logger (drew_after s) = logger s /\ seed (drew_after s) = seed s.
Proof. unfold drew_after. destruct (fault_policy s); split; reflexivity. Qed.

(** The start of the callbacks of [asyncExists], [asyncTryGet] and
    [asyncTryRemove]: the after-decision and, when it fires and there is a
    logger, the line that names the captured path. *)
Lemma after_decision_in_callback {A} (now : lifetime) (path : string)
  (line : Z -> string -> LogLine) (rest : M K (promise A) unit)
  (p : promise A) (s' : State K) :
  (failed <- injectFailureAfterOp ;;
   if failed then LOG_TRACE_local now path line else rest) p s'
  = if after_fires s'
    then (if logger s'
          then match now with
               | during_the_call =>
                   (Return tt, set_exception OperationTimeout,
                    logged (line (seed s') path) (drew_after s'))
               | after_the_return =>
                   (Throw (std_exception "use of a local after the return"),
                    set_exception OperationTimeout, drew_after s')
               end
          else (Return tt, set_exception OperationTimeout, drew_after s'))
    else rest p (drew_after s').
Proof.
  unfold bind at 1. unfold injectFailureAfterOp. unfold bind at 1.
  rewrite with_policy_after. destruct (after_fires s') eqn:Ha; [|reflexivity].
  unfold bind at 1. unfold assign at 1. unfold ret at 1.
  unfold LOG_TRACE_local, bind, gets, local, LOG_TRACE, ret, throw.
  destruct (drew_after_logger s') as [-> Hseed].
  destruct (logger s') eqn:Hl; [|reflexivity].
  destruct now; [|reflexivity].
  destruct (drew_after_logger s') as [-> ->]. rewrite Hl. reflexivity.
Qed.

Variables (k : KeeperId) (path : string) (version : Z) (srv1 : K) (s : State K).

Hypothesis Hk : keeper s = Some k.
Hypothesis Hb : before_fires s = false.
Hypothesis He : exec (impl_remove path version) k (service s) = (Return tt, srv1).

Lemma asyncTryRemoveNoThrow_issued :
  exists cb,
    asyncTryRemoveNoThrow (L:=unit) exec path version tt s
    = (Return (mkAsync pending (Some cb)), tt,
       received k (impl_remove path version) srv1 (drew_before s))
    /\ forall now response p s',
         cb now response p s'
         = (Return tt,
            if after_fires s'
            then set_value (RemoveResponse ZOPERATIONTIMEOUT)
            else set_value response,
            if after_fires s' && logger s'
            then logged (injected_fault_after (seed s') "asyncTryRemoveNoThrow" path)
                   (drew_after s')
            else drew_after s').
Proof.
  eexists. split.
  - unfold asyncTryRemoveNoThrow, returning_future, scope.
    unfold bind at 1. unfold bind at 1. unfold null_or_before_fires.
    unfold bind at 1. unfold gets at 1. rewrite Hk.
    rewrite with_policy_before, Hb. unfold bind at 1.
    rewrite (keeper_call_entered exec true (impl_remove path version) k tt srv1
               pending s Hk He).
    reflexivity.
  - intros now response p s'. cbn beta. unfold bind at 1.
    rewrite with_policy_after. destruct (after_fires s') eqn:Ha; [|reflexivity].
    unfold bind, assign. rewrite LOG_TRACE_eq.
    destruct (drew_after_logger s') as [-> ->]. destruct (logger s'); reflexivity.
Qed.

Lemma asyncTryRemove_issued :
  exists cb,
    asyncTryRemove (L:=unit) exec path version tt s
    = (Return (mkAsync pending (Some cb)), tt,
       received k (impl_remove path version) srv1 (drew_before s))
    /\ forall response p s',
         snd (fst (cb during_the_call response p s'))
         = (if after_fires s' then set_exception OperationTimeout
            else if negb (Error_eqb (error response) ZOK)
                    && negb (Error_eqb (error response) ZNONODE)
                    && negb (Error_eqb (error response) ZBADVERSION)
                    && negb (Error_eqb (error response) ZNOTEMPTY)
                 then set_exception (fromPath (error response) path)
                 else set_value response)
         /\ (after_fires s' = true -> logger s' = false ->
             fst (cb after_the_return response p s')
             = (Return tt, set_exception OperationTimeout))
         /\ (after_fires s' = false ->
             negb (Error_eqb (error response) ZOK)
             && negb (Error_eqb (error response) ZNONODE)
             && negb (Error_eqb (error response) ZBADVERSION)
             && negb (Error_eqb (error response) ZNOTEMPTY) = false ->
             fst (cb after_the_return response p s')
             = (Return tt, set_value response)).
Proof.
  eexists. split.
  - unfold asyncTryRemove, returning_future, scope.
    unfold bind at 1. unfold bind at 1. unfold injectFailureBeforeOp.
    unfold bind at 1. unfold gets at 1. rewrite Hk.
    unfold bind at 1. rewrite with_policy_before, Hb. unfold ret at 1.
    unfold bind at 1.
    rewrite (keeper_call_entered exec true (impl_remove path version) k tt srv1
               pending s Hk He).
    reflexivity.
  - intros response p s'. cbn beta. split; [|split].
    + rewrite after_decision_in_callback.
      destruct (after_fires s'); [destruct (logger s'); reflexivity|].
      destruct (negb (Error_eqb (error response) ZOK)
                && negb (Error_eqb (error response) ZNONODE)
                && negb (Error_eqb (error response) ZBADVERSION)
                && negb (Error_eqb (error response) ZNOTEMPTY)); reflexivity.
    + intros Ha Hl. rewrite after_decision_in_callback, Ha, Hl. reflexivity.
    + intros Ha Hw. rewrite after_decision_in_callback, Ha, Hw. reflexivity.
Qed.

End AsyncAfter.

(** X2.  The after-checkpoint of an asynchronous remove.  When the request was
    issued (client there, before-checkpoint not firing), the call returns a
    pending future and the client holds a callback.  The callback of
    [asyncTryRemoveNoThrow], whenever it runs, makes one after-decision; if
    that fires the promise is given the value OperationTimeout whatever the
    server answered, otherwise the response.  The callback of
    [asyncTryRemove] reads the by-value parameter [path] through a reference.
    Run while the call is in progress it makes the after-decision, rejects
    the promise with OperationTimeout if that fires, and otherwise passes
    the response on when its error is one of ZOK, ZNONODE, ZBADVERSION,
    ZNOTEMPTY and rejects the promise with the error and the path when it is
    not.  Run after the call returned, it has a defined result only where it
    does not read [path]: the promise is rejected with OperationTimeout when
    the after-decision fires and there is no logger, and the response is
    passed on when the decision does not fire and the error is one of the
    four; in the other cases (a line to log, an error to reject with) it
    reads [path] after its end, and nothing is stated. *)
Theorem async_remove_failed_after_the_request {K : Type}
  (exec : forall c : Call, KeeperId -> K -> outcome (Reply c) * K)
  (k : KeeperId) (path : string) (version : Z) (srv1 : K) (s : State K) :
  keeper s = Some k ->
  before_fires s = false ->
  exec (impl_remove path version) k (service s) = (Return tt, srv1) ->
  (exists cb,
     asyncTryRemoveNoThrow (L:=unit) exec path version tt s
     = (Return (mkAsync pending (Some cb)), tt,
        received k (impl_remove path version) srv1 (drew_before s))
     /\ forall now response p s',
          snd (fst (cb now response p s'))
          = (if after_fires s'
             then set_value (RemoveResponse ZOPERATIONTIMEOUT)
             else set_value response)
          /\ fault_policy (snd (cb now response p s')) = fault_policy (drew_after s'))
  /\ (exists cb,
        asyncTryRemove (L:=unit) exec path version tt s
        = (Return (mkAsync pending (Some cb)), tt,
           received k (impl_remove path version) srv1 (drew_before s))
        /\ forall response p s',
             snd (fst (cb during_the_call response p s'))
             = (if after_fires s' then set_exception OperationTimeout
                else if negb (Error_eqb (error response) ZOK)
                        && negb (Error_eqb (error response) ZNONODE)
                        && negb (Error_eqb (error response) ZBADVERSION)
                        && negb (Error_eqb (error response) ZNOTEMPTY)
                     then set_exception (fromPath (error response) path)
                     else set_value response)
             /\ (after_fires s' = true -> logger s' = false ->
                 fst (cb after_the_return response p s')
                 = (Return tt, set_exception OperationTimeout))
             /\ (after_fires s' = false ->
                 negb (Error_eqb (error response) ZOK)
                 && negb (Error_eqb (error response) ZNONODE)
                 && negb (Error_eqb (error response) ZBADVERSION)
                 && negb (Error_eqb (error response) ZNOTEMPTY) = false ->
                 fst (cb after_the_return response p s')
                 = (Return tt, set_value response))).
Proof.
  intros Hk Hb He. split.
  - destruct (asyncTryRemoveNoThrow_issued exec k path version srv1 s Hk Hb He)
      as (cb & Hrun & Hcb).
    exists cb. split; [exact Hrun|]. intros now response p s'.
    rewrite Hcb. cbn [fst snd].
    split; [reflexivity|]. destruct (after_fires s' && logger s'); reflexivity.
  - apply (asyncTryRemove_issued exec k path version srv1 s Hk Hb He).
Qed.

(** X2 at work: the remove reached the client, the answer is ZOK, and
    the future holds OperationTimeout, also when the answer comes after the
    call returned. *)
Lemma async_remove_failed_after_the_request_witness :
  completed (asyncTryRemoveNoThrow (L:=unit) InMemory.exec "/a" (-1) tt failing_after)
    (RemoveResponse ZOK)
  = set_value (RemoveResponse ZOPERATIONTIMEOUT)
  /\ completed_later
       (asyncTryRemoveNoThrow (L:=unit) InMemory.exec "/a" (-1) tt failing_after)
       (RemoveResponse ZOK)
     = Some (set_value (RemoveResponse ZOPERATIONTIMEOUT)).
Proof.
  destruct (async_remove_failed_after_the_request InMemory.exec 0%nat "/a" (-1)
              InMemory.empty failing_after eq_refl eq_refl eq_refl)
    as [(cb & Hrun & Hcb) _].
  unfold completed, completed_later. rewrite Hrun. cbn [callback].
  pose proof (proj1 (Hcb during_the_call (RemoveResponse ZOK) pending
                       (received 0%nat (impl_remove "/a" (-1)) InMemory.empty
                          (drew_before failing_after)))) as H1.
  pose proof (proj1 (Hcb after_the_return (RemoveResponse ZOK) pending
                       (received 0%nat (impl_remove "/a" (-1)) InMemory.empty
                          (drew_before failing_after)))) as H2.
  split; [exact H1|].
  destruct (cb after_the_return (RemoveResponse ZOK) pending
              (received 0%nat (impl_remove "/a" (-1)) InMemory.empty
                 (drew_before failing_after))) as [[[u|e] p'] s''] eqn:Hc.
  - cbn [fst snd] in H2. rewrite H2. reflexivity.
  - exfalso.
    destruct (asyncTryRemoveNoThrow_issued InMemory.exec 0%nat "/a" (-1)
                InMemory.empty failing_after eq_refl eq_refl eq_refl)
      as (cb' & Hrun' & Hcb').
    rewrite Hrun in Hrun'. injection Hrun' as Hcbeq. subst cb'.
    rewrite Hcb' in Hc. discriminate Hc.
Defined.

(** ** Transactions that go through *)

Section Tracking.

Context {K : Type}.
Variable exec : forall c : Call, KeeperId -> K -> outcome (Reply c) * K.

Lemma pushes_run {L} (paths : list string) :
  forall (l : L) (s : State K),
  for_each paths push_ephemeral l s
  = (Return tt, l, set_ephemeral_nodes (ephemeral_nodes s ++ paths) s).
Proof.
  induction paths as [|p paths IH]; intros l s.
  - cbn. rewrite app_nil_r. destruct s as [[] ? ? ?]. reflexivity.
  - cbn [for_each]. unfold bind at 1. unfold push_ephemeral at 1, modify.
    rewrite IH. cbn. rewrite <- app_assoc. reflexivity.
Qed.

(** The tracking step at the end of the three transaction forms. *)
Lemma track_when {L} (b : bool) (method : string) (requests : Requests)
  (responses : Responses) (l : L) (s : State K) :
  answers requests responses = true ->
  when b (doForEachCreatedEphemeralNode method requests responses push_ephemeral) l s
  = (Return tt, l,
     if b
     then set_ephemeral_nodes
            (ephemeral_nodes s ++ created_paths requests responses) s
     else s).
Proof.
  intros Ha. destruct b; cbn [when]; [|reflexivity].
  rewrite doForEachCreatedEphemeralNode_answers by exact Ha.
  apply pushes_run.
Qed.

Lemma tracked_frame (paths : list string) (s : State K) :
  ephemeral_nodes (tracked paths s)
  = match fault_policy s with
    | Some _ => ephemeral_nodes s ++ paths
    | None => ephemeral_nodes s
    end
  /\ calls (tracked paths s) = calls s
  /\ service (tracked paths s) = service s
  /\ log (tracked paths s) = log s
  /\ keeper_prev (tracked paths s) = keeper_prev s.
Proof. unfold tracked. destruct (fault_policy s); repeat split. Qed.

Lemma passed_frame (k : KeeperId) (c : Call) (srv1 : K) (s : State K) :
  after_fires (received k c srv1 s) = after_fires s
  /\ drew_after (received k c srv1 s) = received k c srv1 (drew_after s)
  /\ received k c srv1 (drew_before s) = drew_before (received k c srv1 s)
  /\ after_fires (drew_before (received k c srv1 s)) = after_fires (drew_before s).
Proof.
  unfold after_fires, drew_after, drew_before. cbn.
  destruct (fault_policy s); repeat split.
Qed.

(** X3.  A transaction that goes through.  The client there and no
    checkpoint firing.  When the real call returns a batch that answers the
    requests (one response per request, a create response for every ephemeral
    create): [multi], and [tryMulti] and [tryMultiNoThrow] when the real call
    returns ZOK, return the real result and leave the real responses; the
    client received that one call; and on a proxy with a policy the tracker
    has grown by the paths the batch created for its ephemeral creates, in
    request order (without a policy it has not changed).  When the real
    [tryMulti] or [tryMultiNoThrow] returns another code that is no hardware
    error (the batch failed), whatever the responses it leaves, that code is
    returned with those responses and nothing is tracked. *)
Theorem committed_batch_is_tracked {L : Type}
  (k : KeeperId) (requests : Requests) (responses responses0 : Responses)
  (srv1 : K) (l : L) (s : State K) :
  keeper s = Some k ->
  (answers requests responses = true ->
   before_fires s = false ->
   after_fires (drew_before s) = false ->
   exec (zk_multi requests) k (service s) = (Return responses, srv1) ->
   multi exec requests l s
   = (Return responses, l,
      tracked (created_paths requests responses)
        (received k (zk_multi requests) srv1 (drew_after (drew_before s)))))
  /\ (answers requests responses = true ->
      before_fires s = false ->
      after_fires (drew_before s) = false ->
      exec (zk_tryMulti requests) k (service s) = (Return (ZOK, responses), srv1) ->
      tryMulti exec requests responses0 s
      = (Return ZOK, responses,
         tracked (created_paths requests responses)
           (received k (zk_tryMulti requests) srv1 (drew_after (drew_before s)))))
  /\ (answers requests responses = true ->
      after_fires s = false ->
      exec (zk_tryMultiNoThrow requests) k (service s)
      = (Return (ZOK, responses), srv1) ->
      tryMultiNoThrow exec requests responses0 s
      = (Return ZOK, responses,
         tracked (created_paths requests responses)
           (received k (zk_tryMultiNoThrow requests) srv1 (drew_after s))))
  /\ (forall (code : Error) (failed_responses : Responses),
      before_fires s = false ->
      after_fires (drew_before s) = false ->
      exec (zk_tryMulti requests) k (service s)
      = (Return (code, failed_responses), srv1) ->
      Error_eqb ZOK code = false ->
      isHardwareError code = false ->
      tryMulti exec requests responses0 s
      = (Return code, failed_responses,
         received k (zk_tryMulti requests) srv1 (drew_after (drew_before s))))
  /\ (forall (code : Error) (failed_responses : Responses),
      after_fires s = false ->
      exec (zk_tryMultiNoThrow requests) k (service s)
      = (Return (code, failed_responses), srv1) ->
      Error_eqb ZOK code = false ->
      isHardwareError code = false ->
      tryMultiNoThrow exec requests responses0 s
      = (Return code, failed_responses,
         received k (zk_tryMultiNoThrow requests) srv1 (drew_after s)))
  /\ (forall (paths : list string) (s' : State K),
      ephemeral_nodes (tracked paths s')
      = match fault_policy s' with
        | Some _ => ephemeral_nodes s' ++ paths
        | None => ephemeral_nodes s'
        end
      /\ calls (tracked paths s') = calls s').
Proof.
  intros Hk.
  split; [|split; [|split; [|split; [|split]]]].
  - intros Hans Hb Ha He. unfold multi.
    rewrite (bind_returned _ _ responses l l s
               (drew_after (received k (zk_multi requests) srv1 (drew_before s)))).
    + unfold bind at 1. unfold has_policy at 1, gets.
      unfold bind at 1. rewrite track_when by exact Hans.
      destruct (passed_frame k (zk_multi requests) srv1 (drew_before s))
        as (_ & -> & _).
      unfold tracked. cbn.
      destruct (fault_policy (drew_after (drew_before s))); reflexivity.
    + apply (access_passes is_other false true true _ _ _ _ None k responses l l s
               (received k (zk_multi requests) srv1 (drew_before s)));
        [exact Hk | exact Hb | | reflexivity | ].
      * apply (keeper_call_entered exec true (zk_multi requests)); assumption.
      * destruct (passed_frame k (zk_multi requests) srv1 (drew_before s))
          as (-> & _). rewrite Ha. reflexivity.
  - intros Hans Hb Ha He. unfold tryMulti.
    rewrite (bind_returned _ _ ZOK responses0 responses s
               (drew_after (received k (zk_tryMulti requests) srv1 (drew_before s)))).
    + unfold bind at 1. unfold has_policy at 1, gets.
      unfold bind at 1. unfold frame at 1. unfold bind at 1.
      cbn [Error_eqb]. rewrite track_when by exact Hans.
      destruct (passed_frame k (zk_tryMulti requests) srv1 (drew_before s))
        as (_ & -> & _).
      unfold tracked. cbn.
      destruct (fault_policy (drew_after (drew_before s))); reflexivity.
    + apply (access_passes Error_result false true true _ _ _ _ _ k ZOK
               responses0 responses s
               (received k (zk_tryMulti requests) srv1 (drew_before s)));
        [exact Hk | exact Hb | | reflexivity | ].
      * unfold call_into_frame.
        rewrite (bind_returned _ _ (ZOK, responses) responses0 responses0
                   (entered true s)
                   (received k (zk_tryMulti requests) srv1 (entered true s)))
          by (apply (keeper_call_entered exec true (zk_tryMulti requests));
              assumption).
        reflexivity.
      * destruct (passed_frame k (zk_tryMulti requests) srv1 (drew_before s))
          as (-> & _). rewrite Ha. reflexivity.
  - intros Hans Ha He. unfold tryMultiNoThrow.
    rewrite (bind_returned _ _ ZOK responses0 responses s
               (drew_after (received k (zk_tryMultiNoThrow requests) srv1 s))).
    + unfold bind at 1. unfold has_policy at 1, gets.
      unfold bind at 1. unfold frame at 1. unfold bind at 1.
      cbn [Error_eqb]. rewrite track_when by exact Hans.
      destruct (passed_frame k (zk_tryMultiNoThrow requests) srv1 s)
        as (_ & -> & _).
      unfold tracked. cbn.
      destruct (fault_policy (drew_after s)); reflexivity.
    + apply (access_passes Error_result true false true _ _ _ _ _ k ZOK
               responses0 responses s
               (received k (zk_tryMultiNoThrow requests) srv1 s));
        [exact Hk | reflexivity | | reflexivity | ].
      * unfold call_into_frame.
        rewrite (bind_returned _ _ (ZOK, responses) responses0 responses0
                   (entered false s)
                   (received k (zk_tryMultiNoThrow requests) srv1 (entered false s)))
          by (apply (keeper_call_entered exec false (zk_tryMultiNoThrow requests));
              assumption).
        reflexivity.
      * destruct (passed_frame k (zk_tryMultiNoThrow requests) srv1 s)
          as (-> & _). rewrite Ha. reflexivity.
  - intros code failed_responses Hb Ha He Hnz Hh. unfold tryMulti.
    rewrite (bind_returned _ _ code responses0 failed_responses s
               (drew_after (received k (zk_tryMulti requests) srv1 (drew_before s)))).
    + unfold bind, has_policy, gets, frame. rewrite Hnz, andb_false_r.
      destruct (passed_frame k (zk_tryMulti requests) srv1 (drew_before s))
        as (_ & -> & _).
      reflexivity.
    + apply (access_passes Error_result false true true _ _ _ _ _ k code
               responses0 failed_responses s
               (received k (zk_tryMulti requests) srv1 (drew_before s)));
        [exact Hk | exact Hb | | exact Hh | ].
      * unfold call_into_frame.
        rewrite (bind_returned _ _ (code, failed_responses) responses0 responses0
                   (entered true s)
                   (received k (zk_tryMulti requests) srv1 (entered true s)))
          by (apply (keeper_call_entered exec true (zk_tryMulti requests));
              assumption).
        reflexivity.
      * destruct (passed_frame k (zk_tryMulti requests) srv1 (drew_before s))
          as (-> & _). rewrite Ha. reflexivity.
  - intros code failed_responses Ha He Hnz Hh. unfold tryMultiNoThrow.
    rewrite (bind_returned _ _ code responses0 failed_responses s
               (drew_after (received k (zk_tryMultiNoThrow requests) srv1 s))).
    + unfold bind, has_policy, gets, frame. rewrite Hnz, andb_false_r.
      destruct (passed_frame k (zk_tryMultiNoThrow requests) srv1 s)
        as (_ & -> & _).
      reflexivity.
    + apply (access_passes Error_result true false true _ _ _ _ _ k code
               responses0 failed_responses s
               (received k (zk_tryMultiNoThrow requests) srv1 s));
        [exact Hk | reflexivity | | exact Hh | ].
      * unfold call_into_frame.
        rewrite (bind_returned _ _ (code, failed_responses) responses0 responses0
                   (entered false s)
                   (received k (zk_tryMultiNoThrow requests) srv1 (entered false s)))
          by (apply (keeper_call_entered exec false (zk_tryMultiNoThrow requests));
              assumption).
        reflexivity.
      * destruct (passed_frame k (zk_tryMultiNoThrow requests) srv1 s)
          as (-> & _). rewrite Ha. reflexivity.
  - intros paths s'. destruct (tracked_frame paths s') as (H1 & H2 & _).
    split; assumption.
Qed.

End Tracking.

(** X3 at work: both nodes are created and tracked. *)
Lemma committed_batch_is_tracked_witness :
  fst (multi (L:=unit) InMemory.exec create_set_create tt running)
  = (Return [CreateResponse ZOK "/a"; SetResponse ZOK; CreateResponse ZOK "/b"], tt)
  /\ ephemeral_nodes (snd (multi (L:=unit) InMemory.exec create_set_create tt running))
     = ["/a"; "/b"]
  /\ calls (snd (multi (L:=unit) InMemory.exec create_set_create tt running))
     = [(0%nat, zk_multi create_set_create)].
Proof.
  rewrite (proj1 (committed_batch_is_tracked InMemory.exec 0%nat create_set_create
                    [CreateResponse ZOK "/a"; SetResponse ZOK; CreateResponse ZOK "/b"]
                    [] (InMemory.mkService ["/a"; "/b"] [] true) tt running
                    eq_refl)
             eq_refl eq_refl eq_refl eq_refl).
  repeat split.
Defined.

(** ** The try forms of a transaction failed after the commit *)

Section TryMultiCompensation.

Context {K : Type}.
Variable exec : forall c : Call, KeeperId -> K -> outcome (Reply c) * K.

Variables (k : KeeperId) (fp : RandomFaultInjection).
Variables (requests : Requests) (responses responses0 : Responses).
Variables (srv1 srv2 : K) (s : State K).

Hypothesis Hk : keeper s = Some k.
Hypothesis Hfp : fault_policy s = Some fp.
Hypothesis Hans : answers requests responses = true.
Hypothesis Hrm :
  removed_all exec k (created_paths requests responses) srv1 = Some srv2.

(** The cleanup callback of the try forms, on a committed batch. *)
Lemma try_multi_cleanup (method : string) (c : Call) (fp' : RandomFaultInjection) :
  (if Error_eqb ZOK ZOK
   then (rs <- frame ;; faultInjectionPostAction exec method requests rs)
   else ret tt) responses
    (set_fault_policy (Some fp') (received k c srv1 s))
  = (Return tt, responses,
     received_all k
       (map (fun p => zk_remove p (-1)) (created_paths requests responses)) srv2
       (set_fault_policy (Some fp') (received k c srv1 s))).
Proof.
  cbn [Error_eqb]. unfold bind at 1. unfold frame at 1.
  unfold faultInjectionPostAction.
  rewrite doForEachCreatedEphemeralNode_answers by exact Hans.
  apply removes_run; [exact Hk | exact Hrm].
Qed.

Lemma tryMultiNoThrow_compensated :
  fires_after fp = true ->
  exec (zk_tryMultiNoThrow requests) k (service s) = (Return (ZOK, responses), srv1) ->
  tryMultiNoThrow exec requests responses0 s
  = (Return ZOPERATIONTIMEOUT, responses,
     noted "tryMultiNoThrow" (front_path requests) ZOPERATIONTIMEOUT
       "Fault injection after operation"
       (received_all k
          (map (fun p => zk_remove p (-1)) (created_paths requests responses)) srv2
          (set_fault_policy (Some (decided_after fp))
             (received k (zk_tryMultiNoThrow requests) srv1 s)))).
Proof.
  intros Ha He. unfold tryMultiNoThrow.
  rewrite (bind_returned _ _ ZOPERATIONTIMEOUT responses0 responses s
             (noted "tryMultiNoThrow" (front_path requests) ZOPERATIONTIMEOUT
                "Fault injection after operation"
                (received_all k
                   (map (fun p => zk_remove p (-1))
                      (created_paths requests responses)) srv2
                   (set_fault_policy (Some (decided_after fp))
                      (received k (zk_tryMultiNoThrow requests) srv1 s))))).
  - unfold bind, has_policy, gets, frame. cbn [Error_eqb]. rewrite andb_false_r.
    reflexivity.
  - apply (access_after_fires Error_result true false true _ _ _ _ _ k ZOK
             responses0 responses responses s
             (received k (zk_tryMultiNoThrow requests) srv1 s));
      [exact Hk | reflexivity | | reflexivity | reflexivity | | ].
    + unfold call_into_frame.
      rewrite (bind_returned _ _ (ZOK, responses) responses0 responses0
                 (entered false s)
                 (received k (zk_tryMultiNoThrow requests) srv1 (entered false s)))
        by (apply (keeper_call_entered exec false (zk_tryMultiNoThrow requests));
            assumption).
      reflexivity.
    + unfold after_fires. cbn. rewrite Hfp. exact Ha.
    + unfold drew_after. cbn [fault_policy received this]. rewrite Hfp.
      cbn [option_map run_cleanup].
      apply (try_multi_cleanup "tryMultiNoThrow").
Qed.

Lemma tryMulti_compensated :
  fires_before fp = false ->
  fires_after (decided_before fp) = true ->
  exec (zk_tryMulti requests) k (service s) = (Return (ZOK, responses), srv1) ->
  tryMulti exec requests responses0 s
  = (Throw OperationTimeout, responses,
     noted "tryMulti" (front_path requests) ZOPERATIONTIMEOUT
       "Fault injection after operation"
       (received_all k
          (map (fun p => zk_remove p (-1)) (created_paths requests responses)) srv2
          (set_fault_policy (Some (decided_after (decided_before fp)))
             (received k (zk_tryMulti requests) srv1
                (set_fault_policy (Some (decided_before fp)) s))))).
Proof.
  intros Hb Ha He. unfold tryMulti. apply bind_thrown.
  assert (Hs1 : drew_before s = set_fault_policy (Some (decided_before fp)) s).
  { unfold drew_before. rewrite Hfp. reflexivity. }
  rewrite <- Hs1.
  apply (access_after_fires Error_result false true true _ _ _ _ _ k ZOK
           responses0 responses responses s
           (received k (zk_tryMulti requests) srv1 (drew_before s)));
    [exact Hk | | | reflexivity | reflexivity | | ].
  - unfold before_fires. rewrite Hfp. exact Hb.
  - unfold call_into_frame.
    rewrite (bind_returned _ _ (ZOK, responses) responses0 responses0
               (entered true s)
               (received k (zk_tryMulti requests) srv1 (entered true s)))
      by (apply (keeper_call_entered exec true (zk_tryMulti requests));
          assumption).
    reflexivity.
  - rewrite Hs1. unfold after_fires. cbn. exact Ha.
  - rewrite Hs1. unfold drew_after. cbn [fault_policy received this set_fault_policy
      set_this]. cbn [option_map run_cleanup].
    cbn [Error_eqb]. unfold bind at 1. unfold frame at 1.
    unfold faultInjectionPostAction.
    rewrite doForEachCreatedEphemeralNode_answers by exact Hans.
    apply removes_run; [exact Hk | exact Hrm].
Qed.

End TryMultiCompensation.

(** X4.  The try forms of a transaction, failed by the after-checkpoint
    after a commit (the real call returned ZOK with a batch that answers the
    requests, and every compensating remove returns normally).
    [tryMultiNoThrow] returns OperationTimeout as a value, [tryMulti] throws
    it.  Either way [responses] is left as the real client filled it (the
    real responses of the committed batch, not error responses), the client
    received after the transaction one remove for each ephemeral path
    created, in request order, and nothing is tracked. *)
Theorem try_transaction_failed_after_commit {K : Type}
  (exec : forall c : Call, KeeperId -> K -> outcome (Reply c) * K)
  (k : KeeperId) (fp : RandomFaultInjection)
  (requests : Requests) (responses responses0 : Responses)
  (srv1 srv2 : K) (s : State K) :
  keeper s = Some k ->
  fault_policy s = Some fp ->
  answers requests responses = true ->
  removed_all exec k (created_paths requests responses) srv1 = Some srv2 ->
  (fires_after fp = true ->
   exec (zk_tryMultiNoThrow requests) k (service s) = (Return (ZOK, responses), srv1) ->
   fst (tryMultiNoThrow exec requests responses0 s)
   = (Return ZOPERATIONTIMEOUT, responses)
   /\ calls (snd (tryMultiNoThrow exec requests responses0 s))
      = calls s ++ (k, zk_tryMultiNoThrow requests)
          :: map (fun p => (k, zk_remove p (-1))) (created_paths requests responses)
   /\ service (snd (tryMultiNoThrow exec requests responses0 s)) = srv2
   /\ ephemeral_nodes (snd (tryMultiNoThrow exec requests responses0 s))
      = ephemeral_nodes s)
  /\ (fires_before fp = false ->
      fires_after (decided_before fp) = true ->
      exec (zk_tryMulti requests) k (service s) = (Return (ZOK, responses), srv1) ->
      fst (tryMulti exec requests responses0 s) = (Throw OperationTimeout, responses)
      /\ calls (snd (tryMulti exec requests responses0 s))
         = calls s ++ (k, zk_tryMulti requests)
             :: map (fun p => (k, zk_remove p (-1)))
                  (created_paths requests responses)
      /\ service (snd (tryMulti exec requests responses0 s)) = srv2
      /\ ephemeral_nodes (snd (tryMulti exec requests responses0 s))
         = ephemeral_nodes s).
Proof.
  intros Hk Hfp Hans Hrm. split.
  - intros Ha He.
    rewrite (tryMultiNoThrow_compensated exec k fp requests responses responses0
               srv1 srv2 s Hk Hfp Hans Hrm Ha He).
    cbn [fst snd].
    match goal with
    | |- context [noted ?f ?p ?c ?m ?x] =>
        destruct (noted_frame (K:=K) f p c m x) as (-> & -> & -> & _)
    end.
    unfold received_all. cbn. rewrite <- app_assoc, map_map. repeat split.
  - intros Hb Ha He.
    rewrite (tryMulti_compensated exec k fp requests responses responses0
               srv1 srv2 s Hk Hfp Hans Hrm Hb Ha He).
    cbn [fst snd].
    match goal with
    | |- context [noted ?f ?p ?c ?m ?x] =>
        destruct (noted_frame (K:=K) f p c m x) as (-> & -> & -> & _)
    end.
    unfold received_all. cbn. rewrite <- app_assoc, map_map. repeat split.
Qed.

(** X4 at work: the no-throw form reports OperationTimeout, hands back the
    two create responses, and both nodes are gone again. *)
Lemma try_transaction_failed_after_commit_witness :
  fst (tryMultiNoThrow InMemory.exec create_set_create [] failing_after)
  = (Return ZOPERATIONTIMEOUT,
     [CreateResponse ZOK "/a"; SetResponse ZOK; CreateResponse ZOK "/b"])
  /\ calls (snd (tryMultiNoThrow InMemory.exec create_set_create [] failing_after))
     = [(0%nat, zk_tryMultiNoThrow create_set_create);
        (0%nat, zk_remove "/a" (-1)); (0%nat, zk_remove "/b" (-1))]
  /\ service (snd (tryMultiNoThrow InMemory.exec create_set_create [] failing_after))
     = InMemory.empty
  /\ ephemeral_nodes
       (snd (tryMultiNoThrow InMemory.exec create_set_create [] failing_after))
     = [].
Proof.
  apply (proj1 (try_transaction_failed_after_commit InMemory.exec 0%nat forced_after
                  create_set_create
                  [CreateResponse ZOK "/a"; SetResponse ZOK; CreateResponse ZOK "/b"]
                  [] (InMemory.mkService ["/a"; "/b"] [] true) InMemory.empty
                  failing_after eq_refl eq_refl eq_refl eq_refl));
    reflexivity.
Defined.

(** ** create and createIfNotExists *)

Section Create.

Context {K : Type}.
Variable exec : forall c : Call, KeeperId -> K -> outcome (Reply c) * K.

(** [tryCreate] with no checkpoint firing, with or without a policy. *)
Lemma tryCreate_returns (k : KeeperId) (path data : string) (mode : Z)
  (code : Error) (pc : string) (srv1 : K) (l : string) (s : State K) :
  keeper s = Some k ->
  before_fires s = false ->
  after_fires (drew_before s) = false ->
  exec (zk_tryCreate path data mode) k (service s) = (Return (code, pc), srv1) ->
  isHardwareError code = false ->
  tryCreate exec path data mode l s
  = (Return code, pc,
     if nonempty pc && is_ephemeral_mode mode
     then tracked [pc]
            (received k (zk_tryCreate path data mode) srv1
               (drew_after (drew_before s)))
     else received k (zk_tryCreate path data mode) srv1
            (drew_after (drew_before s))).
Proof.
  intros Hk Hb Ha He Hh. unfold tryCreate.
  rewrite (bind_returned _ _ tt l "" s s) by reflexivity.
  rewrite (bind_returned _ _ code "" pc s
             (drew_after (received k (zk_tryCreate path data mode) srv1
                            (drew_before s)))).
  - destruct (passed_frame k (zk_tryCreate path data mode) srv1 (drew_before s))
      as (_ & -> & _).
    unfold bind, has_policy, gets, frame, when, push_ephemeral, modify, ret, tracked.
    cbn. destruct (fault_policy (drew_after (drew_before s)));
      destruct (nonempty pc && is_ephemeral_mode mode); reflexivity.
  - apply (access_passes Error_result false true true _ _ _ _ None k code
             "" pc s (received k (zk_tryCreate path data mode) srv1 (drew_before s)));
      [exact Hk | exact Hb | | exact Hh | ].
    + unfold call_into_frame.
      rewrite (bind_returned _ _ (code, pc) "" "" (entered true s)
                 (received k (zk_tryCreate path data mode) srv1 (entered true s)))
        by (apply (keeper_call_entered exec true (zk_tryCreate path data mode));
            assumption).
      reflexivity.
    + destruct (passed_frame k (zk_tryCreate path data mode) srv1 (drew_before s))
        as (-> & _). rewrite Ha. reflexivity.
Qed.

Lemma drew_calls (s : State K) : calls (drew_after (drew_before s)) = calls s.
Proof.
  unfold drew_after, drew_before.
  destruct (fault_policy s) eqn:Hp; cbn; rewrite ?Hp; reflexivity.
Qed.

(** Both wrappers leave the state [tryCreate] leaves. *)
Lemma create_state {L} (path data : string) (mode : Z) (l : L) (s : State K) :
  snd (create exec path data mode l s) = snd (tryCreate exec path data mode "" s)
  /\ snd (fst (create exec path data mode l s)) = l.
Proof.
  unfold create, scope, bind.
  destruct (tryCreate exec path data mode "" s) as [[[code|e] pc] s']; cbn;
    [destruct (Error_eqb code ZOK)|]; split; reflexivity.
Qed.

Lemma createIfNotExists_state {L} (path data : string) (l : L) (s : State K) :
  snd (createIfNotExists exec path data l s)
  = snd (tryCreate exec path data CreateMode.Persistent "" s)
  /\ snd (fst (createIfNotExists exec path data l s)) = l.
Proof.
  unfold createIfNotExists, scope, bind.
  destruct (tryCreate exec path data CreateMode.Persistent "" s)
    as [[[code|e] pc] s']; cbn;
    [destruct (Error_eqb code ZOK || Error_eqb code ZNODEEXISTS)|];
    split; reflexivity.
Qed.

(** X5.  [create] and [createIfNotExists] over [tryCreate].  Whatever
    happens, [createIfNotExists] (which always creates in persistent mode)
    adds nothing to the tracker and the clients receive the create at most,
    never a remove.  When no checkpoint fires and the real create returns a
    code that is no hardware error: [create] returns the created path for
    ZOK and throws a [KeeperException] with the code and the path for every
    other code; [createIfNotExists] returns normally for ZOK and for
    ZNODEEXISTS, and throws for every other code; the client received that
    one call. *)
Theorem create_wrappers {L : Type} (k : KeeperId) (path data : string) (mode : Z)
  (code : Error) (pc : string) (srv1 : K) (l : L) (s : State K) :
  (ephemeral_nodes (snd (createIfNotExists exec path data l s)) = ephemeral_nodes s
   /\ (calls (snd (createIfNotExists exec path data l s)) = calls s
       \/ exists k', calls (snd (createIfNotExists exec path data l s))
                     = calls s ++ [(k', zk_tryCreate path data CreateMode.Persistent)]))
  /\ (keeper s = Some k ->
      before_fires s = false ->
      after_fires (drew_before s) = false ->
      isHardwareError code = false ->
      (exec (zk_tryCreate path data mode) k (service s) = (Return (code, pc), srv1) ->
       fst (create exec path data mode l s)
       = (if Error_eqb code ZOK then Return pc else Throw (fromPath code path), l)
       /\ calls (snd (create exec path data mode l s))
          = calls s ++ [(k, zk_tryCreate path data mode)])
      /\ (exec (zk_tryCreate path data CreateMode.Persistent) k (service s)
          = (Return (code, pc), srv1) ->
          fst (createIfNotExists exec path data l s)
          = (if Error_eqb code ZOK || Error_eqb code ZNODEEXISTS
             then Return tt
             else Throw (fromPath code path), l)
          /\ calls (snd (createIfNotExists exec path data l s))
             = calls s ++ [(k, zk_tryCreate path data CreateMode.Persistent)])).
Proof.
  split.
  - rewrite (proj1 (createIfNotExists_state path data l s)).
    apply tryCreate_frame. apply andb_false_r.
  - intros Hk Hb Ha Hh. split.
    + intros He.
      pose proof (tryCreate_returns k path data mode code pc srv1 "" s
                    Hk Hb Ha He Hh) as Hrun.
      split.
      * unfold create, scope, bind. rewrite Hrun. cbn [fst snd].
        destruct (Error_eqb code ZOK); reflexivity.
      * rewrite (proj1 (create_state path data mode l s)), Hrun. cbn [snd].
        destruct (nonempty pc && is_ephemeral_mode mode);
          [destruct (tracked_frame (K:=K) [pc]
                       (received k (zk_tryCreate path data mode) srv1
                          (drew_after (drew_before s)))) as (_ & -> & _)|];
          cbn [calls received]; rewrite drew_calls; reflexivity.
    + intros He.
      pose proof (tryCreate_returns k path data CreateMode.Persistent code pc srv1
                    "" s Hk Hb Ha He Hh) as Hrun.
      rewrite andb_false_r in Hrun.
      split.
      * unfold createIfNotExists, scope, bind. rewrite Hrun. cbn [fst snd].
        destruct (Error_eqb code ZOK || Error_eqb code ZNODEEXISTS); reflexivity.
      * rewrite (proj1 (createIfNotExists_state path data l s)), Hrun. cbn [snd].
        cbn [calls received]; rewrite drew_calls; reflexivity.
Qed.

End Create.

(** X5 at work: the node is there already; [createIfNotExists] returns and
    [create] throws ZNODEEXISTS. *)
Lemma create_wrappers_witness :
  fst (createIfNotExists (L:=unit) InMemory.exec "/acl" "" tt
         (InMemory.start (InMemory.proxy client0 (Some InMemory.quiet))
            (InMemory.mkService ["/acl"] [] true)))
  = (Return tt, tt)
  /\ fst (create (L:=unit) InMemory.exec "/acl" "" CreateMode.Persistent tt
            (InMemory.start (InMemory.proxy client0 (Some InMemory.quiet))
               (InMemory.mkService ["/acl"] [] true)))
     = (Throw (KeeperException ZNODEEXISTS "/acl"), tt).
Proof.
  destruct (proj2 (create_wrappers (L:=unit) InMemory.exec 0%nat "/acl" ""
                     CreateMode.Persistent ZNODEEXISTS ""
                     (InMemory.mkService ["/acl"] [] true) tt
                     (InMemory.start (InMemory.proxy client0 (Some InMemory.quiet))
                        (InMemory.mkService ["/acl"] [] true)))
              eq_refl eq_refl eq_refl eq_refl) as [Hc Hi].
  split; [exact (proj1 (Hi eq_refl)) | exact (proj1 (Hc eq_refl))].
Defined.

(** ** Asynchronous create and transaction *)

Section AsyncNoThrow.

Context {K : Type}.
Variable exec : forall c : Call, KeeperId -> K -> outcome (Reply c) * K.

Lemma drew_after_frame (s : State K) :
  calls (drew_after s) = calls s
  /\ service (drew_after s) = service s
  /\ ephemeral_nodes (drew_after s) = ephemeral_nodes s
  /\ log (drew_after s) = log s
  /\ logger (drew_after s) = logger s
  /\ seed (drew_after s) = seed s
  /\ keeper (drew_after s) = keeper s.
Proof. unfold drew_after. destruct (fault_policy s); repeat split. Qed.

Lemma drew_before_frame (s : State K) :
  calls (drew_before s) = calls s
  /\ service (drew_before s) = service s
  /\ ephemeral_nodes (drew_before s) = ephemeral_nodes s
  /\ log (drew_before s) = log s
  /\ logger (drew_before s) = logger s
  /\ seed (drew_before s) = seed s
  /\ keeper (drew_before s) = keeper s.
Proof. unfold drew_before. destruct (fault_policy s); repeat split. Qed.

Variables (k : KeeperId) (srv1 : K) (s : State K).

Hypothesis Hk : keeper s = Some k.
Hypothesis Hb : before_fires s = false.

Lemma asyncTryCreateNoThrow_issued (path data : string) (mode : Z) :
  exec (impl_create path data (negb (Z.land mode 1 =? 0)) (negb (Z.land mode 2 =? 0)))
    k (service s) = (Return tt, srv1) ->
  exists cb,
    asyncTryCreateNoThrow (L:=unit) exec path data mode tt s
    = (Return (mkAsync pending (Some cb)), tt,
       received k (impl_create path data (negb (Z.land mode 1 =? 0))
                     (negb (Z.land mode 2 =? 0))) srv1 (drew_before s))
    /\ forall now response p s',
         cb now response p s'
         = (Return tt,
            if after_fires s'
            then set_value (CreateResponse ZOPERATIONTIMEOUT "")
            else set_value response,
            drew_after s').
Proof.
  intros He. eexists. split.
  - unfold asyncTryCreateNoThrow, returning_future, scope.
    unfold bind at 1. unfold bind at 1. unfold null_or_before_fires.
    unfold bind at 1. unfold gets at 1. rewrite Hk.
    rewrite with_policy_before, Hb. unfold bind at 1.
    rewrite (keeper_call_entered exec true
               (impl_create path data (negb (Z.land mode 1 =? 0))
                  (negb (Z.land mode 2 =? 0))) k tt srv1 pending s Hk He).
    reflexivity.
  - intros now response p s'. cbn beta. unfold bind at 1.
    rewrite with_policy_after. destruct (after_fires s'); reflexivity.
Qed.

Lemma asyncTryMultiNoThrow_issued (ops : Requests) :
  exec (impl_multi ops) k (service s) = (Return tt, srv1) ->
  exists cb,
    asyncTryMultiNoThrow (L:=unit) exec ops tt s
    = (Return (mkAsync pending (Some cb)), tt,
       received k (impl_multi ops) srv1 (drew_before s))
    /\ forall response p s',
         cb during_the_call response p s'
         = (Return tt,
            if after_fires s'
            then set_value (error_batch ZOPERATIONTIMEOUT (length ops))
            else set_value response,
            if after_fires s' && logger s'
            then logged (injected_fault_after (seed s') "asyncTryMultiNoThrow"
                           (front_path ops))
                   (drew_after s')
            else drew_after s')
         /\ (after_fires s' = false ->
             cb after_the_return response p s'
             = (Return tt, set_value response, drew_after s')).
Proof.
  intros He. eexists. split.
  - unfold asyncTryMultiNoThrow, returning_future, scope.
    unfold bind at 1. unfold bind at 1. unfold null_or_before_fires.
    unfold bind at 1. unfold gets at 1. rewrite Hk.
    rewrite with_policy_before, Hb. unfold bind at 1.
    rewrite (keeper_call_entered exec true (impl_multi ops) k tt srv1
               pending s Hk He).
    reflexivity.
  - intros response p s'. cbn beta. split.
    + unfold bind at 1.
      rewrite with_policy_after. destruct (after_fires s') eqn:Ha; [|reflexivity].
      unfold LOG_TRACE_local, local, bind, gets, assign, ret, LOG_TRACE.
      destruct (drew_after_frame s') as (_ & _ & _ & _ & Hl & Hs & _).
      rewrite Hl. destruct (logger s') eqn:Hlog; [|reflexivity].
      cbv beta iota. rewrite Hl, Hs. reflexivity.
    + intros Ha. unfold bind at 1. rewrite with_policy_after, Ha. reflexivity.
Qed.

End AsyncNoThrow.

Lemma error_batch_map (code : Error) (ops : Requests) :
  error_batch code (length ops)
  = mkMultiResponse ZOK (map (fun _ => ZooKeeperErrorResponse code) ops).
Proof.
  unfold error_batch. f_equal. induction ops as [|r rs IH]; [reflexivity|].
  cbn. f_equal. exact IH.
Qed.

(** X6.  The asynchronous create and the asynchronous transaction neither
    track nor compensate.  When the request was issued (client there,
    before-checkpoint not firing) the call returns a pending future, the
    client received the one request, with the ephemeral and sequential flags
    taken from the two low bits of the mode for a create, and the tracker
    is as it was.  The callback of the create, whenever it runs, makes one
    after-decision; if that fires the promise is set to a value, never an
    exception: a create response with ZOPERATIONTIMEOUT and no path; if it
    does not fire the response is passed on; it issues no call, leaves the
    service alone and adds nothing to the tracker, so an ephemeral node
    created this way is not removed when the operation is failed, and is not
    known to the flush.  The callback of the transaction reads the locals
    [request_size] and [path] through references when the after-decision
    fires.  Run while the call is in progress it sets the promise to one
    error response with ZOPERATIONTIMEOUT per request when the decision
    fires; run after the call returned it has a defined result only when the
    decision does not fire, and nothing is stated when it fires.  When the
    decision does not fire the response is passed on, and in every stated
    case the callback issues no call, leaves the service alone and adds
    nothing to the tracker.  For the four create modes the ephemeral flag is
    the one [tryCreate] goes by. *)
Theorem async_create_and_transaction_are_not_compensated {K : Type}
  (exec : forall c : Call, KeeperId -> K -> outcome (Reply c) * K)
  (k : KeeperId) (path data : string) (mode : Z) (ops : Requests)
  (srv1 : K) (s : State K) :
  keeper s = Some k ->
  before_fires s = false ->
  (exec (impl_create path data (negb (Z.land mode 1 =? 0)) (negb (Z.land mode 2 =? 0)))
     k (service s) = (Return tt, srv1) ->
   exists cb,
     fst (asyncTryCreateNoThrow (L:=unit) exec path data mode tt s)
     = (Return (mkAsync pending (Some cb)), tt)
     /\ calls (snd (asyncTryCreateNoThrow (L:=unit) exec path data mode tt s))
        = calls s ++ [(k, impl_create path data (negb (Z.land mode 1 =? 0))
                            (negb (Z.land mode 2 =? 0)))]
     /\ ephemeral_nodes (snd (asyncTryCreateNoThrow (L:=unit) exec path data mode tt s))
        = ephemeral_nodes s
     /\ forall now response p s',
          fst (cb now response p s')
          = (Return tt,
             if after_fires s'
             then set_value (CreateResponse ZOPERATIONTIMEOUT "")
             else set_value response)
          /\ calls (snd (cb now response p s')) = calls s'
          /\ service (snd (cb now response p s')) = service s'
          /\ ephemeral_nodes (snd (cb now response p s')) = ephemeral_nodes s'
          /\ log (snd (cb now response p s')) = log s')
  /\ (exec (impl_multi ops) k (service s) = (Return tt, srv1) ->
      exists cb,
        fst (asyncTryMultiNoThrow (L:=unit) exec ops tt s)
        = (Return (mkAsync pending (Some cb)), tt)
        /\ calls (snd (asyncTryMultiNoThrow (L:=unit) exec ops tt s))
           = calls s ++ [(k, impl_multi ops)]
        /\ ephemeral_nodes (snd (asyncTryMultiNoThrow (L:=unit) exec ops tt s))
           = ephemeral_nodes s
        /\ forall response p s',
             (fst (cb during_the_call response p s')
              = (Return tt,
                 if after_fires s'
                 then set_value
                        (mkMultiResponse ZOK
                           (map (fun _ => ZooKeeperErrorResponse ZOPERATIONTIMEOUT)
                              ops))
                 else set_value response)
              /\ calls (snd (cb during_the_call response p s')) = calls s'
              /\ service (snd (cb during_the_call response p s')) = service s'
              /\ ephemeral_nodes (snd (cb during_the_call response p s'))
                 = ephemeral_nodes s')
             /\ (after_fires s' = false ->
                 fst (cb after_the_return response p s')
                 = (Return tt, set_value response)
                 /\ calls (snd (cb after_the_return response p s')) = calls s'
                 /\ service (snd (cb after_the_return response p s')) = service s'
                 /\ ephemeral_nodes (snd (cb after_the_return response p s'))
                    = ephemeral_nodes s'))
  /\ (0 <= mode <= 3 ->
      negb (Z.land mode 1 =? 0) = is_ephemeral_mode mode
      /\ negb (Z.land mode 2 =? 0) = (2 <=? mode)).
Proof.
  intros Hk Hb. split; [|split].
  - intros He.
    destruct (asyncTryCreateNoThrow_issued exec k srv1 s Hk Hb path data mode He)
      as (cb & Hrun & Hcb).
    exists cb. rewrite Hrun. cbn [fst snd calls received ephemeral_nodes this].
    destruct (drew_before_frame s) as (-> & _ & -> & _).
    repeat split; try (rewrite Hcb; cbn [fst snd]; try reflexivity;
                       apply (drew_after_frame s')).
  - intros He.
    destruct (asyncTryMultiNoThrow_issued exec k srv1 s Hk Hb ops He)
      as (cb & Hrun & Hcb).
    exists cb. rewrite Hrun. cbn [fst snd calls received ephemeral_nodes this].
    destruct (drew_before_frame s) as (-> & _ & -> & _).
    split; [reflexivity|]. split; [reflexivity|]. split; [reflexivity|].
    intros response p s'. destruct (Hcb response p s') as [Hduring Hlater].
    split.
    + rewrite Hduring. cbn [fst snd]. rewrite error_batch_map.
      split; [reflexivity|].
      destruct (after_fires s' && logger s'); cbn;
        repeat split; apply (drew_after_frame s').
    + intros Ha. rewrite (Hlater Ha). cbn [fst snd].
      split; [reflexivity|]. repeat split; apply (drew_after_frame s').
  - intros Hm.
    assert (Hc : mode = 0 \/ mode = 1 \/ mode = 2 \/ mode = 3) by lia.
    destruct Hc as [-> | [-> | [-> | ->]]]; split; reflexivity.
Qed.

(** X6 at work: an ephemeral create issued asynchronously and failed by the
    after-checkpoint when the answer comes, after the call returned,
    resolves to ZOPERATIONTIMEOUT, and the tracker stays empty. *)
Lemma async_create_and_transaction_are_not_compensated_witness :
  completed_later
    (asyncTryCreateNoThrow (L:=unit) InMemory.exec "/e" "" CreateMode.Ephemeral tt
       failing_after)
    (CreateResponse ZOK "/e")
  = Some (set_value (CreateResponse ZOPERATIONTIMEOUT ""))
  /\ ephemeral_nodes
       (snd (asyncTryCreateNoThrow (L:=unit) InMemory.exec "/e" ""
               CreateMode.Ephemeral tt failing_after)) = [].
Proof.
  destruct (proj1 (async_create_and_transaction_are_not_compensated InMemory.exec
                     0%nat "/e" "" CreateMode.Ephemeral [] InMemory.empty
                     failing_after eq_refl eq_refl) eq_refl)
    as (cb & Hrun & _ & Ht & Hcb).
  split; [|exact Ht].
  assert (Ha : after_fires
                 (snd (asyncTryCreateNoThrow (L:=unit) InMemory.exec "/e" ""
                         CreateMode.Ephemeral tt failing_after)) = true)
    by reflexivity.
  unfold completed_later.
  destruct (asyncTryCreateNoThrow (L:=unit) InMemory.exec "/e" ""
              CreateMode.Ephemeral tt failing_after) as [[o u] s1].
  cbn [fst] in Hrun. injection Hrun as -> _. cbn [callback snd] in *.
  pose proof (proj1 (Hcb after_the_return (CreateResponse ZOK "/e") pending s1))
    as Hfst.
  destruct (cb after_the_return (CreateResponse ZOK "/e") pending s1)
    as [[[u'|e] p'] s''].
  - cbn [fst] in Hfst. injection Hfst as _ ->. rewrite Ha. reflexivity.
  - cbn [fst] in Hfst. discriminate Hfst.
Defined.

(** ** Asynchronous exists and get *)

Section AsyncRead.

Context {K : Type}.
Variable exec : forall c : Call, KeeperId -> K -> outcome (Reply c) * K.
Variables (k : KeeperId) (path : string) (srv1 : K) (s : State K).

Hypothesis Hk : keeper s = Some k.
Hypothesis Hb : before_fires s = false.

(** What the callback of [asyncExists] and [asyncTryGet] does, by the time
    it runs. *)
Lemma read_callback (now : lifetime) (func : string) (response : Response)
  (p : promise Response) (s' : State K) :
  (failed <- injectFailureAfterOp ;;
   if failed
   then LOG_TRACE_local now path (fun seed path => injected_fault_after seed func path)
   else if negb (Error_eqb (error response) ZOK)
           && negb (Error_eqb (error response) ZNONODE)
   then (path <- local now path ;;
         assign (set_exception (fromPath (error response) path)))
   else assign (set_value response)) p s'
  = if after_fires s'
    then (if logger s'
          then match now with
               | during_the_call =>
                   (Return tt, set_exception OperationTimeout,
                    logged (injected_fault_after (seed s') func path) (drew_after s'))
               | after_the_return =>
                   (Throw (std_exception "use of a local after the return"),
                    set_exception OperationTimeout, drew_after s')
               end
          else (Return tt, set_exception OperationTimeout, drew_after s'))
    else if negb (Error_eqb (error response) ZOK)
            && negb (Error_eqb (error response) ZNONODE)
    then match now with
         | during_the_call =>
             (Return tt, set_exception (fromPath (error response) path),
              drew_after s')
         | after_the_return =>
             (Throw (std_exception "use of a local after the return"), p,
              drew_after s')
         end
    else (Return tt, set_value response, drew_after s').
Proof.
  rewrite after_decision_in_callback.
  destruct (after_fires s'); [reflexivity|].
  destruct (negb (Error_eqb (error response) ZOK)
            && negb (Error_eqb (error response) ZNONODE)); [|reflexivity].
  destruct now; reflexivity.
Qed.

Lemma asyncExists_issued (has_watch : bool) :
  exec (impl_exists path has_watch) k (service s) = (Return tt, srv1) ->
  exists cb,
    asyncExists (L:=unit) exec path has_watch tt s
    = (Return (mkAsync pending (Some cb)), tt,
       received k (impl_exists path has_watch) srv1 (drew_before s))
    /\ forall now response p s',
         cb now response p s'
         = (failed <- injectFailureAfterOp ;;
            if failed
            then LOG_TRACE_local now path
                   (fun seed path => injected_fault_after seed "asyncExists" path)
            else if negb (Error_eqb (error response) ZOK)
                    && negb (Error_eqb (error response) ZNONODE)
            then (path <- local now path ;;
                  assign (set_exception (fromPath (error response) path)))
            else assign (set_value response)) p s'.
Proof.
  intros He. eexists. split.
  - unfold asyncExists, returning_future, scope.
    unfold bind at 1. unfold bind at 1. unfold injectFailureBeforeOp.
    unfold bind at 1. unfold gets at 1. rewrite Hk.
    unfold bind at 1. rewrite with_policy_before, Hb. unfold ret at 1.
    unfold bind at 1.
    rewrite (keeper_call_entered exec true (impl_exists path has_watch) k tt srv1
               pending s Hk He).
    reflexivity.
  - intros now response p s'. reflexivity.
Qed.

Lemma asyncTryGet_issued :
  exec (impl_get path) k (service s) = (Return tt, srv1) ->
  exists cb,
    asyncTryGet (L:=unit) exec path tt s
    = (Return (mkAsync pending (Some cb)), tt,
       received k (impl_get path) srv1 (drew_before s))
    /\ forall now response p s',
         cb now response p s'
         = (failed <- injectFailureAfterOp ;;
            if failed
            then LOG_TRACE_local now path
                   (fun seed path => injected_fault_after seed "asyncTryGet" path)
            else if negb (Error_eqb (error response) ZOK)
                    && negb (Error_eqb (error response) ZNONODE)
            then (path <- local now path ;;
                  assign (set_exception (fromPath (error response) path)))
            else assign (set_value response)) p s'.
Proof.
  intros He. eexists. split.
  - unfold asyncTryGet, returning_future, scope.
    unfold bind at 1. unfold bind at 1. unfold injectFailureBeforeOp.
    unfold bind at 1. unfold gets at 1. rewrite Hk.
    unfold bind at 1. rewrite with_policy_before, Hb. unfold ret at 1.
    unfold bind at 1.
    rewrite (keeper_call_entered exec true (impl_get path) k tt srv1
               pending s Hk He).
    reflexivity.
  - intros now response p s'. reflexivity.
Qed.

(** The stated cases of the callback. *)
Lemma read_callback_cases (func : string)
  (cb : lifetime -> Response -> M K (promise Response) unit) :
  (forall now response p s',
     cb now response p s'
     = (failed <- injectFailureAfterOp ;;
        if failed
        then LOG_TRACE_local now path
               (fun seed path => injected_fault_after seed func path)
        else if negb (Error_eqb (error response) ZOK)
                && negb (Error_eqb (error response) ZNONODE)
        then (path <- local now path ;;
              assign (set_exception (fromPath (error response) path)))
        else assign (set_value response)) p s') ->
  forall response p s',
    (fst (cb during_the_call response p s')
     = (Return tt,
        if after_fires s' then set_exception OperationTimeout
        else if negb (Error_eqb (error response) ZOK)
                && negb (Error_eqb (error response) ZNONODE)
             then set_exception (KeeperException (error response) path)
             else set_value response)
     /\ fault_policy (snd (cb during_the_call response p s'))
        = fault_policy (drew_after s')
     /\ calls (snd (cb during_the_call response p s')) = calls s'
     /\ service (snd (cb during_the_call response p s')) = service s'
     /\ ephemeral_nodes (snd (cb during_the_call response p s'))
        = ephemeral_nodes s')
    /\ (after_fires s' = true -> logger s' = false ->
        cb after_the_return response p s'
        = (Return tt, set_exception OperationTimeout, drew_after s'))
    /\ (after_fires s' = false ->
        negb (Error_eqb (error response) ZOK)
        && negb (Error_eqb (error response) ZNONODE) = false ->
        cb after_the_return response p s'
        = (Return tt, set_value response, drew_after s')).
Proof.
  intros Hcb response p s'. rewrite !Hcb, !read_callback. split; [|split].
  - destruct (after_fires s').
    + destruct (logger s'); cbn; repeat split; try reflexivity;
        apply (drew_after_frame s').
    + destruct (negb (Error_eqb (error response) ZOK)
                && negb (Error_eqb (error response) ZNONODE));
        cbn; repeat split; try reflexivity; apply (drew_after_frame s').
  - intros -> ->. reflexivity.
  - intros -> ->. reflexivity.
Qed.

End AsyncRead.

(** X7.  The callbacks of [asyncExists] and [asyncTryGet].  When the request
    was issued (client there, before-checkpoint not firing), the call returns
    a pending future and the client received the one request.  The callback
    reads the by-value parameter [path] through a reference.  Run while the
    call is in progress, it first makes one after-decision, whatever the
    response is; if that fires, the promise is rejected with OperationTimeout
    (an exception, also when the server answered with an error of its own);
    if it does not, a response with ZOK or ZNONODE is passed on as the value
    and a response with any other error rejects the promise with a
    [KeeperException] of that error and the path; it issues no call and
    leaves service and tracker alone.  Run after the call returned, it has a
    defined result only where it does not read [path]: the promise is
    rejected with OperationTimeout when the after-decision fires and there
    is no logger, and a response with ZOK or ZNONODE is passed on when the
    decision does not fire; in the other cases it reads [path] after its end,
    and nothing is stated. *)
Theorem async_read_passes_ZOK_and_ZNONODE {K : Type}
  (exec : forall c : Call, KeeperId -> K -> outcome (Reply c) * K)
  (k : KeeperId) (path : string) (has_watch : bool) (srv1 : K) (s : State K) :
  keeper s = Some k ->
  before_fires s = false ->
  (exec (impl_exists path has_watch) k (service s) = (Return tt, srv1) ->
   exists cb,
     fst (asyncExists (L:=unit) exec path has_watch tt s)
     = (Return (mkAsync pending (Some cb)), tt)
     /\ calls (snd (asyncExists (L:=unit) exec path has_watch tt s))
        = calls s ++ [(k, impl_exists path has_watch)]
     /\ forall response p s',
          (fst (cb during_the_call response p s')
           = (Return tt,
              if after_fires s' then set_exception OperationTimeout
              else if negb (Error_eqb (error response) ZOK)
                      && negb (Error_eqb (error response) ZNONODE)
                   then set_exception (KeeperException (error response) path)
                   else set_value response)
           /\ fault_policy (snd (cb during_the_call response p s'))
              = fault_policy (drew_after s')
           /\ calls (snd (cb during_the_call response p s')) = calls s'
           /\ service (snd (cb during_the_call response p s')) = service s'
           /\ ephemeral_nodes (snd (cb during_the_call response p s'))
              = ephemeral_nodes s')
          /\ (after_fires s' = true -> logger s' = false ->
              cb after_the_return response p s'
              = (Return tt, set_exception OperationTimeout, drew_after s'))
          /\ (after_fires s' = false ->
              negb (Error_eqb (error response) ZOK)
              && negb (Error_eqb (error response) ZNONODE) = false ->
              cb after_the_return response p s'
              = (Return tt, set_value response, drew_after s')))
  /\ (exec (impl_get path) k (service s) = (Return tt, srv1) ->
      exists cb,
        fst (asyncTryGet (L:=unit) exec path tt s)
        = (Return (mkAsync pending (Some cb)), tt)
        /\ calls (snd (asyncTryGet (L:=unit) exec path tt s))
           = calls s ++ [(k, impl_get path)]
        /\ forall response p s',
             (fst (cb during_the_call response p s')
              = (Return tt,
                 if after_fires s' then set_exception OperationTimeout
                 else if negb (Error_eqb (error response) ZOK)
                         && negb (Error_eqb (error response) ZNONODE)
                      then set_exception (KeeperException (error response) path)
                      else set_value response)
              /\ fault_policy (snd (cb during_the_call response p s'))
                 = fault_policy (drew_after s')
              /\ calls (snd (cb during_the_call response p s')) = calls s'
              /\ service (snd (cb during_the_call response p s')) = service s'
              /\ ephemeral_nodes (snd (cb during_the_call response p s'))
                 = ephemeral_nodes s')
             /\ (after_fires s' = true -> logger s' = false ->
                 cb after_the_return response p s'
                 = (Return tt, set_exception OperationTimeout, drew_after s'))
             /\ (after_fires s' = false ->
                 negb (Error_eqb (error response) ZOK)
                 && negb (Error_eqb (error response) ZNONODE) = false ->
                 cb after_the_return response p s'
                 = (Return tt, set_value response, drew_after s'))).
Proof.
  intros Hk Hb. split; intros He.
  - destruct (asyncExists_issued exec k path srv1 s Hk Hb has_watch He)
      as (cb & Hrun & Hcb).
    exists cb. rewrite Hrun. cbn [fst snd calls received].
    destruct (drew_before_frame s) as (-> & _).
    split; [reflexivity|]. split; [reflexivity|].
    apply (read_callback_cases path "asyncExists" cb Hcb).
  - destruct (asyncTryGet_issued exec k path srv1 s Hk Hb He)
      as (cb & Hrun & Hcb).
    exists cb. rewrite Hrun. cbn [fst snd calls received].
    destruct (drew_before_frame s) as (-> & _).
    split; [reflexivity|]. split; [reflexivity|].
    apply (read_callback_cases path "asyncTryGet" cb Hcb).
Qed.

(** X7 at work: no fault is injected and the answer comes after the call
    returned; a missing node is a value of the future. *)
Lemma async_read_passes_ZOK_and_ZNONODE_witness :
  completed_later (asyncExists (L:=unit) InMemory.exec "/a" false tt running)
    (ExistsResponse ZNONODE)
  = Some (set_value (ExistsResponse ZNONODE)).
Proof.
  destruct (proj1 (async_read_passes_ZOK_and_ZNONODE InMemory.exec 0%nat "/a"
                     false InMemory.empty running eq_refl eq_refl) eq_refl)
    as (cb & Hrun & _ & Hcb).
  assert (Ha : after_fires
                 (snd (asyncExists (L:=unit) InMemory.exec "/a" false tt running))
               = false) by reflexivity.
  unfold completed_later.
  destruct (asyncExists (L:=unit) InMemory.exec "/a" false tt running)
    as [[o u] s1].
  cbn [fst] in Hrun. injection Hrun as -> _. cbn [callback snd] in *.
  rewrite (proj2 (proj2 (Hcb (ExistsResponse ZNONODE) pending s1)) Ha eq_refl).
  reflexivity.
Defined.

(** ** A forced failure is used once *)

Section PlainRuns.

Context {K L : Type}.
Variable exec : forall c : Call, KeeperId -> K -> outcome (Reply c) * K.
Variables (c : Call) (rt : ResultType (Reply c)) (func_name path : string).

Lemma plain_blocked (k : KeeperId) (l : L) (s : State K) :
  keeper s = Some k ->
  before_fires s = true ->
  plain rt func_name path (keeper_call exec c) l s
  = (surfaced rt false ZSESSIONEXPIRED "Fault injection before operation", l,
     noted func_name path ZSESSIONEXPIRED "Fault injection before operation"
       (drew_before s)).
Proof.
  intros Hk Hb. unfold plain.
  apply (access_before_fires rt false true true func_name path
           (keeper_call exec c) None None k l l s (drew_before s));
    [exact Hk | reflexivity | exact Hb | reflexivity].
Qed.

Lemma plain_passes (k : KeeperId) (r : Reply c) (srv1 : K) (l : L) (s : State K) :
  keeper s = Some k ->
  before_fires s = false ->
  exec c k (service s) = (Return r, srv1) ->
  hardware_result rt r = false ->
  after_fires (drew_before s) = false ->
  plain rt func_name path (keeper_call exec c) l s
  = (Return r, l, drew_after (received k c srv1 (drew_before s))).
Proof.
  intros Hk Hb He Hh Ha. unfold plain.
  apply (access_passes rt false true true func_name path
           (keeper_call exec c) None None k r l l s
           (received k c srv1 (drew_before s)));
    [exact Hk | exact Hb | | exact Hh | ].
  - apply (keeper_call_entered exec true c k r srv1 l s Hk He).
  - destruct (passed_frame k c srv1 (drew_before s)) as (-> & _).
    rewrite Ha. reflexivity.
Qed.

Lemma plain_times_out (k : KeeperId) (r : Reply c) (srv1 : K) (l : L) (s : State K) :
  keeper s = Some k ->
  before_fires s = false ->
  exec c k (service s) = (Return r, srv1) ->
  hardware_result rt r = false ->
  after_fires (drew_before s) = true ->
  plain rt func_name path (keeper_call exec c) l s
  = (surfaced rt false ZOPERATIONTIMEOUT "Fault injection after operation", l,
     noted func_name path ZOPERATIONTIMEOUT "Fault injection after operation"
       (drew_after (received k c srv1 (drew_before s)))).
Proof.
  intros Hk Hb He Hh Ha. unfold plain.
  apply (access_after_fires rt false true true func_name path
           (keeper_call exec c) None None k r l l l s
           (received k c srv1 (drew_before s)));
    [exact Hk | exact Hb | | exact Hh | reflexivity | | reflexivity].
  - apply (keeper_call_entered exec true c k r srv1 l s Hk He).
  - destruct (passed_frame k c srv1 (drew_before s)) as (-> & _). exact Ha.
Qed.

End PlainRuns.

(** X8.  A forced failure fails one operation.  Take an operation that
    hands [access] one client call with the default checkpoints (as [get],
    [set], [remove], [exists] and the like do), a client there, and a policy
    whose next draws do not fire by themselves.  With the before-override set:
    the operation fails with SessionExpired and the client receives nothing;
    the same operation run again goes through, returns what the client
    returns and the client received that one call.  With the after-override
    set: the operation reaches the client and fails with OperationTimeout;
    run again it goes through on the service the first call left, and the
    client has received the call twice. *)
Theorem forced_failure_fails_one_operation {K L : Type}
  (exec : forall c : Call, KeeperId -> K -> outcome (Reply c) * K)
  (c : Call) (rt : ResultType (Reply c)) (func_name path : string)
  (k : KeeperId) (fp : RandomFaultInjection) (r r2 : Reply c) (srv1 srv2 : K)
  (l : L) (s : State K) :
  keeper s = Some k ->
  fault_policy s = Some fp ->
  exec c k (service s) = (Return r, srv1) ->
  hardware_result rt r = false ->
  (must_fail_before_op fp = true ->
   must_fail_after_op fp = false ->
   distribution fp (S (rndgen fp)) = false ->
   distribution fp (S (S (rndgen fp))) = false ->
   fst (plain rt func_name path (keeper_call exec c) l s)
   = (surfaced rt false ZSESSIONEXPIRED "Fault injection before operation", l)
   /\ calls (snd (plain rt func_name path (keeper_call exec c) l s)) = calls s
   /\ fst (plain rt func_name path (keeper_call exec c) l
             (snd (plain rt func_name path (keeper_call exec c) l s)))
      = (Return r, l)
   /\ calls (snd (plain rt func_name path (keeper_call exec c) l
                    (snd (plain rt func_name path (keeper_call exec c) l s))))
      = calls s ++ [(k, c)])
  /\ (must_fail_before_op fp = false ->
      must_fail_after_op fp = true ->
      distribution fp (rndgen fp) = false ->
      distribution fp (S (S (rndgen fp))) = false ->
      distribution fp (S (S (S (rndgen fp)))) = false ->
      exec c k srv1 = (Return r2, srv2) ->
      hardware_result rt r2 = false ->
      fst (plain rt func_name path (keeper_call exec c) l s)
      = (surfaced rt false ZOPERATIONTIMEOUT "Fault injection after operation", l)
      /\ calls (snd (plain rt func_name path (keeper_call exec c) l s))
         = calls s ++ [(k, c)]
      /\ fst (plain rt func_name path (keeper_call exec c) l
                (snd (plain rt func_name path (keeper_call exec c) l s)))
         = (Return r2, l)
      /\ calls (snd (plain rt func_name path (keeper_call exec c) l
                       (snd (plain rt func_name path (keeper_call exec c) l s))))
         = calls s ++ [(k, c); (k, c)]).
Proof.
  intros Hk Hp He Hh. split.
  - intros Hmb Hma Hd1 Hd2.
    assert (Hb : before_fires s = true).
    { unfold before_fires, fires_before. rewrite Hp, Hmb. apply orb_true_r. }
    rewrite (plain_blocked exec c rt func_name path k l s Hk Hb). cbn [fst snd].
    set (s1 := noted func_name path ZSESSIONEXPIRED
                 "Fault injection before operation" (drew_before s)).
    destruct (noted_frame func_name path ZSESSIONEXPIRED
                "Fault injection before operation" (drew_before s))
      as (Hc1 & Hs1 & _ & Hp1 & Hk1).
    fold s1 in Hc1, Hs1, Hp1, Hk1.
    destruct (drew_before_frame s) as (Hc0 & Hs0 & _ & _ & _ & _ & Hk0).
    rewrite Hc0 in Hc1. rewrite Hs0 in Hs1. rewrite Hk0, Hk in Hk1.
    assert (Hp1' : fault_policy s1 = Some (decided_before fp)).
    { rewrite Hp1. unfold drew_before. rewrite Hp. reflexivity. }
    assert (Hb1 : before_fires s1 = false).
    { unfold before_fires, fires_before. rewrite Hp1'. cbn. rewrite Hd1. reflexivity. }
    assert (Ha1 : after_fires (drew_before s1) = false).
    { unfold after_fires, drew_before, fires_after. rewrite Hp1'. cbn.
      rewrite Hd2, Hma. reflexivity. }
    rewrite <- Hs1 in He.
    rewrite (plain_passes exec c rt func_name path k r srv1 l s1 Hk1 Hb1 He Hh Ha1).
    cbn [fst snd].
    destruct (drew_after_frame (received k c srv1 (drew_before s1))) as (-> & _).
    cbn [calls received].
    destruct (drew_before_frame s1) as (-> & _).
    rewrite Hc1. repeat split.
  - intros Hmb Hma Hd0 Hd2 Hd3 He2 Hh2.
    assert (Hb : before_fires s = false).
    { unfold before_fires, fires_before. rewrite Hp, Hmb, Hd0. reflexivity. }
    assert (Ha : after_fires (drew_before s) = true).
    { unfold after_fires, drew_before, fires_after. rewrite Hp. cbn.
      rewrite Hma. apply orb_true_r. }
    rewrite (plain_times_out exec c rt func_name path k r srv1 l s Hk Hb He Hh Ha).
    cbn [fst snd].
    set (s0 := drew_after (received k c srv1 (drew_before s))).
    set (s1 := noted func_name path ZOPERATIONTIMEOUT
                 "Fault injection after operation" s0).
    destruct (noted_frame func_name path ZOPERATIONTIMEOUT
                "Fault injection after operation" s0)
      as (Hc1 & Hs1 & _ & Hp1 & Hk1).
    fold s1 in Hc1, Hs1, Hp1, Hk1.
    assert (H0 : calls s0 = calls s ++ [(k, c)] /\ service s0 = srv1
                 /\ keeper s0 = Some k
                 /\ fault_policy s0 = Some (decided_after (decided_before fp))).
    { unfold s0, drew_after, drew_before. rewrite Hp. cbn. rewrite Hk.
      repeat split. }
    destruct H0 as (Hc0 & Hs0 & Hk0 & Hp0).
    rewrite Hc0 in Hc1. rewrite Hs0 in Hs1. rewrite Hk0 in Hk1. rewrite Hp0 in Hp1.
    assert (Hb1 : before_fires s1 = false).
    { unfold before_fires, fires_before. rewrite Hp1. cbn. rewrite Hd2.
      reflexivity. }
    assert (Ha1 : after_fires (drew_before s1) = false).
    { unfold after_fires, drew_before, fires_after. rewrite Hp1. cbn.
      rewrite Hd3. reflexivity. }
    rewrite <- Hs1 in He2.
    rewrite (plain_passes exec c rt func_name path k r2 srv2 l s1 Hk1 Hb1 He2 Hh2 Ha1).
    cbn [fst snd].
    destruct (drew_after_frame (received k c srv2 (drew_before s1))) as (-> & _).
    cbn [calls received].
    destruct (drew_before_frame s1) as (-> & _).
    rewrite Hc1, <- app_assoc. repeat split.
Qed.

(** X8 at work: "/a" exists; with the before-override set the first [get]
    throws SessionExpired and the second returns the data. *)
Lemma forced_failure_fails_one_operation_witness :
  fst (get (L:=unit) InMemory.exec "/a" tt
         (InMemory.start (InMemory.proxy client0 (Some forced_before))
            (InMemory.mkService ["/a"] [] true)))
  = (Throw (KeeperException ZSESSIONEXPIRED "Fault injection before operation"), tt)
  /\ fst (get (L:=unit) InMemory.exec "/a" tt
            (snd (get (L:=unit) InMemory.exec "/a" tt
                    (InMemory.start (InMemory.proxy client0 (Some forced_before))
                       (InMemory.mkService ["/a"] [] true)))))
     = (Return "", tt).
Proof.
  destruct (proj1 (forced_failure_fails_one_operation (L:=unit) InMemory.exec
                     (zk_get "/a") is_other "get" "/a" 0%nat forced_before "" ""
                     (InMemory.mkService ["/a"] [] true)
                     (InMemory.mkService ["/a"] [] true) tt
                     (InMemory.start (InMemory.proxy client0 (Some forced_before))
                        (InMemory.mkService ["/a"] [] true))
                     eq_refl eq_refl eq_refl eq_refl)
              eq_refl eq_refl eq_refl eq_refl) as (H1 & _ & H2 & _).
  split; [exact H1 | exact H2].
Defined.

(** ** The previous client *)

Section PreviousClient.

Context {K L : Type}.
Variable exec : forall c : Call, KeeperId -> K -> outcome (Reply c) * K.

Lemma keeps_bind {A B} (m : M K L A) (f : A -> M K L B) :
  keeps_clients m -> (forall a, keeps_clients (f a)) -> keeps_clients (bind m f).
Proof.
  intros Hm Hf l s. unfold bind. specialize (Hm l s).
  destruct (m l s) as [[[a|e] l'] s']; cbn [snd] in *.
  - destruct (Hf a l' s') as [-> ->]. exact Hm.
  - exact Hm.
Qed.

Lemma keeps_try_catch {A} (m : M K L A) (h : exception -> option (M K L A)) :
  keeps_clients m ->
  (forall e h', h e = Some h' -> keeps_clients h') ->
  keeps_clients (try_catch m h).
Proof.
  intros Hm Hh l s. unfold try_catch. specialize (Hm l s).
  destruct (m l s) as [[[a|e] l'] s']; cbn [snd] in *; [exact Hm|].
  destruct (h e) as [h'|] eqn:He; [|exact Hm].
  destruct (Hh e h' He l' s') as [-> ->]. exact Hm.
Qed.

Lemma keeps_policy {A} (none : A)
  (f : RandomFaultInjection -> A * RandomFaultInjection) :
  keeps_clients (with_policy (K:=K) (L:=L) none f).
Proof.
  intros l s. unfold with_policy. destruct (fault_policy s) as [fp|]; [|split; reflexivity].
  destruct (f fp). split; reflexivity.
Qed.

Lemma keeps_raise {A} (r : outcome A) : keeps_clients (raise (K:=K) (L:=L) r).
Proof. intros l s. destruct r; split; reflexivity. Qed.

Lemma keeps_faultInjectionBefore (c : M K L unit) :
  keeps_clients c -> keeps_clients (faultInjectionBefore c).
Proof.
  intros Hc. unfold faultInjectionBefore. apply keeps_try_catch.
  - apply keeps_bind; [apply keeps_policy | intros r; apply keeps_raise].
  - intros [code message| |m] h' He; cbn in He; try discriminate.
    injection He as <-. apply keeps_bind; [exact Hc|]. intros _ l s. split; reflexivity.
Qed.

Lemma keeps_faultInjectionAfter (c : M K L unit) :
  keeps_clients c -> keeps_clients (faultInjectionAfter c).
Proof.
  intros Hc. unfold faultInjectionAfter. apply keeps_try_catch.
  - apply keeps_bind; [apply keeps_policy | intros r; apply keeps_raise].
  - intros [code message| |m] h' He; cbn in He; try discriminate.
    injection He as <-. apply keeps_bind; [exact Hc|]. intros _ l s. split; reflexivity.
Qed.

Lemma keeps_keeper_call (c : Call) : keeps_clients (keeper_call (L:=L) exec c).
Proof.
  intros l s. unfold keeper_call, invoke. destruct (keeper s) eqn:Hk.
  - destruct (exec c k (service s)). cbn. split; [exact Hk | reflexivity].
  - cbn. split; [exact Hk | reflexivity].
Qed.

Context {R : Type}.
Variable rt : ResultType R.
Variables no_throw_access inject_failure_before_op inject_failure_after_op : bool.
Variables func_name path : string.
Variable operation : M K L R.
Variable fault_after_op_cleanup : option (R -> M K L unit).
Variable fault_before_op_cleanup : option (M K L unit).

Hypothesis operation_keeps : keeps_clients operation.
Hypothesis after_cleanup_keeps :
  forall f res, fault_after_op_cleanup = Some f -> keeps_clients (f res).
Hypothesis before_cleanup_keeps :
  forall f, fault_before_op_cleanup = Some f -> keeps_clients f.

Lemma access_previous_client (l : L) (s : State K) :
  keeper (snd (access rt no_throw_access inject_failure_before_op
                 inject_failure_after_op func_name path operation
                 fault_after_op_cleanup fault_before_op_cleanup l s)) = keeper s
  /\ (forall code message,
        fst (fst (access rt no_throw_access inject_failure_before_op
                    inject_failure_after_op func_name path operation
                    fault_after_op_cleanup fault_before_op_cleanup l s))
        = Throw (KeeperException code message) ->
        keeper_prev (snd (access rt no_throw_access inject_failure_before_op
                            inject_failure_after_op func_name path operation
                            fault_after_op_cleanup fault_before_op_cleanup l s))
        = match keeper s with Some k => Some k | None => keeper_prev s end)
  /\ (keeper_prev (snd (access rt no_throw_access inject_failure_before_op
                          inject_failure_after_op func_name path operation
                          fault_after_op_cleanup fault_before_op_cleanup l s))
      = keeper_prev s
      \/ exists k,
           keeper s = Some k
           /\ keeper_prev (snd (access rt no_throw_access inject_failure_before_op
                                  inject_failure_after_op func_name path operation
                                  fault_after_op_cleanup fault_before_op_cleanup l s))
              = Some k).
Proof.
  unfold access.
  match goal with
  | |- context [try_catch ?b _] => set (body := b)
  end.
  assert (Hbody : keeps_clients body).
  { unfold body. apply keeps_bind.
    - intros l0 s0. split; reflexivity.
    - intros k. apply keeps_bind.
      + destruct k; intros l0 s0; split; reflexivity.
      + intros _. apply keeps_bind.
        * destruct inject_failure_before_op; cbn [when];
            [|intros l0 s0; split; reflexivity].
          apply keeps_faultInjectionBefore.
          destruct fault_before_op_cleanup as [f|] eqn:Hf; cbn.
          -- apply (before_cleanup_keeps f). reflexivity.
          -- intros l0 s0; split; reflexivity.
        * intros _. apply keeps_bind; [exact operation_keeps|].
          intros res. destruct (hardware_result rt res);
            [intros l0 s0; split; reflexivity|].
          apply keeps_bind; [|intros _ l0 s0; split; reflexivity].
          destruct inject_failure_after_op; cbn [when];
            [|intros l0 s0; split; reflexivity].
          apply keeps_faultInjectionAfter.
          destruct fault_after_op_cleanup as [f|] eqn:Hf; cbn.
          -- apply (after_cleanup_keeps f). reflexivity.
          -- intros l0 s0; split; reflexivity. }
  unfold try_catch. specialize (Hbody l s).
  destruct (body l s) as [[[res|e] l'] s']; cbn [snd fst] in *.
  - destruct Hbody as [Hk Hp]. split; [exact Hk|]. split; [discriminate|].
    left. exact Hp.
  - destruct Hbody as [Hk Hp].
    destruct e as [code message| |m]; cbn [catch_KeeperException].
    + rewrite (access_handler rt no_throw_access inject_failure_before_op
                 inject_failure_after_op func_name path operation
                 fault_after_op_cleanup fault_before_op_cleanup code message l' s').
      cbn [fst snd].
      assert (Hn : keeper (noted func_name path code message s') = keeper s'
                   /\ keeper_prev (noted func_name path code message s')
                      = match keeper s' with
                        | Some k => Some k
                        | None => keeper_prev s'
                        end).
      { unfold noted. destruct (logger s'); cbn;
          destruct (keeper s') eqn:Hk'; cbn; split; try reflexivity; exact Hk'. }
      destruct Hn as [Hnk Hnp]. rewrite Hnk, Hnp, Hk, Hp.
      split; [reflexivity|]. split; [reflexivity|].
      destruct (keeper s) as [k|]; [right; exists k; split|left]; reflexivity.
    + split; [exact Hk|]. split; [discriminate|]. left. exact Hp.
    + split; [exact Hk|]. split; [discriminate|]. left. exact Hp.
Qed.

End PreviousClient.

Lemma cleanupEphemeralNodes_calls {K L : Type}
  (exec : forall c : Call, KeeperId -> K -> outcome (Reply c) * K)
  (l : L) (s : State K) :
  calls (snd (cleanupEphemeralNodes exec l s))
  = calls s ++ flush_calls (keeper_prev s) (ephemeral_nodes s).
Proof.
  unfold cleanupEphemeralNodes. unfold bind at 1. unfold gets at 1.
  unfold bind at 1. rewrite flush_loop. reflexivity.
Qed.

(** X9.  The previous client.  Take any instance of [access] whose
    operation and cleanup callbacks leave the two client references alone
    (every real call does).  Then [access] never changes the current client;
    it changes the previous client only by making it the current one, and
    never when the current client is null; and whenever it throws a
    [KeeperException] with a client there, that client is the previous one
    afterwards, so a flush that follows sends one [tryRemove] for every
    tracked path to it. *)
Theorem failed_access_names_the_flush_target {K L R : Type}
  (exec : forall c : Call, KeeperId -> K -> outcome (Reply c) * K)
  (rt : ResultType R)
  (no_throw_access inject_failure_before_op inject_failure_after_op : bool)
  (func_name path : string) (operation : M K L R)
  (fault_after_op_cleanup : option (R -> M K L unit))
  (fault_before_op_cleanup : option (M K L unit))
  (l l' : L) (s s' : State K) (o : outcome R) :
  keeps_clients operation ->
  (forall f res, fault_after_op_cleanup = Some f -> keeps_clients (f res)) ->
  (forall f, fault_before_op_cleanup = Some f -> keeps_clients f) ->
  access rt no_throw_access inject_failure_before_op inject_failure_after_op
    func_name path operation fault_after_op_cleanup fault_before_op_cleanup l s
  = (o, l', s') ->
  keeper s' = keeper s
  /\ (keeper_prev s' = keeper_prev s
      \/ exists k, keeper s = Some k /\ keeper_prev s' = Some k)
  /\ (keeper s = None -> keeper_prev s' = keeper_prev s)
  /\ (forall k code message,
        keeper s = Some k ->
        o = Throw (KeeperException code message) ->
        keeper_prev s' = Some k
        /\ calls (snd (cleanupEphemeralNodes exec l' s'))
           = calls s' ++ map (fun p => (k, zk_tryRemove p (-1))) (ephemeral_nodes s')).
Proof.
  intros Hop Hafter Hbefore Hrun.
  destruct (access_previous_client rt no_throw_access inject_failure_before_op
              inject_failure_after_op func_name path operation
              fault_after_op_cleanup fault_before_op_cleanup
              Hop Hafter Hbefore l s) as (Hk & Ht & Hp).
  rewrite Hrun in Hk, Ht, Hp. cbn [fst snd] in Hk, Ht, Hp.
  split; [exact Hk|]. split; [exact Hp|]. split.
  - intros Hn. destruct Hp as [Hp | (k & Hs & _)]; [exact Hp|].
    rewrite Hn in Hs. discriminate.
  - intros k code message Hs ->.
    specialize (Ht code message eq_refl). rewrite Hs in Ht.
    split; [exact Ht|].
    rewrite cleanupEphemeralNodes_calls, Ht. reflexivity.
Qed.

(** X9 at work: the proxy tracks "/a" and has no previous client; a [get]
    of a missing node throws, and the flush that follows sends the remove
    of "/a" to the client. *)
Lemma failed_access_names_the_flush_target_witness :
  keeper_prev (snd (get (L:=unit) InMemory.exec "/missing" tt
                      tracking_without_previous)) = Some 0%nat
  /\ calls (snd (cleanupEphemeralNodes (L:=unit) InMemory.exec tt
                   (snd (get (L:=unit) InMemory.exec "/missing" tt
                           tracking_without_previous))))
     = [(0%nat, zk_get "/missing"); (0%nat, zk_tryRemove "/a" (-1))].
Proof.
  exact (proj2 (proj2 (proj2
           (failed_access_names_the_flush_target (L:=unit) InMemory.exec
              is_other false true true "get" "/missing"
              (keeper_call InMemory.exec (zk_get "/missing")) None None
              tt tt tracking_without_previous
              (snd (get (L:=unit) InMemory.exec "/missing" tt
                      tracking_without_previous))
              (Throw (KeeperException ZNONODE "/missing"))
              (keeps_keeper_call InMemory.exec (zk_get "/missing"))
              (fun f res H => match H in (_ = o) return
                                match o with Some _ => _ | None => True end
                              with eq_refl => I end)
              (fun f H => match H in (_ = o) return
                            match o with Some _ => _ | None => True end
                          with eq_refl => I end)
              eq_refl)))
           0%nat ZNONODE "/missing" eq_refl eq_refl).
Defined.

(** * MergeTreeIndexGranularityConstant *)

Section Granularity.

Import MergeTreeIndexGranularityConstant.

Ltac comparisons :=
  repeat match goal with
  | H : (_ <? _) = true |- _ => apply Z.ltb_lt in H
  | H : (_ <? _) = false |- _ => apply Z.ltb_ge in H
  | H : (_ <=? _) = true |- _ => apply Z.leb_le in H
  | H : (_ <=? _) = false |- _ => apply Z.leb_gt in H
  | H : (_ =? _) = true |- _ => apply Z.eqb_eq in H
  | H : (_ =? _) = false |- _ => apply Z.eqb_neq in H
  end.

Lemma wrap_small (z : Z) : is_size_t z -> wrap z = z.
Proof. intros H. apply Z.mod_small. exact H. Qed.

Lemma wrap_add_r (a b : Z) : wrap (a + wrap b) = wrap (a + b).
Proof. unfold wrap. apply Zplus_mod_idemp_r. Qed.

Lemma wrap_mul_r (a b : Z) : wrap (a * wrap b) = wrap (a * b).
Proof. unfold wrap. apply Zmult_mod_idemp_r. Qed.

Lemma wrap_mul_l (a b : Z) : wrap (wrap a * b) = wrap (a * b).
Proof. unfold wrap. apply Zmult_mod_idemp_l. Qed.

Lemma wrap_sum (a b c : Z) : wrap (wrap a + wrap (c * wrap b)) = wrap (a + c * b).
Proof.
  unfold wrap. rewrite Zmult_mod_idemp_r. symmetry. apply Zplus_mod.
Qed.

Lemma getMarksCount_fits (g : t) :
  well_typed g -> fits g ->
  getMarksCount g
  = num_marks_without_final g + (if has_final_mark g then 1 else 0).
Proof.
  intros (_ & _ & Hn) (_ & Hf). unfold getMarksCount. apply wrap_small.
  unfold is_size_t in *. destruct (has_final_mark g); lia.
Qed.

(** The starting row of a mark, without wrap-around. *)
Lemma getMarkStartingRow_fits (g : t) (i : Z) :
  well_typed g -> fits g -> last_mark_is_a_mark g ->
  0 <= i <= getMarksCount g ->
  getMarkStartingRow g i
  = Return (if i <? num_marks_without_final g
            then constant_granularity g * i
            else if num_marks_without_final g =? 0 then 0
            else constant_granularity g * (num_marks_without_final g - 1)
                 + last_mark_granularity g).
Proof.
  intros Hw Hf Hl Hi. rewrite (getMarksCount_fits g Hw Hf) in Hi.
  unfold getMarkStartingRow. rewrite (getMarksCount_fits g Hw Hf).
  destruct Hw as (Hc & Hla & Hn). destruct Hf as (Hf & Hf1).
  unfold is_size_t, last_mark_is_a_mark in *.
  assert (Hlt : (num_marks_without_final g
                 + (if has_final_mark g then 1 else 0) <? i) = false)
    by (apply Z.ltb_ge; lia).
  rewrite Hlt.
  destruct (i <? num_marks_without_final g) eqn:Hin.
  - apply Z.ltb_lt in Hin.
    assert (Hge : (num_marks_without_final g <=? i) = false) by (apply Z.leb_gt; lia).
    rewrite Hge. cbn [andb]. f_equal.
    rewrite (wrap_small (constant_granularity g * i))
      by (unfold is_size_t; nia).
    apply wrap_small. unfold is_size_t. nia.
  - apply Z.ltb_ge in Hin.
    assert (Hge : (num_marks_without_final g <=? i) = true) by (apply Z.leb_le; lia).
    rewrite Hge. cbn [andb].
    destruct (i =? 0) eqn:Hi0.
    + apply Z.eqb_eq in Hi0. subst i.
      assert (Hn0 : num_marks_without_final g = 0) by lia.
      rewrite Hn0. cbn [negb Z.eqb]. rewrite Z.mul_0_r. reflexivity.
    + apply Z.eqb_neq in Hi0. cbn [negb]. cbv iota beta. f_equal.
      rewrite wrap_sum.
      destruct (num_marks_without_final g =? 0) eqn:Hn0.
      * apply Z.eqb_eq in Hn0. rewrite Hn0, (Hl Hn0).
        replace (0 + constant_granularity g + constant_granularity g * (0 - 1))
          with 0 by ring.
        reflexivity.
      * apply Z.eqb_neq in Hn0.
        replace (0 + last_mark_granularity g
                 + constant_granularity g * (num_marks_without_final g - 1))
          with (constant_granularity g * (num_marks_without_final g - 1)
                + last_mark_granularity g) by ring.
        apply wrap_small. unfold is_size_t. nia.
Qed.

Lemma getMarkRows_fits (g : t) (i : Z) :
  well_typed g -> fits g ->
  0 <= i < getMarksCount g ->
  getMarkRows g i
  = Return (if i + 1 <? num_marks_without_final g then constant_granularity g
            else if i + 1 =? num_marks_without_final g then last_mark_granularity g
            else 0).
Proof.
  intros Hw Hf Hi. rewrite (getMarksCount_fits g Hw Hf) in Hi.
  unfold getMarkRows. rewrite (getMarksCount_fits g Hw Hf).
  destruct Hw as (Hc & Hla & Hn). destruct Hf as (Hf & Hf1).
  unfold is_size_t in *.
  assert (Hle : (num_marks_without_final g
                 + (if has_final_mark g then 1 else 0) <=? i) = false)
    by (apply Z.leb_gt; lia).
  rewrite Hle.
  rewrite (wrap_small (i + 1))
    by (unfold is_size_t; destruct (has_final_mark g); lia).
  destruct (i + 1 <? num_marks_without_final g); [reflexivity|].
  destruct (i + 1 =? num_marks_without_final g); reflexivity.
Qed.

Lemma getTotalRows_fits (g : t) :
  well_typed g -> fits g ->
  getTotalRows g
  = if num_marks_without_final g =? 0 then 0
    else constant_granularity g * (num_marks_without_final g - 1)
         + last_mark_granularity g.
Proof.
  intros (Hc & Hla & Hn) (Hf & Hf1). unfold getTotalRows, is_size_t in *.
  destruct (num_marks_without_final g =? 0) eqn:Hn0; [reflexivity|].
  apply Z.eqb_neq in Hn0.
  rewrite (wrap_small (num_marks_without_final g - 1)) by (unfold is_size_t; lia).
  rewrite (wrap_small (constant_granularity g * (num_marks_without_final g - 1)))
    by (unfold is_size_t; nia).
  apply wrap_small. unfold is_size_t. nia.
Qed.

(** X10.  Starting rows are the sums of the rows of the marks.  For an
    object of [size_t] fields whose row arithmetic does not wrap around and
    whose last-mark granularity is the constant one while there is no mark
    (the object without marks included): the starting row of the first mark
    is 0; for every existing mark the starting row of the next mark is its
    starting row plus its rows; the starting row at the count of marks
    (allowed, one past the last mark) is the total of rows; the final mark
    has no rows.  Past the marks [getMarkRows] throws from the count of marks
    on and [getMarkStartingRow] only beyond it. *)
Theorem starting_rows_are_sums_of_mark_rows (g : t) :
  well_typed g ->
  fits g ->
  last_mark_is_a_mark g ->
  (forall i, 0 <= i < getMarksCount g ->
   exists start rows,
     getMarkStartingRow g i = Return start
     /\ getMarkRows g i = Return rows
     /\ getMarkStartingRow g (i + 1) = Return (start + rows)
     /\ 0 <= rows
     /\ start + rows <= getTotalRows g
     /\ (num_marks_without_final g <= i -> rows = 0))
  /\ getMarkStartingRow g 0 = Return 0
  /\ getMarkStartingRow g (getMarksCount g) = Return (getTotalRows g)
  /\ (forall j, getMarksCount g <= j ->
      getMarkRows g j
      = Throw (LOGICAL_ERROR "Trying to get non existing mark {}, while size is {}"))
  /\ (forall j, getMarksCount g < j ->
      getMarkStartingRow g j
      = Throw (LOGICAL_ERROR "Trying to get non existing mark {}, while size is {}")).
Proof.
  intros Hw Hf Hl.
  pose proof (getMarksCount_fits g Hw Hf) as Hcount.
  assert (Hcount0 : 0 <= getMarksCount g).
  { rewrite Hcount. destruct Hw as (_ & _ & Hn). unfold is_size_t in Hn.
    destruct (has_final_mark g); lia. }
  assert (H0 : 0 <= 0 <= getMarksCount g) by lia.
  assert (Hc : 0 <= getMarksCount g <= getMarksCount g) by lia.
  split; [|split; [|split; [|split]]].
  - intros i Hi.
    assert (Hi' : 0 <= i <= getMarksCount g) by lia.
    assert (Hi1 : 0 <= i + 1 <= getMarksCount g) by lia.
    eexists. eexists.
    rewrite (getMarkStartingRow_fits g i Hw Hf Hl Hi').
    rewrite (getMarkStartingRow_fits g (i + 1) Hw Hf Hl Hi1).
    rewrite (getMarkRows_fits g i Hw Hf Hi).
    rewrite (getTotalRows_fits g Hw Hf).
    split; [reflexivity|]. split; [reflexivity|].
    rewrite Hcount in Hi.
    destruct Hw as (Hcg & Hla & Hn). destruct Hf as (Hf & Hf1).
    unfold is_size_t in *.
    destruct (i <? num_marks_without_final g) eqn:E1;
      destruct (i + 1 <? num_marks_without_final g) eqn:E2;
      destruct (i + 1 =? num_marks_without_final g) eqn:E3;
      destruct (num_marks_without_final g =? 0) eqn:E4;
      comparisons; try lia;
      (split; [f_equal; nia|]); (split; [nia|]); (split; [nia|]); intros; lia.
  - rewrite (getMarkStartingRow_fits g 0 Hw Hf Hl H0).
    destruct (0 <? num_marks_without_final g) eqn:E1.
    + rewrite Z.mul_0_r. reflexivity.
    + apply Z.ltb_ge in E1. destruct Hw as (_ & _ & Hn). unfold is_size_t in Hn.
      assert (E4 : num_marks_without_final g = 0) by lia. rewrite E4. reflexivity.
  - rewrite (getMarkStartingRow_fits g _ Hw Hf Hl Hc), (getTotalRows_fits g Hw Hf).
    rewrite Hcount.
    assert (E1 : (num_marks_without_final g + (if has_final_mark g then 1 else 0)
                  <? num_marks_without_final g) = false)
      by (apply Z.ltb_ge; destruct (has_final_mark g); lia).
    rewrite E1. reflexivity.
  - intros j Hj. unfold getMarkRows.
    assert (E : (getMarksCount g <=? j) = true) by (apply Z.leb_le; exact Hj).
    rewrite E. reflexivity.
  - intros j Hj. unfold getMarkStartingRow.
    assert (E : (getMarksCount g <? j) = true) by (apply Z.ltb_lt; exact Hj).
    rewrite E. reflexivity.
Qed.

(** X10 at work: three marks of 8192 rows, the last one holding 100, and a
    final mark; and the object without marks, whose rows start and end at 0
    and whose mark 0 does not exist. *)
Lemma starting_rows_are_sums_of_mark_rows_witness :
  ((exists start rows,
      getMarkStartingRow (mk 8192 100 3 true) 2 = Return start
      /\ getMarkRows (mk 8192 100 3 true) 2 = Return rows
      /\ getMarkStartingRow (mk 8192 100 3 true) 3 = Return (start + rows))
   /\ getMarkStartingRow (mk 8192 100 3 true) 4 = Return 16484)
  /\ getMarkStartingRow (mk 8192 8192 0 false) 0 = Return 0
  /\ getTotalRows (mk 8192 8192 0 false) = 0
  /\ getMarkRows (mk 8192 8192 0 false) 0
     = Throw (LOGICAL_ERROR "Trying to get non existing mark {}, while size is {}").
Proof.
  assert (Hw : well_typed (mk 8192 100 3 true))
    by (unfold well_typed, is_size_t, modulus; cbn; lia).
  assert (Hf : fits (mk 8192 100 3 true)) by (unfold fits, modulus; cbn; lia).
  assert (Hl : last_mark_is_a_mark (mk 8192 100 3 true))
    by (intros H; discriminate H).
  assert (Hi : 0 <= 2 < getMarksCount (mk 8192 100 3 true))
    by (split; [discriminate | reflexivity]).
  destruct (starting_rows_are_sums_of_mark_rows (mk 8192 100 3 true) Hw Hf Hl)
    as (Hsum & _ & Htotal & _).
  destruct (Hsum 2 Hi) as (start & rows & Hs & Hr & Hnext & _).
  assert (Hw0 : well_typed (mk 8192 8192 0 false))
    by (unfold well_typed, is_size_t, modulus; cbn; lia).
  assert (Hf0 : fits (mk 8192 8192 0 false)) by (unfold fits, modulus; cbn; lia).
  assert (Hl0 : last_mark_is_a_mark (mk 8192 8192 0 false))
    by (intros _; reflexivity).
  destruct (starting_rows_are_sums_of_mark_rows (mk 8192 8192 0 false) Hw0 Hf0 Hl0)
    as (_ & Hzero & _ & Hrows & _).
  split; [split; [|exact Htotal]|].
  - exists start, rows. repeat split; assumption.
  - split; [exact Hzero|]. split; [reflexivity|].
    apply (Hrows 0). discriminate.
Defined.

(** X11.  Appending marks.  After the final mark both [appendMark] and
    [adjustLastMark] throw and leave the object as it is.  Before it:
    [appendMark 0] sets the final mark, one more mark with no rows, the total
    of rows unchanged; [appendMark] of a count that is neither 0 nor the
    constant granularity throws and changes nothing; [appendMark] of the
    constant granularity adds one mark and that many rows to the total, the
    new last mark takes the granularity of the last mark and the mark that
    was last before counts the constant granularity from then on;
    [adjustLastMark] makes sure there is a mark and gives the last one the
    rows asked for.  (Where the object changes, the changed object is taken
    not to wrap around.) *)
Theorem marks_are_appended_before_the_final_mark (g : t) (rows_count : Z) :
  well_typed g ->
  last_mark_is_a_mark g ->
  is_size_t rows_count ->
  (has_final_mark g = true ->
   appendMark rows_count g
   = (Throw (LOGICAL_ERROR "Cannot append mark after final"), g)
   /\ adjustLastMark rows_count g
      = (Throw (LOGICAL_ERROR "Cannot adjust final mark"), g))
  /\ (has_final_mark g = false ->
      (fits g ->
       fst (appendMark 0 g) = Return tt
       /\ getMarksCount (snd (appendMark 0 g)) = getMarksCount g + 1
       /\ getTotalRows (snd (appendMark 0 g)) = getTotalRows g
       /\ getMarkRows (snd (appendMark 0 g)) (getMarksCount g) = Return 0)
      /\ (rows_count <> 0 ->
          rows_count <> constant_granularity g ->
          appendMark rows_count g
          = (Throw (LOGICAL_ERROR
                      "Cannot append mark with {} rows. Granularity is constant ({})"),
             g))
      /\ (constant_granularity g <> 0 ->
          fits (mk (constant_granularity g) (last_mark_granularity g)
                  (num_marks_without_final g + 1) false) ->
          fst (appendMark (constant_granularity g) g) = Return tt
          /\ getMarksCount (snd (appendMark (constant_granularity g) g))
             = getMarksCount g + 1
          /\ getTotalRows (snd (appendMark (constant_granularity g) g))
             = getTotalRows g + constant_granularity g
          /\ getMarkRows (snd (appendMark (constant_granularity g) g))
               (getMarksCount g)
             = Return (last_mark_granularity g)
          /\ (0 < num_marks_without_final g ->
              getMarkRows (snd (appendMark (constant_granularity g) g))
                (getMarksCount g - 1)
              = Return (constant_granularity g))
          /\ last_mark_is_a_mark (snd (appendMark (constant_granularity g) g)))
      /\ (fits (mk (constant_granularity g) rows_count
                  (Z.max 1 (num_marks_without_final g)) false) ->
          fst (adjustLastMark rows_count g) = Return tt
          /\ getMarksCount (snd (adjustLastMark rows_count g))
             = Z.max 1 (getMarksCount g)
          /\ getMarkRows (snd (adjustLastMark rows_count g))
               (Z.max 1 (getMarksCount g) - 1)
             = Return rows_count
          /\ getTotalRows (snd (adjustLastMark rows_count g))
             = constant_granularity g * (Z.max 1 (getMarksCount g) - 1) + rows_count
          /\ last_mark_is_a_mark (snd (adjustLastMark rows_count g)))).
Proof.
  intros Hw Hl Hr. split.
  - intros Hfin. unfold appendMark, adjustLastMark. rewrite Hfin. split; reflexivity.
  - intros Hfin.
    destruct g as [cg last num fin]. cbn in Hfin. subst fin.
    destruct Hw as (Hcg & Hla & Hn). cbn in Hcg, Hla, Hn.
    unfold last_mark_is_a_mark in Hl. cbn in Hl.
    unfold is_size_t in *.
    split; [|split; [|split]].
    + intros Hf.
      assert (Hw0 : well_typed (mk cg last num false))
        by (repeat split; cbn; lia).
      assert (Hw1 : well_typed (mk cg last num true))
        by (repeat split; cbn; lia).
      assert (Hf1 : fits (mk cg last num true)) by exact Hf.
      cbn [appendMark has_final_mark Z.eqb fst snd].
      unfold appendMark. cbn [has_final_mark Z.eqb fst snd constant_granularity
                                last_mark_granularity num_marks_without_final].
      rewrite (getMarksCount_fits _ Hw0 Hf), (getMarksCount_fits _ Hw1 Hf1).
      cbn [has_final_mark num_marks_without_final].
      split; [reflexivity|]. split; [lia|]. split; [reflexivity|].
      rewrite (getMarkRows_fits _ (num + 0) Hw1 Hf1)
        by (rewrite (getMarksCount_fits _ Hw1 Hf1); cbn; lia).
      cbn [num_marks_without_final].
      assert (E1 : (num + 0 + 1 <? num) = false) by (apply Z.ltb_ge; lia).
      assert (E2 : (num + 0 + 1 =? num) = false) by (apply Z.eqb_neq; lia).
      rewrite E1, E2. reflexivity.
    + intros Hr0 Hrc. unfold appendMark.
      cbn [has_final_mark constant_granularity].
      assert (E1 : (rows_count =? 0) = false) by (apply Z.eqb_neq; exact Hr0).
      assert (E2 : (rows_count =? cg) = false) by (apply Z.eqb_neq; exact Hrc).
      rewrite E1, E2. reflexivity.
    + cbn [constant_granularity last_mark_granularity num_marks_without_final].
      intros Hcg0 Hf'.
      assert (Hf : fits (mk cg last num false)).
      { destruct Hf' as (Ha & Hb). cbn in Ha, Hb. split; cbn; nia. }
      assert (Hw0 : well_typed (mk cg last num false))
        by (repeat split; cbn; lia).
      assert (Hw1 : well_typed (mk cg last (num + 1) false)).
      { destruct Hf' as (Ha & Hb). cbn in Ha, Hb. repeat split; cbn; lia. }
      assert (Happ : appendMark cg (mk cg last num false)
                     = (Return tt, mk cg last (num + 1) false)).
      { unfold appendMark.
        cbn [has_final_mark constant_granularity last_mark_granularity
               num_marks_without_final].
        assert (E1 : (cg =? 0) = false) by (apply Z.eqb_neq; exact Hcg0).
        rewrite E1, Z.eqb_refl. cbn [negb].
        rewrite (wrap_small (num + 1))
          by (destruct Hf' as (_ & Hb); cbn in Hb; unfold is_size_t; lia).
        reflexivity. }
      rewrite Happ. cbn [fst snd].
      rewrite (getMarksCount_fits _ Hw0 Hf), (getMarksCount_fits _ Hw1 Hf').
      rewrite (getTotalRows_fits _ Hw0 Hf), (getTotalRows_fits _ Hw1 Hf').
      cbn [has_final_mark constant_granularity last_mark_granularity
             num_marks_without_final].
      split; [reflexivity|]. split; [lia|]. split.
      { destruct (num =? 0) eqn:E0; destruct (num + 1 =? 0) eqn:E1;
          comparisons; try lia;
          try (subst num; rewrite (Hl eq_refl)); ring. }
      split.
      { rewrite (getMarkRows_fits _ (num + 0) Hw1 Hf')
          by (rewrite (getMarksCount_fits _ Hw1 Hf'); cbn; lia).
        cbn [num_marks_without_final constant_granularity last_mark_granularity].
        assert (E1 : (num + 0 + 1 <? num + 1) = false) by (apply Z.ltb_ge; lia).
        assert (E2 : (num + 0 + 1 =? num + 1) = true) by (apply Z.eqb_eq; lia).
        rewrite E1, E2. reflexivity. }
      split.
      { intros Hpos.
        rewrite (getMarkRows_fits _ (num + 0 - 1) Hw1 Hf')
          by (rewrite (getMarksCount_fits _ Hw1 Hf'); cbn; lia).
        cbn [num_marks_without_final constant_granularity last_mark_granularity].
        assert (E1 : (num + 0 - 1 + 1 <? num + 1) = true) by (apply Z.ltb_lt; lia).
        rewrite E1. reflexivity. }
      intros H0. cbn in H0. lia.
    + cbn [constant_granularity last_mark_granularity num_marks_without_final].
      intros Hf'.
      assert (Hw1 : well_typed (mk cg rows_count (Z.max 1 num) false)).
      { destruct Hf' as (Ha & Hb). cbn in Ha, Hb. repeat split; cbn; lia. }
      assert (Hadj : adjustLastMark rows_count (mk cg last num false)
                     = (Return tt, mk cg rows_count (Z.max 1 num) false)).
      { unfold adjustLastMark.
        cbn [has_final_mark constant_granularity last_mark_granularity
               num_marks_without_final].
        destruct (num =? 0) eqn:E0; comparisons.
        - subst num. reflexivity.
        - replace (Z.max 1 num) with num by lia. reflexivity. }
      rewrite Hadj. cbn [fst snd].
      assert (Hc0 : getMarksCount (mk cg last num false) = num).
      { unfold getMarksCount. cbn [has_final_mark num_marks_without_final].
        rewrite Z.add_0_r. apply wrap_small. exact Hn. }
      rewrite Hc0, (getMarksCount_fits _ Hw1 Hf'), (getTotalRows_fits _ Hw1 Hf').
      cbn [has_final_mark constant_granularity last_mark_granularity
             num_marks_without_final].
      split; [reflexivity|]. split; [lia|]. split.
      { rewrite (getMarkRows_fits _ (Z.max 1 num - 1) Hw1 Hf')
          by (rewrite (getMarksCount_fits _ Hw1 Hf'); cbn; lia).
        cbn [num_marks_without_final constant_granularity last_mark_granularity].
        assert (E1 : (Z.max 1 num - 1 + 1 <? Z.max 1 num) = false)
          by (apply Z.ltb_ge; lia).
        assert (E2 : (Z.max 1 num - 1 + 1 =? Z.max 1 num) = true)
          by (apply Z.eqb_eq; lia).
        rewrite E1, E2. reflexivity. }
      split.
      { assert (E0 : (Z.max 1 num =? 0) = false) by (apply Z.eqb_neq; lia).
        rewrite E0. reflexivity. }
      intros H0. cbn in H0. lia.
Qed.

(** X11 at work: two marks of 8192 rows; the last is adjusted to 100 rows,
    which makes 8292 rows. *)
Lemma marks_are_appended_before_the_final_mark_witness :
  getTotalRows (snd (adjustLastMark 100 (mk 8192 8192 2 false))) = 8292
  /\ getMarkRows (snd (adjustLastMark 100 (mk 8192 8192 2 false))) 1 = Return 100.
Proof.
  assert (Hw : well_typed (mk 8192 8192 2 false))
    by (unfold well_typed, is_size_t, modulus; cbn; lia).
  assert (Hl : last_mark_is_a_mark (mk 8192 8192 2 false))
    by (intros H; discriminate H).
  assert (Hr : is_size_t 100) by (unfold is_size_t, modulus; lia).
  assert (Hf : fits (mk 8192 100 (Z.max 1 2) false))
    by (unfold fits, modulus; cbn; lia).
  destruct (proj2 (marks_are_appended_before_the_final_mark
                     (mk 8192 8192 2 false) 100 Hw Hl Hr) eq_refl)
    as (_ & _ & _ & Hadj).
  destruct (Hadj Hf) as (_ & _ & Hrows & Htotal & _).
  split; [exact Htotal | exact Hrows].
Defined.

Lemma wrap_sub_l (a b : Z) : wrap (wrap a - b) = wrap (a - b).
Proof. unfold wrap. apply Zminus_mod_idemp_l. Qed.

Lemma wrap_wrap (a : Z) : wrap (wrap a) = wrap a.
Proof. unfold wrap. apply Zmod_mod. Qed.

(** [getRowsCountInRange] with one reduction modulo 2^64. *)
Lemma getRowsCountInRange_eq (g : t) (b e : Z) :
  getRowsCountInRange g b e
  = if (num_marks_without_final g <=? e) && negb (e =? 0)
    then wrap (last_mark_granularity g
               + constant_granularity g * (num_marks_without_final g - 1 - b))
    else wrap (constant_granularity g * (e - b)).
Proof.
  unfold getRowsCountInRange.
  destruct ((num_marks_without_final g <=? e) && negb (e =? 0));
    cbv beta iota zeta.
  - rewrite wrap_sub_l, wrap_sum. f_equal.
  - rewrite wrap_mul_r, Z.add_0_l, wrap_wrap. reflexivity.
Qed.

(** X12.  Rows in a range of marks.  For an object that does not wrap around
    (as in X10) and a range [begin, end) of marks with [end] at most the
    count of marks: when [begin] is a mark before the final one (or 0),
    [getRowsCountInRange] is the starting row of [end] minus the starting
    row of [begin].  When [begin] is not 0 and not below the number of marks
    without the final one (the range starts at the final mark or after it),
    the result is the last-mark granularity minus the constant granularity
    for each mark from the last one to [begin], reduced modulo 2^64: for a
    range that starts at the final mark, it is 0 only if the last mark has
    the constant granularity. *)
Theorem rows_in_range_are_a_difference_of_starting_rows (g : t) (b e : Z) :
  well_typed g ->
  fits g ->
  last_mark_is_a_mark g ->
  0 <= b <= e ->
  e <= getMarksCount g ->
  (b < num_marks_without_final g \/ b = 0 ->
   exists start_b start_e,
     getMarkStartingRow g b = Return start_b
     /\ getMarkStartingRow g e = Return start_e
     /\ getRowsCountInRange g b e = start_e - start_b)
  /\ (num_marks_without_final g <= b ->
      b <> 0 ->
      getMarkStartingRow g b = getMarkStartingRow g e
      /\ getRowsCountInRange g b e
         = wrap (last_mark_granularity g
                 - constant_granularity g * (b - num_marks_without_final g + 1))).
Proof.
  intros Hw Hf Hl Hbe He.
  assert (Hb' : 0 <= b <= getMarksCount g) by lia.
  assert (He' : 0 <= e <= getMarksCount g) by lia.
  rewrite (getMarkStartingRow_fits g b Hw Hf Hl Hb').
  rewrite (getMarkStartingRow_fits g e Hw Hf Hl He').
  rewrite getRowsCountInRange_eq.
  rewrite (getMarksCount_fits g Hw Hf) in He.
  destruct Hw as (Hcg & Hla & Hn). destruct Hf as (Hf & Hf1).
  unfold is_size_t, last_mark_is_a_mark in *.
  split.
  - intros Hb. eexists. eexists. split; [reflexivity|]. split; [reflexivity|].
    destruct (num_marks_without_final g <=? e) eqn:E1;
      destruct (e =? 0) eqn:E2;
      destruct (b <? num_marks_without_final g) eqn:E3;
      destruct (e <? num_marks_without_final g) eqn:E4;
      destruct (num_marks_without_final g =? 0) eqn:E5;
      comparisons; cbn [andb negb]; try lia;
      try (match goal with
           | H : num_marks_without_final g = 0 |- _ => pose proof (Hl H)
           end);
      match goal with
      | |- wrap ?A = ?B => replace A with B by nia
      end;
      apply wrap_small; unfold is_size_t; nia.
  - intros Hnb Hb0.
    assert (E3 : (b <? num_marks_without_final g) = false) by (apply Z.ltb_ge; lia).
    assert (E4 : (e <? num_marks_without_final g) = false) by (apply Z.ltb_ge; lia).
    assert (E1 : (num_marks_without_final g <=? e) = true) by (apply Z.leb_le; lia).
    assert (E2 : (e =? 0) = false) by (apply Z.eqb_neq; lia).
    rewrite E1, E2, E3, E4. cbn [andb negb]. split; [reflexivity|].
    f_equal. ring.
Qed.

(** X12 at work: three marks of 8192 rows, the last one holding 100, and a
    final mark; the marks 1 and 2 hold 8292 rows. *)
Lemma rows_in_range_are_a_difference_of_starting_rows_witness :
  exists start_b start_e,
    getMarkStartingRow (mk 8192 100 3 true) 1 = Return start_b
    /\ getMarkStartingRow (mk 8192 100 3 true) 3 = Return start_e
    /\ getRowsCountInRange (mk 8192 100 3 true) 1 3 = start_e - start_b.
Proof.
  assert (Hw : well_typed (mk 8192 100 3 true))
    by (unfold well_typed, is_size_t, modulus; cbn; lia).
  assert (Hf : fits (mk 8192 100 3 true)) by (unfold fits, modulus; cbn; lia).
  assert (Hl : last_mark_is_a_mark (mk 8192 100 3 true))
    by (intros H; discriminate H).
  assert (Hbe : 0 <= 1 <= 3) by lia.
  assert (He : 3 <= getMarksCount (mk 8192 100 3 true)) by discriminate.
  apply (proj1 (rows_in_range_are_a_difference_of_starting_rows
                  (mk 8192 100 3 true) 1 3 Hw Hf Hl Hbe He)).
  left. reflexivity.
Defined.

(** [countMarksForRows] without wrap-around, for an object with a mark. *)
Lemma countMarksForRows_fits (g : t) (from_mark number_of_rows : Z) :
  well_typed g -> fits g ->
  0 < num_marks_without_final g ->
  0 <= from_mark <= num_marks_without_final g ->
  0 <= number_of_rows ->
  constant_granularity g * num_marks_without_final g + last_mark_granularity g
  + number_of_rows < modulus ->
  exists start_from,
    getMarkStartingRow g from_mark = Return start_from
    /\ start_from
       = (if from_mark <? num_marks_without_final g
          then constant_granularity g * from_mark
          else constant_granularity g * (num_marks_without_final g - 1)
               + last_mark_granularity g)
    /\ countMarksForRows g from_mark number_of_rows
       = Return (if (num_marks_without_final g - 1) * constant_granularity g
                    <=? start_from + number_of_rows
                 then num_marks_without_final g - from_mark
                 else (start_from + number_of_rows + constant_granularity g - 1)
                      / constant_granularity g - from_mark).
Proof.
  intros Hw Hf Hpos Hfrom Hrows Hsum.
  assert (Hl : last_mark_is_a_mark g) by (intros H0; lia).
  assert (Hfrom' : 0 <= from_mark <= getMarksCount g).
  { rewrite (getMarksCount_fits g Hw Hf). destruct (has_final_mark g); lia. }
  pose proof (getMarkStartingRow_fits g from_mark Hw Hf Hl Hfrom') as Hstart.
  assert (E0 : (num_marks_without_final g =? 0) = false) by (apply Z.eqb_neq; lia).
  rewrite E0 in Hstart.
  eexists. split; [exact Hstart|]. split; [reflexivity|].
  unfold countMarksForRows. rewrite Hstart.
  destruct Hw as (Hcg & Hla & Hn). destruct Hf as (Hf & Hf1).
  unfold is_size_t in *.
  set (start_from := if from_mark <? num_marks_without_final g
                     then constant_granularity g * from_mark
                     else constant_granularity g * (num_marks_without_final g - 1)
                          + last_mark_granularity g).
  assert (Hs : 0 <= start_from
               <= constant_granularity g * (num_marks_without_final g - 1)
                  + last_mark_granularity g
               /\ (from_mark < num_marks_without_final g ->
                   start_from = constant_granularity g * from_mark)).
  { unfold start_from. destruct (from_mark <? num_marks_without_final g) eqn:E;
      comparisons; split; try nia; intros; try reflexivity; lia. }
  destruct Hs as (Hs & Hsf).
  cbv zeta.
  rewrite (wrap_small (start_from + number_of_rows)) by (unfold is_size_t; nia).
  rewrite (wrap_small (num_marks_without_final g - 1)) by (unfold is_size_t; lia).
  rewrite (wrap_small ((num_marks_without_final g - 1) * constant_granularity g))
    by (unfold is_size_t; nia).
  destruct ((num_marks_without_final g - 1) * constant_granularity g
            <=? start_from + number_of_rows) eqn:E1; comparisons.
  - rewrite (wrap_small (num_marks_without_final g - from_mark))
      by (unfold is_size_t; lia).
    reflexivity.
  - assert (Hcg0 : 0 < constant_granularity g) by nia.
    unfold divide.
    assert (E2 : (constant_granularity g =? 0) = false) by (apply Z.eqb_neq; lia).
    rewrite E2.
    rewrite (wrap_small (start_from + number_of_rows + constant_granularity g))
      by (unfold is_size_t; nia).
    rewrite (wrap_small (start_from + number_of_rows + constant_granularity g - 1))
      by (unfold is_size_t; nia).
    assert (Hfm : from_mark < num_marks_without_final g).
    { destruct (Z.lt_ge_cases from_mark (num_marks_without_final g)) as [H|H];
        [exact H|].
      exfalso. unfold start_from in E1.
      assert (E3 : (from_mark <? num_marks_without_final g) = false)
        by (apply Z.ltb_ge; exact H).
      rewrite E3 in E1. nia. }
    pose proof (Z.div_mod (start_from + number_of_rows + constant_granularity g - 1)
                  (constant_granularity g) ltac:(lia)) as Hdm.
    pose proof (Z.mod_pos_bound
                  (start_from + number_of_rows + constant_granularity g - 1)
                  (constant_granularity g) Hcg0) as Hmb.
    rewrite wrap_small; [reflexivity|].
    unfold is_size_t. specialize (Hsf Hfm). nia.
Qed.

(** X13.  The marks that hold a number of rows.  For an object with at
    least one mark that does not wrap around, a mark [from_mark] up to the
    number of marks without the final one, and a number of rows that can be
    added to the total without wrap-around: [countMarksForRows] returns (it
    never divides by zero, also for a constant granularity of 0), the count
    it returns is between 0 and the marks left from [from_mark], and the
    rows asked for, when the object has that many, end at or before the
    starting row of the mark the count leads to.  Below the last mark the
    count is exact: one mark fewer would not hold the rows.  From the
    starting row of the last mark on, all the marks left are counted (also
    when the rows end exactly where the last mark starts). *)
Theorem marks_for_rows_hold_the_rows (g : t) (from_mark number_of_rows : Z) :
  well_typed g ->
  fits g ->
  0 < num_marks_without_final g ->
  0 <= from_mark <= num_marks_without_final g ->
  0 <= number_of_rows ->
  constant_granularity g * num_marks_without_final g + last_mark_granularity g
  + number_of_rows < modulus ->
  exists start_from marks start_to,
    getMarkStartingRow g from_mark = Return start_from
    /\ countMarksForRows g from_mark number_of_rows = Return marks
    /\ getMarkStartingRow g (from_mark + marks) = Return start_to
    /\ 0 <= marks <= num_marks_without_final g - from_mark
    /\ (start_from + number_of_rows <= getTotalRows g ->
        start_from + number_of_rows <= start_to)
    /\ (marks < num_marks_without_final g - from_mark ->
        start_to - constant_granularity g < start_from + number_of_rows)
    /\ ((num_marks_without_final g - 1) * constant_granularity g
        <= start_from + number_of_rows ->
        marks = num_marks_without_final g - from_mark).
Proof.
  intros Hw Hf Hpos Hfrom Hrows Hsum.
  destruct (countMarksForRows_fits g from_mark number_of_rows
              Hw Hf Hpos Hfrom Hrows Hsum) as (start_from & Hstart & Hsf & Hcount).
  assert (Hl : last_mark_is_a_mark g) by (intros H0; lia).
  pose proof (getTotalRows_fits g Hw Hf) as Htotal.
  assert (E0 : (num_marks_without_final g =? 0) = false) by (apply Z.eqb_neq; lia).
  rewrite E0 in Htotal.
  pose proof (getMarksCount_fits g Hw Hf) as Hmc.
  assert (Hto : forall m, 0 <= m <= num_marks_without_final g - from_mark ->
            getMarkStartingRow g (from_mark + m)
            = Return (if from_mark + m <? num_marks_without_final g
                      then constant_granularity g * (from_mark + m)
                      else constant_granularity g * (num_marks_without_final g - 1)
                           + last_mark_granularity g)).
  { intros m Hm.
    rewrite (getMarkStartingRow_fits g (from_mark + m) Hw Hf Hl)
      by (rewrite Hmc; destruct (has_final_mark g); lia).
    rewrite E0. reflexivity. }
  destruct Hw as (Hcg & Hla & Hn). destruct Hf as (Hf & Hf1).
  unfold is_size_t in *.
  destruct ((num_marks_without_final g - 1) * constant_granularity g
            <=? start_from + number_of_rows) eqn:E1; comparisons.
  - exists start_from, (num_marks_without_final g - from_mark).
    eexists. split; [exact Hstart|]. split; [exact Hcount|].
    split; [apply Hto; lia|].
    assert (E2 : (from_mark + (num_marks_without_final g - from_mark)
                  <? num_marks_without_final g) = false)
      by (apply Z.ltb_ge; lia).
    rewrite E2, Htotal.
    split; [lia|]. split; [intros H; exact H|]. split; [lia|]. reflexivity.
  - assert (Hcg0 : 0 < constant_granularity g).
    { destruct (from_mark <? num_marks_without_final g); nia. }
    assert (Hfm : from_mark < num_marks_without_final g).
    { destruct (from_mark <? num_marks_without_final g) eqn:E3; comparisons;
        [exact E3 | nia]. }
    assert (E3 : (from_mark <? num_marks_without_final g) = true)
      by (apply Z.ltb_lt; exact Hfm).
    rewrite E3 in Hsf.
    pose proof (Z.div_mod (start_from + number_of_rows + constant_granularity g - 1)
                  (constant_granularity g) ltac:(lia)) as Hdm.
    pose proof (Z.mod_pos_bound
                  (start_from + number_of_rows + constant_granularity g - 1)
                  (constant_granularity g) Hcg0) as Hmb.
    set (q := (start_from + number_of_rows + constant_granularity g - 1)
              / constant_granularity g) in *.
    assert (Hq : from_mark <= q <= num_marks_without_final g - 1) by nia.
    exists start_from, (q - from_mark).
    eexists. split; [exact Hstart|]. split; [exact Hcount|].
    split; [apply Hto; lia|].
    assert (E4 : (from_mark + (q - from_mark) <? num_marks_without_final g) = true)
      by (apply Z.ltb_lt; lia).
    rewrite E4.
    replace (from_mark + (q - from_mark)) with q by ring.
    split; [lia|]. split; [intros _; nia|]. split; [intros _; nia|].
    intros H. lia.
Qed.

(** X13 at work: three marks of 8192 rows; 10000 rows from the first mark
    take two marks. *)
Lemma marks_for_rows_hold_the_rows_witness :
  exists start_from marks start_to,
    getMarkStartingRow (mk 8192 8192 3 true) 0 = Return start_from
    /\ countMarksForRows (mk 8192 8192 3 true) 0 10000 = Return marks
    /\ getMarkStartingRow (mk 8192 8192 3 true) (0 + marks) = Return start_to
    /\ 0 <= marks <= 3 - 0
    /\ start_to - 8192 < start_from + 10000 <= start_to.
Proof.
  assert (Hw : well_typed (mk 8192 8192 3 true))
    by (unfold well_typed, is_size_t, modulus; cbn; lia).
  assert (Hf : fits (mk 8192 8192 3 true)) by (unfold fits, modulus; cbn; lia).
  assert (Hpos : 0 < 3) by lia.
  assert (Hfrom : 0 <= 0 <= 3) by lia.
  assert (Hrows : 0 <= 10000) by lia.
  assert (Hsum : 8192 * 3 + 8192 + 10000 < modulus) by (unfold modulus; lia).
  destruct (marks_for_rows_hold_the_rows (mk 8192 8192 3 true) 0 10000
              Hw Hf Hpos Hfrom Hrows Hsum)
    as (start_from & marks & start_to & Hs & Hc & Ht & Hm & Hcover & Htight & _).
  exists start_from, marks, start_to.
  split; [exact Hs|]. split; [exact Hc|]. split; [exact Ht|]. split; [exact Hm|].
  assert (Hs0 : start_from = 0) by (injection Hs as <-; reflexivity).
  assert (Hc0 : marks = 2) by (injection Hc as <-; reflexivity).
  subst start_from marks. split.
  - apply Htight. cbn. lia.
  - apply Hcover. cbn. lia.
Defined.

End Granularity.

(** * Output parameters under injected failures *)

Section OutParameters.

Context {K : Type}.
Variable exec : forall c : Call, KeeperId -> K -> outcome (Reply c) * K.
Variables (k : KeeperId) (s : State K).
Hypothesis Hk : keeper s = Some k.

(** The real call of an operation with an output parameter: the parameter
    is written when the call returns. *)
Lemma call_into_frame_entered {A L} (c : Call) (to_pair : Reply c -> A * L)
  (r : Reply c) (srv1 : K) (l : L) :
  exec c k (service s) = (Return r, srv1) ->
  (x <- keeper_call exec c ;; assign (snd (to_pair x)) ;;; ret (fst (to_pair x)))
    l (entered true s)
  = (Return (fst (to_pair r)), snd (to_pair r), received k c srv1 (entered true s)).
Proof.
  intros He.
  rewrite (bind_returned _ _ r l l (entered true s)
             (received k c srv1 (entered true s)))
    by (apply (keeper_call_entered exec true c k r srv1 l s Hk He)).
  reflexivity.
Qed.

Lemma tryGet_run (path : string) (found : bool) (data res0 : string) (srv1 : K) :
  before_fires s = false ->
  exec (zk_tryGet path) k (service s) = (Return (found, data), srv1) ->
  tryGet exec path res0 s
  = if after_fires (drew_before s)
    then (Throw OperationTimeout, data,
          noted "tryGet" path ZOPERATIONTIMEOUT "Fault injection after operation"
            (drew_after (received k (zk_tryGet path) srv1 (drew_before s))))
    else (Return found, data,
          drew_after (received k (zk_tryGet path) srv1 (drew_before s))).
Proof.
  intros Hb He. unfold tryGet, plain, call_into_frame.
  pose proof (call_into_frame_entered (zk_tryGet path) (fun x => x)
                (found, data) srv1 res0 He) as Hop.
  cbn [fst snd] in Hop.
  destruct (passed_frame k (zk_tryGet path) srv1 (drew_before s)) as (Hpf & _).
  destruct (after_fires (drew_before s)) eqn:Ha.
  - apply (access_after_fires is_other false true true "tryGet" path _ None None
             k found res0 data data s
             (received k (zk_tryGet path) srv1 (drew_before s)));
      [exact Hk | exact Hb | exact Hop | reflexivity | reflexivity
      | exact Hpf | reflexivity].
  - apply (access_passes is_other false true true "tryGet" path _ None None
             k found res0 data s
             (received k (zk_tryGet path) srv1 (drew_before s)));
      [exact Hk | exact Hb | exact Hop | reflexivity | rewrite Hpf; reflexivity].
Qed.

Lemma tryGetChildren_run (path : string) (code : Error)
  (children res0 : list string) (srv1 : K) :
  before_fires s = false ->
  isHardwareError code = false ->
  exec (zk_tryGetChildren path) k (service s) = (Return (code, children), srv1) ->
  tryGetChildren exec path res0 s
  = if after_fires (drew_before s)
    then (Throw OperationTimeout, children,
          noted "tryGetChildren" path ZOPERATIONTIMEOUT
            "Fault injection after operation"
            (drew_after (received k (zk_tryGetChildren path) srv1 (drew_before s))))
    else (Return code, children,
          drew_after (received k (zk_tryGetChildren path) srv1 (drew_before s))).
Proof.
  intros Hb Hh He. unfold tryGetChildren, plain, call_into_frame.
  pose proof (call_into_frame_entered (zk_tryGetChildren path) (fun x => x)
                (code, children) srv1 res0 He) as Hop.
  cbn [fst snd] in Hop.
  destruct (passed_frame k (zk_tryGetChildren path) srv1 (drew_before s))
    as (Hpf & _).
  destruct (after_fires (drew_before s)) eqn:Ha.
  - apply (access_after_fires Error_result false true true "tryGetChildren" path _
             None None k code res0 children children s
             (received k (zk_tryGetChildren path) srv1 (drew_before s)));
      [exact Hk | exact Hb | exact Hop | exact Hh | reflexivity
      | exact Hpf | reflexivity].
  - apply (access_passes Error_result false true true "tryGetChildren" path _
             None None k code res0 children s
             (received k (zk_tryGetChildren path) srv1 (drew_before s)));
      [exact Hk | exact Hb | exact Hop | exact Hh | rewrite Hpf; reflexivity].
Qed.

End OutParameters.

(** X14.  Output parameters under injected failures.  [tryGet] and
    [tryGetChildren] hand the caller's variable to the real call, which writes
    it.  With the client there: when the before-checkpoint fires, SessionExpired
    is thrown and the variable is as the caller left it; when the real call
    returned and the after-checkpoint fires, OperationTimeout is thrown and
    the variable holds what the real call wrote (the result is not
    discarded); when the real [tryGet] throws a [KeeperException], it is
    rethrown with the variable untouched. *)
Theorem injected_timeout_leaves_the_real_result_in_the_variable {K : Type}
  (exec : forall c : Call, KeeperId -> K -> outcome (Reply c) * K)
  (k : KeeperId) (path res0 : string) (children0 : list string) (s : State K) :
  keeper s = Some k ->
  (before_fires s = true ->
   fst (tryGet exec path res0 s)
   = (Throw (KeeperException ZSESSIONEXPIRED "Fault injection before operation"),
      res0)
   /\ fst (tryGetChildren exec path children0 s)
      = (Throw (KeeperException ZSESSIONEXPIRED "Fault injection before operation"),
         children0)
   /\ calls (snd (tryGet exec path res0 s)) = calls s
   /\ calls (snd (tryGetChildren exec path children0 s)) = calls s)
  /\ (before_fires s = false ->
      after_fires (drew_before s) = true ->
      (forall found data srv1,
         exec (zk_tryGet path) k (service s) = (Return (found, data), srv1) ->
         fst (tryGet exec path res0 s) = (Throw OperationTimeout, data))
      /\ (forall code children srv1,
            exec (zk_tryGetChildren path) k (service s)
            = (Return (code, children), srv1) ->
            isHardwareError code = false ->
            fst (tryGetChildren exec path children0 s)
            = (Throw OperationTimeout, children)))
  /\ (before_fires s = false ->
      forall code message srv1,
        exec (zk_tryGet path) k (service s)
        = (Throw (KeeperException code message), srv1) ->
        fst (tryGet exec path res0 s)
        = (Throw (KeeperException code message), res0)).
Proof.
  intros Hk. split; [|split].
  - intros Hb.
    assert (Hg : tryGet exec path res0 s
                 = (Throw (KeeperException ZSESSIONEXPIRED
                             "Fault injection before operation"), res0,
                    noted "tryGet" path ZSESSIONEXPIRED
                      "Fault injection before operation" (drew_before s))).
    { unfold tryGet, plain.
      apply (access_before_fires is_other false true true "tryGet" path _ None None
               k res0 res0 s (drew_before s));
        [exact Hk | reflexivity | exact Hb | reflexivity]. }
    assert (Hc : tryGetChildren exec path children0 s
                 = (Throw (KeeperException ZSESSIONEXPIRED
                             "Fault injection before operation"), children0,
                    noted "tryGetChildren" path ZSESSIONEXPIRED
                      "Fault injection before operation" (drew_before s))).
    { unfold tryGetChildren, plain.
      apply (access_before_fires Error_result false true true "tryGetChildren" path
               _ None None k children0 children0 s (drew_before s));
        [exact Hk | reflexivity | exact Hb | reflexivity]. }
    rewrite Hg, Hc. cbn [fst snd].
    split; [reflexivity|]. split; [reflexivity|].
    destruct (drew_before_frame s) as (Hcalls & _).
    split.
    + rewrite (proj1 (noted_frame "tryGet" path ZSESSIONEXPIRED
                        "Fault injection before operation" (drew_before s))).
      exact Hcalls.
    + rewrite (proj1 (noted_frame "tryGetChildren" path ZSESSIONEXPIRED
                        "Fault injection before operation" (drew_before s))).
      exact Hcalls.
  - intros Hb Ha. split.
    + intros found data srv1 He.
      rewrite (tryGet_run exec k s Hk path found data res0 srv1 Hb He), Ha.
      reflexivity.
    + intros code children srv1 He Hh.
      rewrite (tryGetChildren_run exec k s Hk path code children children0 srv1
                 Hb Hh He), Ha.
      reflexivity.
  - intros Hb code message srv1 He.
    unfold tryGet, plain.
    rewrite (access_operation_throws is_other false true true "tryGet" path _
               None None k code message res0 res0 s
               (received k (zk_tryGet path) srv1 (drew_before s)));
      [reflexivity | exact Hk | exact Hb |].
    unfold call_into_frame. apply bind_thrown.
    rewrite (keeper_call_eq exec (zk_tryGet path) k)
      by (rewrite (proj1 (entered_frame true s)); exact Hk).
    destruct (entered_frame true s) as (_ & -> & _).
    rewrite He. reflexivity.
Qed.

(** X14 at work: the caller's variable holds "old"; the read returns ""
    and is failed afterwards: the variable holds "". *)
Lemma injected_timeout_leaves_the_real_result_in_the_variable_witness :
  fst (tryGet InMemory.exec "/a" "old" failing_after) = (Throw OperationTimeout, "").
Proof.
  exact (proj1 (proj1 (proj2
           (injected_timeout_leaves_the_real_result_in_the_variable InMemory.exec
              0%nat "/a" "old" [] failing_after eq_refl))
           eq_refl eq_refl) false "" InMemory.empty eq_refl).
Defined.

(** * A response of the wrong kind *)

Section ScanStops.

Context {K L : Type}.

Lemma answers_length (requests : Requests) :
  forall responses, answers requests responses = true ->
  length responses = length requests.
Proof.
  induction requests as [|rq requests IH]; intros [|r responses] Ha;
    try reflexivity; try discriminate.
  - destruct rq as [? ? [] ?| | |]; discriminate.
  - cbn [length]. f_equal. apply IH.
    destruct rq as [? ? [] ?| | |]; cbn in Ha;
      try exact Ha; destruct r; try discriminate; exact Ha.
Qed.

Lemma bind_assoc {A B C} (m : M K L A) (f : A -> M K L B) (g : B -> M K L C)
  (l : L) (s : State K) :
  bind (bind m f) g l s = bind m (fun a => bind (f a) g) l s.
Proof.
  unfold bind. destruct (m l s) as [[[a|e] l'] s']; reflexivity.
Qed.

(** The scan over an answered prefix of the batch runs the action on the
    paths created there and goes on with the rest. *)
Lemma scan_prefix (requests : Requests) :
  forall (responses pre : Responses) (requests' : Requests) (responses' : Responses)
         (action : string -> M K L unit) (l : L) (s : State K),
  answers requests responses = true ->
  for_each (create_requests (length pre) (requests ++ requests'))
    (fun ir =>
       match nth_error (pre ++ responses ++ responses') (fst ir) with
       | Some (CreateResponse _ path_created) => action path_created
       | Some _ => throw (LOGICAL_ERROR "Response should be CreateResponse")
       | None => throw (std_exception "vector::at")
       end) l s
  = (for_each (created_paths requests responses) action ;;;
     for_each (create_requests (length pre + length requests) requests')
       (fun ir =>
          match nth_error (pre ++ responses ++ responses') (fst ir) with
          | Some (CreateResponse _ path_created) => action path_created
          | Some _ => throw (LOGICAL_ERROR "Response should be CreateResponse")
          | None => throw (std_exception "vector::at")
          end)) l s.
Proof.
  induction requests as [|rq requests IH];
    intros responses pre requests' responses' action l s Ha.
  - destruct responses; [|discriminate]. cbn [app length created_paths for_each].
    rewrite Nat.add_0_r. reflexivity.
  - destruct responses as [|rs responses].
    + destruct rq as [? ? [] ?| | |]; discriminate.
    + assert (Ha' : answers requests responses = true).
      { destruct rq as [? ? [] ?| | |]; cbn in Ha;
          try exact Ha; destruct rs; try discriminate; exact Ha. }
      assert (Hnext : forall l' s',
        for_each (create_requests (S (length pre)) (requests ++ requests'))
          (fun ir =>
             match nth_error (pre ++ (rs :: responses) ++ responses') (fst ir) with
             | Some (CreateResponse _ path_created) => action path_created
             | Some _ => throw (LOGICAL_ERROR "Response should be CreateResponse")
             | None => throw (std_exception "vector::at")
             end) l' s'
        = (for_each (created_paths requests responses) action ;;;
           for_each (create_requests (length pre + length (rq :: requests)) requests')
             (fun ir =>
                match nth_error (pre ++ (rs :: responses) ++ responses') (fst ir) with
                | Some (CreateResponse _ path_created) => action path_created
                | Some _ => throw (LOGICAL_ERROR "Response should be CreateResponse")
                | None => throw (std_exception "vector::at")
                end)) l' s').
      { intros l' s'.
        specialize (IH responses (pre ++ [rs]) requests' responses' action l' s' Ha').
        rewrite <- !app_assoc in IH. cbn [app] in IH.
        rewrite length_app in IH. cbn [length] in IH.
        rewrite Nat.add_1_r in IH. cbn [length].
        rewrite <- Nat.add_succ_comm. exact IH. }
      destruct rq as [p d [] q| | |];
        cbn [create_requests created_paths app]; try apply Hnext.
      destruct rs as [e pc| | | | | |]; cbn in Ha; try discriminate.
      cbn [for_each fst]. rewrite nth_error_app2 by apply Nat.le_refl.
      rewrite Nat.sub_diag. cbn [nth_error app].
      rewrite bind_assoc. apply bind_ext. intros _ l' s'. apply Hnext.
Qed.

(** X15.  A response of the wrong kind stops the scan half way.  Take a
    batch with as many responses as requests in which an ephemeral create
    request is answered by a response that is no create response, the
    requests before it being answered properly.  The scan runs the action on
    the paths created before that position, in order, and then throws the
    logical error; nothing after that position is looked at.  So the scan
    that tracks the created nodes leaves the tracker with the earlier paths
    added, and throws. *)
Theorem response_of_the_wrong_kind_stops_the_scan
  (method : string) (requests requests' : Requests) (responses responses' : Responses)
  (path data : string) (is_sequential : bool) (response : Response)
  (action : string -> M K L unit) (l : L) (s : State K) :
  answers requests responses = true ->
  length responses' = length requests' ->
  (forall e path_created, response <> CreateResponse e path_created) ->
  doForEachCreatedEphemeralNode method
    (requests ++ CreateRequest path data true is_sequential :: requests')
    (responses ++ response :: responses') action l s
  = (for_each (created_paths requests responses) action ;;;
     throw (LOGICAL_ERROR "Response should be CreateResponse")) l s
  /\ doForEachCreatedEphemeralNode method
       (requests ++ CreateRequest path data true is_sequential :: requests')
       (responses ++ response :: responses') push_ephemeral l s
     = (Throw (LOGICAL_ERROR "Response should be CreateResponse"), l,
        set_ephemeral_nodes
          (ephemeral_nodes s ++ created_paths requests responses) s).
Proof.
  intros Ha Hlen Hkind.
  assert (Hscan : forall act : string -> M K L unit,
    doForEachCreatedEphemeralNode method
      (requests ++ CreateRequest path data true is_sequential :: requests')
      (responses ++ response :: responses') act l s
    = (for_each (created_paths requests responses) act ;;;
       throw (LOGICAL_ERROR "Response should be CreateResponse")) l s).
  { intros act. unfold doForEachCreatedEphemeralNode.
    pose proof (answers_length requests responses Ha) as Hl.
    destruct (responses ++ response :: responses') as [|r0 rest] eqn:Hr.
    { destruct responses; discriminate Hr. }
    rewrite <- Hr.
    assert (Hsize : (length (responses ++ response :: responses')
                     =? length (requests
                                ++ CreateRequest path data true is_sequential
                                   :: requests'))%nat = true).
    { apply Nat.eqb_eq. rewrite !length_app. cbn [length]. rewrite Hl, Hlen.
      reflexivity. }
    rewrite Hsize. cbn [negb].
    pose proof (scan_prefix requests responses []
                  (CreateRequest path data true is_sequential :: requests')
                  (response :: responses') act l s Ha) as Hprefix.
    cbn [app length Nat.add] in Hprefix. rewrite Hprefix.
    apply bind_ext. intros _ l' s'.
    cbn [create_requests for_each fst].
    rewrite nth_error_app2 by (rewrite Hl; apply Nat.le_refl).
    rewrite Hl, Nat.sub_diag. cbn [nth_error].
    destruct response as [e pc| | | | | |];
      [exfalso; apply (Hkind e pc); reflexivity | | | | | |]; reflexivity. }
  split; [apply Hscan|].
  rewrite Hscan. unfold bind. rewrite pushes_run. reflexivity.
Qed.

End ScanStops.

(** X15 at work: two ephemeral creates, the second answered by an error
    response; "/a" is tracked and the logical error is thrown. *)
Lemma response_of_the_wrong_kind_stops_the_scan_witness :
  doForEachCreatedEphemeralNode (L:=unit) "multi"
    [CreateRequest "/a" "" true false; CreateRequest "/b" "" true false]
    [CreateResponse ZOK "/a"; ZooKeeperErrorResponse ZOK] push_ephemeral tt running
  = (Throw (LOGICAL_ERROR "Response should be CreateResponse"), tt,
     set_ephemeral_nodes ["/a"] running).
Proof.
  exact (proj2 (response_of_the_wrong_kind_stops_the_scan (L:=unit) "multi"
                  [CreateRequest "/a" "" true false] []
                  [CreateResponse ZOK "/a"] [] "/b" "" false
                  (ZooKeeperErrorResponse ZOK) push_ephemeral tt running
                  eq_refl eq_refl
                  (fun e pc H => match H in (_ = r) return
                                   match r with
                                   | CreateResponse _ _ => False
                                   | _ => True
                                   end
                                 with eq_refl => I end))).
Defined.
